(** * remote-diff-tool: collection and comparison pipeline

    A shallow embedding of the Go packages [config], [util], [collect],
    [analyze] and [sshutil] of brndnsvr/remote-diff-tool, and the
    properties of the pipeline proved over it.

    Conventions.
    - Go strings are [string]; Go's [==] on strings is decidable equality.
    - A Go [map[string]V] that has been allocated with [make] is a
      [gmap string V]; the zero value of a missing key is made explicit
      ([FileInfo_zero], [default 0]).
    - Calls into the operating system, the network or an external program
      are parameters of the model (an environment record or a Section
      variable) that fix the outcome of each call; the functions thread the
      state they change (the manifest, the file system) explicitly.
    - Logging is not modelled: it has no influence on any returned value. *)

From Stdlib Require Import String Ascii List Bool Arith ZArith Lia.
From stdpp Require Import base option list sorting gmap strings fin_maps fin_sets.

Local Open Scope string_scope.
Local Open Scope list_scope.
Local Open Scope stdpp_scope.
Local Open Scope nat_scope.


(** * Part I: the program *)

(** ** Package [strings] (Go standard library, the functions the tool calls) *)

Module strings.

(** [strings.HasPrefix(s, prefix)] *)
Definition HasPrefix (s prefix : string) : bool := String.prefix prefix s.

(** [strings.HasSuffix(s, suffix)] *)
Definition HasSuffix (s suffix : string) : bool :=
  Nat.leb (String.length suffix) (String.length s) &&
  String.eqb
    (substring (String.length s - String.length suffix) (String.length suffix) s)
    suffix.

(** [strings.TrimSuffix(s, suffix)]: [s] without the trailing [suffix], or
    [s] itself when it does not end in [suffix]. *)
Definition TrimSuffix (s suffix : string) : string :=
  if HasSuffix s suffix
  then substring 0 (String.length s - String.length suffix) s
  else s.

(** [strings.Join(elems, sep)] *)
Definition Join (elems : list string) (sep : string) : string :=
  String.concat sep elems.

(** [strings.ReplaceAll(s, old, new)] for a one-byte [old]. *)
Fixpoint ReplaceAll (s : string) (old : ascii) (new : string) : string :=
  match s with
  | EmptyString => EmptyString
  | String c s' =>
      if Ascii.eqb c old then new +:+ ReplaceAll s' old new
      else String c (ReplaceAll s' old new)
  end.

End strings.

(** [sort.Strings]: sorts in increasing byte-wise lexicographic order
    (the order of Go's [<] on strings, here [String.le]). *)
Definition sort_Strings (x : list string) : list string :=
  merge_sort String.le x.

(** ** Package [path/filepath] on Unix (Go standard library)

    [Clean] follows the four rules of its documentation: runs of separators
    collapse, [.] elements disappear, an inner [..] cancels the element
    before it, and [..] at the start of a rooted path is dropped. *)

Module filepath.

Definition Separator : ascii := "/"%char.

(** The elements of a path between separators, empty ones included:
    [strings.Split(path, "/")]. *)
Fixpoint split (path : string) : list string :=
  match path with
  | EmptyString => [EmptyString]
  | String c rest =>
      if Ascii.eqb c Separator then EmptyString :: split rest
      else match split rest with
           | [] => [String c EmptyString]
           | e :: es => String c e :: es
           end
  end.

(** One element processed by [Clean]; [out] is the stack of the elements
    kept so far, the last one first. *)
Definition cleanStep (rooted : bool) (out : list string) (e : string) : list string :=
  if String.eqb e "" then out
  else if String.eqb e "." then out
  else if String.eqb e ".." then
    match out with
    | [] => if rooted then [] else [".."]
    | top :: below => if String.eqb top ".." then ".." :: out else below
    end
  else e :: out.

Definition isRooted (path : string) : bool := strings.HasPrefix path "/".

(** [filepath.Clean(path)] *)
Definition Clean (path : string) : string :=
  if String.eqb path "" then "."
  else
    let rooted := isRooted path in
    let out := strings.Join (rev (fold_left (cleanStep rooted) (split path) [])) "/" in
    if rooted then "/" +:+ out
    else if String.eqb out "" then "." else out.

(** [filepath.Join(elem...)]: leading empty elements are ignored, the rest
    is joined with separators and cleaned. *)
Fixpoint Join (elem : list string) : string :=
  match elem with
  | [] => ""
  | e :: rest =>
      if String.eqb e "" then Join rest
      else Clean (strings.Join (e :: rest) "/")
  end.

(** [path[:i+1]] for [i] the index of the last separator of [path]
    (the empty string when it has none). *)
Fixpoint upToLastSeparator (path : string) : string :=
  match path with
  | EmptyString => EmptyString
  | String c rest =>
      match upToLastSeparator rest with
      | EmptyString =>
          if Ascii.eqb c Separator then String c EmptyString else EmptyString
      | String _ _ as r => String c r
      end
  end.

(** [filepath.Dir(path)] *)
Definition Dir (path : string) : string := Clean (upToLastSeparator path).

(** [filepath.FromSlash] and [filepath.ToSlash] are the identity where the
    separator is the slash. *)
Definition FromSlash (path : string) : string := path.
Definition ToSlash (path : string) : string := path.

End filepath.

Arguments filepath.Clean : simpl never.
Arguments filepath.Join : simpl never.
Arguments filepath.Dir : simpl never.

(** ** Package [config] : the configuration and the manifest *)

Module config.

Definition CollectedFilesBaseDir : string := "collected-files".
Definition ManifestFileName : string := "manifest.json".

(** [type SSHCredentials struct] *)
Record SSHCredentials : Type := mkSSHCredentials {
  Username : string;
  KeyPath : string;
  KeyPassphrase : string
}.

(** [type Config struct] *)
Record Config : Type := mkConfig {
  Servers : list string;
  Files : list string;
  Dirs : list string;
  SSHConfig : SSHCredentials
}.

(** [type FileInfo struct { Path, Checksum, Error string }] *)
Record FileInfo : Type := mkFileInfo {
  Path : string;
  Checksum : string;
  Error : string
}.

(** The zero value [FileInfo{}]. *)
Definition FileInfo_zero : FileInfo := mkFileInfo "" "" "".

#[global] Instance FileInfo_eq_dec : EqDecision FileInfo.
Proof. solve_decision. Defined.

(** [type Manifest struct { Mu sync.RWMutex; FilesByServer map[string]map[string]FileInfo }].
    The lock only serialises the accesses; every method below is one
    critical section, so it is a function on the map. *)
Record Manifest : Type := mkManifest {
  FilesByServer : gmap string (gmap string FileInfo)
}.

Definition NewManifest : Manifest := mkManifest ∅.

(** [func (m *Manifest) AddFile(server, relativePath, checksum, fileError string)] *)
Definition AddFile (m : Manifest) (server relativePath checksum fileError : string)
  : Manifest :=
  let byServer :=
    match FilesByServer m !! server with
    | Some _ => FilesByServer m
    | None => <[server := ∅]> (FilesByServer m)
    end in
  let serverFiles := default ∅ (byServer !! server) in
  mkManifest
    (<[server := <[relativePath := mkFileInfo relativePath checksum fileError]> serverFiles]>
       byServer).

(** [func (m *Manifest) GetFileInfo(server, relativePath string) (FileInfo, bool)] *)
Definition GetFileInfo (m : Manifest) (server relativePath : string)
  : FileInfo * bool :=
  match FilesByServer m !! server with
  | None => (FileInfo_zero, false)
  | Some serverFiles =>
      match serverFiles !! relativePath with
      | Some fileInfo => (fileInfo, true)
      | None => (FileInfo_zero, false)
      end
  end.

End config.


(** ** Goroutines *)

Module goroutines.

(** The goroutines of a fan-out finish in an order the scheduler chooses.
    [sched] encodes the choice: at each step the pending task at index
    [hd sched mod (number pending)] completes next. *)
Fixpoint completionOrder {A : Type} (n : nat) (sched : list nat) (pending : list A) : list A :=
  match n with
  | 0 => []
  | S n' =>
      let k := hd 0 sched `mod` length pending in
      match pending !! k with
      | Some task => task :: completionOrder n' (tl sched) (delete k pending)
      | None => []
      end
  end.

Definition scheduled {A : Type} (sched : list nat) (tasks : list A) : list A :=
  completionOrder (length tasks) sched tasks.

End goroutines.

(** ** Package [analyze] *)

Module analyze.
Import config.

(** [type fileComparisonResult struct]. A [Diffs] map that was never
    allocated is the empty map. *)
Record fileComparisonResult : Type := mkResult {
  FilePath : string;
  IsDiff : bool;
  Diffs : gmap string string;
  Errors : list string
}.

(** What running [diff -u path1 path2] can give: [cmd.Run()] returns nil
    (exit status 0), an [*exec.ExitError] with exit code 1, or any other
    error; [out] is what the command wrote to its standard output. *)
Inductive DiffRun : Type :=
  | DiffExit0 (out : string)
  | DiffExit1 (out : string)
  | DiffFailure (out : string) (err : string).

(** The local machine as [compareSingleFile] sees it. *)
Record Local : Type := mkLocal {
  statNotExist : string → bool;          (* os.IsNotExist(err) after os.Stat(path) *)
  runDiff : string → string → DiffRun;   (* exec.Command("diff", "-u", path1, path2) *)
  mkdirAllFails : string → bool          (* os.MkdirAll(dir, 0755) returns an error *)
}.

(** The commands run and the files written, in the order of the calls.
    The result of [os.WriteFile] is only logged. *)
Inductive event : Type :=
  | ExecDiff (path1 path2 : string)
  | MkdirAll (dir : string)
  | WriteFile (path content : string).

#[global] Instance event_eq_dec : EqDecision event.
Proof. solve_decision. Defined.

(** The variables of the first loop of [compareSingleFile]. *)
Record gathered : Type := mkGathered {
  checksums : gmap string string;
  filePaths : gmap string string;
  errorsFound : list string;
  foundOnAll : bool;
  firstChecksum : string;
  allMatch : bool
}.

(** Body of [for i, server := range servers] (step 1). *)
Definition gatherStep (manifest : Manifest) (filePath baseOutputDir : string)
    (g : gathered) (i : nat) (server : string) : gathered :=
  let '(info, exists_) := GetFileInfo manifest server filePath in
  if negb exists_ || negb (String.eqb (Error info) "") || String.eqb (Checksum info) "" then
    let msg :=
      if exists_ && negb (String.eqb (Error info) "")
      then "File " +:+ filePath +:+ " has error on server " +:+ server +:+ ": " +:+ Error info
      else "File " +:+ filePath +:+ " not found or has error on server " +:+ server in
    mkGathered (checksums g) (filePaths g) (errorsFound g ++ [msg]) false
               (firstChecksum g) (allMatch g)
  else
    let checksums' := <[server := Checksum info]> (checksums g) in
    let filePaths' :=
      <[server := filepath.Join [baseOutputDir; CollectedFilesBaseDir;
                                 "files-" +:+ server; filepath.FromSlash filePath]]>
        (filePaths g) in
    if Nat.eqb i 0 then
      mkGathered checksums' filePaths' (errorsFound g) (foundOnAll g)
                 (Checksum info) (allMatch g)
    else if negb (String.eqb (Checksum info) (firstChecksum g)) then
      mkGathered checksums' filePaths' (errorsFound g) (foundOnAll g)
                 (firstChecksum g) false
    else
      mkGathered checksums' filePaths' (errorsFound g) (foundOnAll g)
                 (firstChecksum g) (allMatch g).

Fixpoint gatherLoop (manifest : Manifest) (filePath baseOutputDir : string)
    (g : gathered) (i : nat) (servers : list string) : gathered :=
  match servers with
  | [] => g
  | server :: rest =>
      gatherLoop manifest filePath baseOutputDir
        (gatherStep manifest filePath baseOutputDir g i server) (S i) rest
  end.

(** Body of the inner loop of step 3: one pair [server1], [server2]. *)
Definition diffPair (os : Local) (filePath : string) (saveDiffs : bool) (diffDir : string)
    (filePaths : gmap string string) (server1 server2 : string)
    (st : fileComparisonResult * list event) : fileComparisonResult * list event :=
  let '(result, trace) := st in
  let path1 := default "" (filePaths !! server1) in
  let path2 := default "" (filePaths !! server2) in
  if statNotExist os path1 then
    (mkResult (FilePath result) (IsDiff result) (Diffs result)
       (Errors result ++ ["Local file missing for diff: " +:+ path1]), trace)
  else if statNotExist os path2 then
    (mkResult (FilePath result) (IsDiff result) (Diffs result)
       (Errors result ++ ["Local file missing for diff: " +:+ path2]), trace)
  else
    let trace := trace ++ [ExecDiff path1 path2] in
    match runDiff os path1 path2 with
    | DiffExit1 diffOutput =>
        let comparisonKey := server1 +:+ "_vs_" +:+ server2 in
        let result :=
          mkResult (FilePath result) (IsDiff result)
            (<[comparisonKey := diffOutput]> (Diffs result)) (Errors result) in
        if saveDiffs && negb (String.eqb diffDir "") then
          let diffFileName :=
            strings.ReplaceAll filePath "/" "_" +:+ "__" +:+ server1 +:+ "_vs_" +:+ server2
              +:+ ".diff" in
          let diffFilePath := filepath.Join [diffDir; diffFileName] in
          let trace := trace ++ [MkdirAll (filepath.Dir diffFilePath)] in
          if mkdirAllFails os (filepath.Dir diffFilePath) then (result, trace)
          else (result, trace ++ [WriteFile diffFilePath diffOutput])
        else (result, trace)
    | DiffFailure _ err =>
        (mkResult (FilePath result) (IsDiff result) (Diffs result)
           (Errors result ++
              ["Error running diff for " +:+ path1 +:+ " vs " +:+ path2 +:+ ": " +:+ err]),
         trace)
    | DiffExit0 _ => (result, trace)
    end.

(** [for j := i + 1; j < len(servers); j++] with [server1 = servers[i]]. *)
Definition innerLoop (os : Local) (filePath : string) (saveDiffs : bool) (diffDir : string)
    (filePaths : gmap string string) (server1 : string) (later : list string)
    (st : fileComparisonResult * list event) : fileComparisonResult * list event :=
  fold_left (fun st server2 => diffPair os filePath saveDiffs diffDir filePaths server1 server2 st)
            later st.

(** [for i := 0; i < len(servers); i++]. *)
Fixpoint pairwiseLoop (os : Local) (filePath : string) (saveDiffs : bool) (diffDir : string)
    (filePaths : gmap string string) (servers : list string)
    (st : fileComparisonResult * list event) : fileComparisonResult * list event :=
  match servers with
  | [] => st
  | server1 :: later =>
      pairwiseLoop os filePath saveDiffs diffDir filePaths later
        (innerLoop os filePath saveDiffs diffDir filePaths server1 later st)
  end.

(** [compareSingleFile]: the result it sends on [resultChan] (it sends
    exactly one on every path) and the external calls it made. *)
Definition compareSingleFile (os : Local) (filePath : string) (servers : list string)
    (manifest : Manifest) (baseOutputDir : string) (saveDiffs : bool) (diffDir : string)
    : fileComparisonResult * list event :=
  let g := gatherLoop manifest filePath baseOutputDir
             (mkGathered ∅ ∅ [] true "" true) 0 servers in
  if negb (foundOnAll g) then
    (mkResult filePath true ∅ (errorsFound g), [])
  else if allMatch g then
    (mkResult filePath false ∅ (errorsFound g), [])
  else
    pairwiseLoop os filePath saveDiffs diffDir (filePaths g) servers
      (mkResult filePath true ∅ (errorsFound g), []).

(** The test [exists && info.Error == ""] that [getFilesToCompare] applies
    to [manifest.FilesByServer[server][filePath]]: the path has a record
    without error on the server. *)
Definition presentOn (manifest : Manifest) (server filePath : string) : bool :=
  match FilesByServer manifest !! server with
  | Some serverData =>
      match serverData !! filePath with
      | Some info => String.eqb (Error info) ""
      | None => false
      end
  | None => false
  end.

Section ranging.

(** Go visits the entries of a map in an unspecified order: [range m] is
    any enumeration of the entries of [m]. *)
Context (range : ∀ V : Type, gmap string V → list (string * V)).

(** Body of [for filePath, info := range serverFiles]. *)
Definition countFile (acc : gmap string nat * gmap string bool)
    (entry : string * FileInfo) : gmap string nat * gmap string bool :=
  let '(fileCounts, allFiles) := acc in
  let '(filePath, info) := entry in
  if String.eqb (Error info) "" then
    (<[filePath := S (default 0 (fileCounts !! filePath))]> fileCounts,
     <[filePath := true]> allFiles)
  else acc.

(** Body of [for _, server := range servers]. *)
Definition countServer (manifest : Manifest) (acc : gmap string nat * gmap string bool)
    (server : string) : gmap string nat * gmap string bool :=
  match FilesByServer manifest !! server with
  | None => acc
  | Some serverFiles => fold_left countFile (range _ serverFiles) acc
  end.

(** Body of [for filePath := range allFiles]; the [else] branch only logs. *)
Definition collectCommon (fileCounts : gmap string nat) (numServers : nat)
    (commonFiles : list string) (entry : string * bool) : list string :=
  match fileCounts !! entry.1 with
  | Some count => if Nat.eqb count numServers then commonFiles ++ [entry.1] else commonFiles
  | None => commonFiles
  end.

(** [getFilesToCompare] *)
Definition getFilesToCompare (servers : list string) (manifest : Manifest) : list string :=
  if Nat.eqb (length servers) 0 then []
  else
    let '(fileCounts, allFiles) := fold_left (countServer manifest) servers (∅, ∅) in
    let commonFiles :=
      fold_left (collectCommon fileCounts (length servers)) (range _ allFiles) [] in
    sort_Strings commonFiles.

(** *** [RunAnalysis] *)

(** The errors [RunAnalysis] returns. *)
Inductive error : Type :=
  | ErrLoadManifest (cause : string)            (* failed to load manifest for analysis *)
  | ErrCollectionDirNotFound (serverDir : string)
      (* collection directory serverDir not found. Run 'collect' first *)
  | ErrStatCollectionDir (serverDir cause : string)
      (* failed to stat collection directory serverDir *)
  | ErrCreateDiffDir (diffDir cause : string).  (* failed to create diff output directory *)

Inductive StatResult : Type :=
  | StatOk
  | StatNotExist
  | StatError (cause : string).

(** What the machine answers to the calls [RunAnalysis] makes itself. *)
Record Machine : Type := mkMachine {
  loadManifest : string → Manifest + string;   (* config.LoadManifest(outputDir) *)
  statDir : string → StatResult;               (* os.Stat(serverDir) *)
  mkdirDiffDir : string → option string;       (* os.MkdirAll(diffDir, 0755) *)
  local : Local
}.

(** What [RunAnalysis] returns, with the results its collector loop
    received (in the order received) and the three counters it prints. *)
Record Analysis : Type := mkAnalysis {
  anyDiffFound : bool;
  analysisError : option error;
  received : list fileComparisonResult;
  totalCompared : nat;
  totalDifferent : nat;
  totalIdentical : nat
}.

Definition failed (e : error) : Analysis := mkAnalysis false (Some e) [] 0 0 0.

(** [for _, server := range cfg.Servers]: the collection directories. *)
Fixpoint checkCollectionDirs (mach : Machine) (outputDir : string) (servers : list string)
    : option error :=
  match servers with
  | [] => None
  | server :: rest =>
      let serverDir := filepath.Join [outputDir; CollectedFilesBaseDir; "files-" +:+ server] in
      match statDir mach serverDir with
      | StatNotExist => Some (ErrCollectionDirNotFound serverDir)
      | StatError cause => Some (ErrStatCollectionDir serverDir cause)
      | StatOk => checkCollectionDirs mach outputDir rest
      end
  end.

(** Body of [for result := range resultChan]. *)
Definition tally (acc : Analysis) (result : fileComparisonResult) : Analysis :=
  if IsDiff result then
    mkAnalysis true (analysisError acc) (received acc ++ [result])
               (S (totalCompared acc)) (S (totalDifferent acc)) (totalIdentical acc)
  else
    mkAnalysis (anyDiffFound acc) (analysisError acc) (received acc ++ [result])
               (S (totalCompared acc)) (totalDifferent acc) (S (totalIdentical acc)).

(** [RunAnalysis]. One worker per file takes a unit of a semaphore of
    weight [maxConcurrency] with [context.Background()], runs
    [compareSingleFile] and sends its result. Such an [Acquire] never
    returns an error: it blocks until a unit is free, and for ever when the
    weight is below 1; then no worker finishes and neither does
    [RunAnalysis] ([None]). *)
Definition RunAnalysis (mach : Machine) (sched : list nat) (cfg : Config)
    (outputDir diffDir : string) (saveDiffs : bool) (maxConcurrency : Z)
    : option Analysis :=
  match loadManifest mach outputDir with
  | inr cause => Some (failed (ErrLoadManifest cause))
  | inl manifest =>
      match checkCollectionDirs mach outputDir (Servers cfg) with
      | Some e => Some (failed e)
      | None =>
          let filesToCompare := getFilesToCompare (Servers cfg) manifest in
          if Nat.eqb (length filesToCompare) 0 then Some (mkAnalysis false None [] 0 0 0)
          else
            match (if saveDiffs then mkdirDiffDir mach diffDir else None) with
            | Some cause => Some (failed (ErrCreateDiffDir diffDir cause))
            | None =>
                if (maxConcurrency <? 1)%Z then None
                else
                  let results :=
                    map (fun fp => fst (compareSingleFile (local mach) fp (Servers cfg)
                                          manifest outputDir saveDiffs diffDir))
                        (goroutines.scheduled sched filesToCompare) in
                  Some (fold_left tally results (mkAnalysis false None [] 0 0 0))
            end
      end
  end.

End ranging.

End analyze.

(** ** The local file system (package [os]) and the tar stream
    (packages [compress/gzip], [archive/tar]) as [util] uses them *)

Module osfs.

Inductive node : Type :=
  | File (content : string)
  | Directory.

#[global] Instance node_eq_dec : EqDecision node.
Proof. solve_decision. Defined.

(** The error numbers the calls below report. *)
Inductive errno : Type :=
  | ENOTDIR (path : string)
  | EACCES (path : string)
  | EISDIR (path : string).

#[global] Instance errno_eq_dec : EqDecision errno.
Proof. solve_decision. Defined.

(** A file system: the node at each (cleaned) path; the paths at which the
    system refuses to create a directory or to open a file for writing;
    and, for some paths, the number of bytes it accepts before a write to
    the file at that path fails. *)
Record FS : Type := mkFS {
  nodes : gmap string node;
  refused : gset string;
  quota : gmap string nat
}.

Definition setNode (fs : FS) (path : string) (n : node) : FS :=
  mkFS (<[path := n]> (nodes fs)) (refused fs) (quota fs).

(** The elements of a path that name something. *)
Definition elements (path : string) : list string :=
  filter (λ e, e ≠ "") (filepath.split path).

Definition render (rooted : bool) (elems : list string) : string :=
  (if rooted then "/" else "") +:+ strings.Join elems "/".

(** The path itself, then its parent, then the parent of that, up to the
    first element; the root and the empty path have none. This is the
    order in which [os.MkdirAll] looks at them. *)
Definition ancestry (path : string) : list string :=
  let elems := elements path in
  rev (map (λ k, render (filepath.isRooted path) (take (S k) elems))
           (seq 0 (length elems))).

(** [os.Mkdir(path, perm)] where the parent exists. *)
Definition Mkdir (fs : FS) (path : string) : FS * option errno :=
  if decide (path ∈ refused fs) then (fs, Some (EACCES path))
  else (setNode fs path Directory, None).

(** [os.MkdirAll]: nothing to do when the path is a directory, an error
    when it is a file, and otherwise the parent first and then the path. *)
Fixpoint mkdirAll (fs : FS) (chain : list string) : FS * option errno :=
  match chain with
  | [] => (fs, None)
  | path :: parents =>
      match nodes fs !! path with
      | Some Directory => (fs, None)
      | Some (File _) => (fs, Some (ENOTDIR path))
      | None =>
          match mkdirAll fs parents with
          | (fs', Some e) => (fs', Some e)
          | (fs', None) => Mkdir fs' path
          end
      end
  end.

Definition MkdirAll (fs : FS) (path : string) : FS * option errno :=
  mkdirAll fs (ancestry (filepath.Clean path)).

(** [os.OpenFile(name, O_CREATE|O_RDWR|O_TRUNC, perm)] in a directory
    that exists: the file is created or emptied. *)
Definition OpenFile (fs : FS) (name : string) : FS * option errno :=
  if decide (name ∈ refused fs) then (fs, Some (EACCES name))
  else
    match nodes fs !! name with
    | Some Directory => (fs, Some (EISDIR name))
    | _ => (setNode fs name (File ""), None)
    end.

(** [os.Remove(name)] of a file; its result is ignored by the callers. *)
Definition Remove (fs : FS) (name : string) : FS :=
  mkFS (delete name (nodes fs)) (refused fs) (quota fs).

End osfs.

Module tar.

Inductive EntryType : Type :=
  | TypeReg
  | TypeDir
  | TypeSymlink
  | TypeLink
  | TypeOther (flag : ascii).

(** [tar.Header], the fields [util] reads. *)
Record Header : Type := mkHeader {
  Name : string;
  Typeflag : EntryType;
  Linkname : string
}.

(** One member of the archive: its header, the bytes of its body that
    can be read, and the error that reading the body runs into after them
    (a truncated or damaged stream), if any. *)
Record Entry : Type := mkEntry {
  header : Header;
  data : string;
  readError : option string
}.

(** A gzip stream holding a tar archive: whether [gzip.NewReader] accepts
    it, its members, and what [Next] returns after the last one: [io.EOF]
    ([None]) or an error. After a member whose body cannot be read to its
    end, [Next] returns that read error whatever follows: the reader keeps
    the error, and skipping the unread rest runs into it. *)
Record Archive : Type := mkArchive {
  gzipError : option string;
  entries : list Entry;
  ending : option string
}.

(** [io.Copy(outFile, tarReader)] into the open, empty file at [target]:
    the bytes written, and the error returned. A write fails once the
    file system's quota for the path is used up; otherwise the bytes of the
    body are written up to the read error. *)
Definition Copy (fs : osfs.FS) (target : string) (e : Entry) : osfs.FS * option string :=
  match osfs.quota fs !! target with
  | Some n =>
      if Nat.ltb n (String.length (data e))
      then (osfs.setNode fs target (osfs.File (substring 0 n (data e))), Some "short write")
      else (osfs.setNode fs target (osfs.File (data e)), readError e)
  | None => (osfs.setNode fs target (osfs.File (data e)), readError e)
  end.

End tar.

(** ** Package [util] *)

(** The errors [ExtractTarGz] returns, by the text it wraps the cause in. *)
Inductive extractError : Type :=
  | ErrGzipReader (cause : string)       (* failed to create gzip reader *)
  | ErrTarHeader (cause : string)        (* failed to read tar header *)
  | ErrInvalidPath (name : string)       (* invalid file path in tar: name *)
  | ErrEscape (name dest : string)
      (* invalid file path in tar: name attempts to escape destination dest *)
  | ErrCreateDest (dest : string) (cause : osfs.errno)
      (* failed to create destination directory dest *)
  | ErrCreateDir (target : string) (cause : osfs.errno)
      (* failed to create directory target *)
  | ErrCreateParent (target : string) (cause : osfs.errno)
      (* failed to create parent directory for file target *)
  | ErrCreateFile (target : string) (cause : osfs.errno)
      (* failed to create file target *)
  | ErrCopy (target : string) (cause : string).
      (* failed to copy data to file target *)

#[global] Instance extractError_eq_dec : EqDecision extractError.
Proof. solve_decision. Defined.

(** [ExtractTarGz] as in the source file part_002 of package [util]. *)
Module util.
Import osfs tar.

(** Body of the loop of [ExtractTarGz] after [tarReader.Next()] returned
    the header of [e]. In the [tar.TypeReg] case the error of [io.Copy] is
    assigned to the [err] that the [if] statement itself declares, so the
    outer [err] stays nil: the result of the copy does not reach the
    [return]. *)
Definition extractEntry (fs : FS) (dest : string) (e : Entry) : FS * option extractError :=
  let target := filepath.Join [dest; Name (header e)] in
  if negb (strings.HasPrefix target (filepath.Clean dest +:+ "/")) then
    (fs, Some (ErrInvalidPath (Name (header e))))
  else
    match Typeflag (header e) with
    | TypeDir =>
        match MkdirAll fs target with
        | (fs', Some cause) => (fs', Some (ErrCreateDir target cause))
        | (fs', None) => (fs', None)
        end
    | TypeReg =>
        match MkdirAll fs (filepath.Dir target) with
        | (fs', Some cause) => (fs', Some (ErrCreateParent target cause))
        | (fs', None) =>
            match OpenFile fs' target with
            | (fs'', Some cause) => (fs'', Some (ErrCreateFile target cause))
            | (fs'', None) => ((Copy fs'' target e).1, None)
            end
        end
    | TypeSymlink | TypeLink | TypeOther _ => (fs, None)
    end.

(** [for { header, err := tarReader.Next() ... }] *)
Fixpoint extractLoop (fs : FS) (dest : string) (members : list Entry) (ending : option string)
    : FS * option extractError :=
  match members with
  | [] =>
      match ending with
      | None => (fs, None)
      | Some cause => (fs, Some (ErrTarHeader cause))
      end
  | e :: rest =>
      match extractEntry fs dest e with
      | (fs', Some err) => (fs', Some err)
      | (fs', None) =>
          match readError e with
          | Some cause => (fs', Some (ErrTarHeader cause))
          | None => extractLoop fs' dest rest ending
          end
      end
  end.

(** [func ExtractTarGz(gzipStream io.Reader, dest string) error] *)
Definition ExtractTarGz (fs : FS) (gzipStream : Archive) (dest : string)
    : FS * option extractError :=
  match gzipError gzipStream with
  | Some cause => (fs, Some (ErrGzipReader cause))
  | None => extractLoop fs dest (entries gzipStream) (ending gzipStream)
  end.

End util.

(** [ExtractTarGz] as in the copy of package [util] kept in the file of
    go.mod, the one whose comments mark its changes as fixes: the
    destination is created first, the root entry is skipped, the target may
    be the destination itself, and a failed copy removes the file. *)
Module util_fixed.
Import osfs tar.

Definition extractEntry (fs : FS) (dest cleanDest : string) (e : Entry)
    : FS * option extractError :=
  if String.eqb (Name (header e)) "." || String.eqb (Name (header e)) "./" then (fs, None)
  else
    let target := filepath.Join [cleanDest; Name (header e)] in
    if negb (strings.HasPrefix target (cleanDest +:+ "/")) && negb (String.eqb target cleanDest)
    then (fs, Some (ErrEscape (Name (header e)) dest))
    else
      match Typeflag (header e) with
      | TypeDir =>
          match MkdirAll fs target with
          | (fs', Some cause) => (fs', Some (ErrCreateDir target cause))
          | (fs', None) => (fs', None)
          end
      | TypeReg =>
          match MkdirAll fs (filepath.Dir target) with
          | (fs', Some cause) => (fs', Some (ErrCreateParent target cause))
          | (fs', None) =>
              match OpenFile fs' target with
              | (fs'', Some cause) => (fs'', Some (ErrCreateFile target cause))
              | (fs'', None) =>
                  match Copy fs'' target e with
                  | (fs3, Some copyErr) => (Remove fs3 target, Some (ErrCopy target copyErr))
                  | (fs3, None) => (fs3, None)
                  end
              end
          end
      | TypeSymlink | TypeLink | TypeOther _ => (fs, None)
      end.

Fixpoint extractLoop (fs : FS) (dest cleanDest : string) (members : list Entry)
    (ending : option string) : FS * option extractError :=
  match members with
  | [] =>
      match ending with
      | None => (fs, None)
      | Some cause => (fs, Some (ErrTarHeader cause))
      end
  | e :: rest =>
      match extractEntry fs dest cleanDest e with
      | (fs', Some err) => (fs', Some err)
      | (fs', None) =>
          match readError e with
          | Some cause => (fs', Some (ErrTarHeader cause))
          | None => extractLoop fs' dest cleanDest rest ending
          end
      end
  end.

Definition ExtractTarGz (fs : FS) (gzipStream : Archive) (dest : string)
    : FS * option extractError :=
  match gzipError gzipStream with
  | Some cause => (fs, Some (ErrGzipReader cause))
  | None =>
      match MkdirAll fs dest with
      | (fs', Some cause) => (fs', Some (ErrCreateDest dest cause))
      | (fs', None) =>
          extractLoop fs' dest (filepath.Clean dest) (entries gzipStream) (ending gzipStream)
      end
  end.

End util_fixed.

(** ** Package [sshutil] : connecting *)

Module sshutil.

(** [type Client struct]; the two library clients it wraps are opaque. *)
Record Client : Type := mkClient { Hostname : string }.

(** The errors [Connect] returns, by the text it wraps the cause in. *)
Inductive error : Type :=
  | ErrReadKey (keyPath cause : string)               (* failed to read private key *)
  | ErrKeyRequiresPassphrase (keyPath cause : string) (* requires a passphrase (check SSHKEYPIN) *)
  | ErrParseEncryptedKey (keyPath cause : string)     (* failed to parse encrypted private key *)
  | ErrPassphraseNotProvided (keyPath cause : string) (* seems to require a passphrase *)
  | ErrParseKey (keyPath cause : string)              (* failed to parse private key *)
  | ErrDial (hostname cause : string)                 (* failed to dial *)
  | ErrHandshake (hostname cause : string)            (* failed to establish SSH connection *)
  | ErrAfterAttempts (hostname : string) (attempts : nat) (connErr : error)
      (* failed to connect to hostname after n attempts *)
  | ErrSFTP (cause : string).                         (* failed to create SFTP client *)

(** What parsing the private key gives: a signer, or an error, which is
    or is not an [ssh.PassphraseMissingError]. *)
Inductive ParseResult : Type :=
  | Signer
  | ParseError (passphraseMissing : bool) (cause : string).

(** What the machine and the network answer to the calls of [Connect]. *)
Record Network : Type := mkNetwork {
  readFile : string → string + string;                            (* os.ReadFile(keyPath) *)
  parsePrivateKeyWithPassphrase : string → string → ParseResult;  (* ssh.ParsePrivateKeyWithPassphrase *)
  parsePrivateKey : string → ParseResult;                         (* ssh.ParsePrivateKey *)
  dialTimeout : nat → option string;      (* net.DialTimeout at the n-th attempt *)
  newClientConn : nat → option string;    (* ssh.NewClientConn at the n-th attempt *)
  newSFTPClient : option string           (* sftp.NewClient *)
}.

(** The calls of [Connect] that reach the network or the clock. *)
Inductive event : Type :=
  | DialTCP (attempt : nat)
  | Handshake (attempt : nat)
  | CloseTCP (attempt : nat)
  | Sleep (duration : Z)
  | OpenSFTP
  | CloseSSH.

#[global] Instance event_eq_dec : EqDecision event.
Proof. solve_decision. Defined.

(** [time.Second]: a [time.Duration] counts nanoseconds. *)
Definition Second : Z := 1000000000.

Definition maxRetries : nat := 3.
Definition retryDelay : Z := 2 * Second.

(** How the retry loop is left: by [break] with a connection, by
    [return nil, connErr], or because [attempt <= maxRetries] is false. *)
Inductive loopExit : Type :=
  | Connected
  | Returned (connErr : error)
  | Exhausted (connErr : option error).

(** [for attempt := 1; attempt <= maxRetries; attempt++]; [left] is the
    number of values of [attempt] still to come. *)
Fixpoint connectLoop (net : Network) (hostname : string) (left attempt : nat)
    (connErr : option error) (trace : list event) : loopExit * list event :=
  match left with
  | 0 => (Exhausted connErr, trace)
  | S left' =>
      let trace := trace ++ [DialTCP attempt] in
      match dialTimeout net attempt with
      | Some cause =>
          let connErr := ErrDial hostname cause in
          if Nat.ltb attempt maxRetries
          then connectLoop net hostname left' (S attempt) (Some connErr)
                 (trace ++ [Sleep retryDelay])
          else (Returned connErr, trace)
      | None =>
          let trace := trace ++ [Handshake attempt] in
          match newClientConn net attempt with
          | Some cause =>
              let connErr := ErrHandshake hostname cause in
              let trace := trace ++ [CloseTCP attempt] in
              if Nat.ltb attempt maxRetries
              then connectLoop net hostname left' (S attempt) (Some connErr)
                     (trace ++ [Sleep retryDelay])
              else (Returned connErr, trace)
          | None => (Connected, trace)
          end
      end
  end.

(** The key material: read the file, then parse it with or without the
    passphrase. *)
Definition loadSigner (net : Network) (keyPath keyPassphrase : string) : option error :=
  match readFile net keyPath with
  | inr cause => Some (ErrReadKey keyPath cause)
  | inl key =>
      if negb (String.eqb keyPassphrase "") then
        match parsePrivateKeyWithPassphrase net key keyPassphrase with
        | ParseError true cause => Some (ErrKeyRequiresPassphrase keyPath cause)
        | ParseError false cause => Some (ErrParseEncryptedKey keyPath cause)
        | Signer => None
        end
      else
        match parsePrivateKey net key with
        | ParseError true cause => Some (ErrPassphraseNotProvided keyPath cause)
        | ParseError false cause => Some (ErrParseKey keyPath cause)
        | Signer => None
        end
  end.

(** [func Connect(hostname, username, keyPath, keyPassphrase string)]: the
    client or the error, and the calls made. *)
Definition Connect (net : Network) (hostname username keyPath keyPassphrase : string)
    : (Client + error) * list event :=
  match loadSigner net keyPath keyPassphrase with
  | Some e => (inr e, [])
  | None =>
      match connectLoop net hostname maxRetries 1 None [] with
      | (Returned connErr, trace) => (inr connErr, trace)
      | (Exhausted (Some connErr), trace) =>
          (inr (ErrAfterAttempts hostname maxRetries connErr), trace)
      | (Connected, trace) | (Exhausted None, trace) =>
          match newSFTPClient net with
          | Some cause => (inr (ErrSFTP cause), trace ++ [OpenSFTP; CloseSSH])
          | None => (inl (mkClient hostname), trace ++ [OpenSFTP])
          end
      end
  end.

End sshutil.

(** ** Package [collect] *)

Module collect.
Import config.

Definition remoteTarFilename : string := "remote_backup.tar.gz".

(** The errors [collectFromServer] returns, by the text it wraps the cause in. *)
Inductive error : Type :=
  | ErrConnect (cause : sshutil.error)          (* failed to connect *)
  | ErrCreateTemp (cause : string)              (* failed to create temporary script file *)
  | ErrWriteTemp (cause : string)               (* failed to write to temporary script file *)
  | ErrUpload (remoteScript cause : string)     (* failed to upload script to remoteScript *)
  | ErrScript (cause : string)                  (* collection script execution failed *)
  | ErrDownload (remoteTarPath cause : string)  (* failed to download tarball *)
  | ErrCreateOutputDir (serverOutputDir cause : string)
      (* failed to create server output directory *)
  | ErrOpenTarball (localTarPath cause : string)   (* failed to open local tarball *)
  | ErrExtract (localTarPath : string) (cause : extractError).
      (* failed to extract tarball *)

(** One call of the function that [filepath.WalkDir] is given: the path
    visited, relative to the root of the walk (what [filepath.Rel] returns
    for it), whether it is a directory, the error of reaching it, and what
    [util.CalculateSHA256] gives for it: the digest or the error text. *)
Record Visit : Type := mkVisit {
  relPath : string;
  isDir : bool;
  accessError : option string;
  sha256 : string + string
}.

(** What one host and the local machine answer during
    [collectFromServer], step by step. *)
Record Host : Type := mkHost {
  network : sshutil.Network;
  createTemp : string + string;          (* os.CreateTemp: the name of the file *)
  writeString : option string;           (* localScript.WriteString *)
  timestamp : string;                    (* time.Now().UnixNano(), in decimal *)
  uploadFile : option string;            (* sshClient.UploadFile *)
  chmodScript : option string;           (* RunCommand("chmod +x ...") *)
  runScript : option string;             (* RunCommand(remoteScript) *)
  downloadFile : option string;          (* sshClient.DownloadFile *)
  cleanupRemote : option string;         (* cleanupRemoteFiles *)
  tempDir : string;                      (* os.TempDir() *)
  mkdirOutput : option string;           (* os.MkdirAll(serverOutputDir, 0755) *)
  openTarball : option string;           (* os.Open(localTarPath) *)
  extractTarGz : string → option extractError;  (* util.ExtractTarGz(tarFile, dest) *)
  walked : list Visit                    (* the visits of filepath.WalkDir(serverOutputDir, ...) *)
}.

(** The function given to [filepath.WalkDir] in step 7. *)
Definition walkFn (server : string) (manifest : Manifest) (v : Visit)
    : Manifest * option string :=
  match accessError v with
  | Some err => (manifest, Some err)
  | None =>
      if isDir v then (manifest, None)
      else
        let relativePath := filepath.ToSlash (relPath v) in
        if strings.HasSuffix relativePath ".MISSING" ||
           strings.HasSuffix relativePath "DIRECTORY.MISSING"
        then
          let originalPath :=
            strings.TrimSuffix (strings.TrimSuffix relativePath ".MISSING")
                               "DIRECTORY.MISSING" in
          (AddFile manifest server originalPath "" "Missing on remote", None)
        else
          match sha256 v with
          | inr csErr => (AddFile manifest server relativePath "" csErr, None)
          | inl checksum => (AddFile manifest server relativePath checksum "", None)
          end
  end.

(** [filepath.WalkDir]: the visits in order, up to the first error the
    function returns. *)
Fixpoint WalkDir (server : string) (manifest : Manifest) (visits : list Visit)
    : Manifest * option string :=
  match visits with
  | [] => (manifest, None)
  | v :: rest =>
      match walkFn server manifest v with
      | (manifest', Some err) => (manifest', Some err)
      | (manifest', None) => WalkDir server manifest' rest
      end
  end.

(** [collectFromServer]. The check of sudo access, the failure of
    [chmod], the remote clean-up (after a failed script or download, and at
    the end) and the error of the walk are logged and change nothing in
    what is returned. *)
Definition collectFromServer (h : Host) (server : string) (cfg : Config) (outputDir : string)
    (manifest : Manifest) : Manifest * option error :=
  let creds := SSHConfig cfg in
  match (sshutil.Connect (network h) server (Username creds) (KeyPath creds)
           (KeyPassphrase creds)).1 with
  | inr cause => (manifest, Some (ErrConnect cause))
  | inl sshClient =>
  match createTemp h with
  | inr cause => (manifest, Some (ErrCreateTemp cause))
  | inl localScriptPath =>
  match writeString h with
  | Some cause => (manifest, Some (ErrWriteTemp cause))
  | None =>
  let remoteHomeDir := "/home/" +:+ Username creds in
  let remoteScript := "/tmp/collect_files_" +:+ timestamp h +:+ ".sh" in
  match uploadFile h with
  | Some cause => (manifest, Some (ErrUpload remoteScript cause))
  | None =>
  match runScript h with
  | Some cause => (manifest, Some (ErrScript cause))
  | None =>
  let remoteTarPath := remoteHomeDir +:+ "/" +:+ remoteTarFilename in
  let localTarPath :=
    filepath.Join [tempDir h;
                   "remote_backup_" +:+ server +:+ "_" +:+ timestamp h +:+ ".tar.gz"] in
  match downloadFile h with
  | Some cause => (manifest, Some (ErrDownload remoteTarPath cause))
  | None =>
  let serverOutputDir :=
    filepath.Join [outputDir; CollectedFilesBaseDir; "files-" +:+ server] in
  match mkdirOutput h with
  | Some cause => (manifest, Some (ErrCreateOutputDir serverOutputDir cause))
  | None =>
  match openTarball h with
  | Some cause => (manifest, Some (ErrOpenTarball localTarPath cause))
  | None =>
  match extractTarGz h serverOutputDir with
  | Some cause => (manifest, Some (ErrExtract localTarPath cause))
  | None => ((WalkDir server manifest (walked h)).1, None)
  end end end end end end end end end.

(** What [RunCollection] returns, with the manifest that [Save] wrote (if
    it wrote one) and the errors it read from [errChan], each with the
    server it is about. *)
Record Collection : Type := mkCollection {
  success : bool;
  saved : option Manifest;
  errors : list (string * error)
}.

(** One goroutine of [RunCollection] once it holds the semaphore: task
    number [task.1] for the server [task.2]. *)
Definition runTask (hosts : nat → Host) (cfg : Config) (outputDir : string)
    (acc : Manifest * list (string * error)) (task : nat * string)
    : Manifest * list (string * error) :=
  match collectFromServer (hosts task.1) task.2 cfg outputDir acc.1 with
  | (manifest, Some err) => (manifest, acc.2 ++ [(task.2, err)])
  | (manifest, None) => (manifest, acc.2)
  end.

(** [RunCollection]. One goroutine per server takes a unit of a semaphore
    of weight [maxConcurrency] with [context.Background()] and runs
    [collectFromServer] on the shared manifest; with a weight below 1 the
    goroutines block for ever and so does [wg.Wait()] ([None]). The
    goroutines are taken to run one after the other in the order in which
    they finish; [hosts i] is what the [i]-th server of the list answers,
    [saveManifest] the error of [manifest.Save]. *)
Definition RunCollection (hosts : nat → Host) (saveManifest : Manifest → option string)
    (sched : list nat) (cfg : Config) (outputDir : string) (maxConcurrency : Z)
    : option Collection :=
  if (maxConcurrency <? 1)%Z && negb (Nat.eqb (length (Servers cfg)) 0) then None
  else
    let tasks := imap (λ i server, (i, server)) (Servers cfg) in
    let '(manifest, errs) :=
      fold_left (runTask hosts cfg outputDir) (goroutines.scheduled sched tasks)
                (NewManifest, []) in
    if Nat.eqb (length errs) 0 then
      match saveManifest manifest with
      | Some _ => Some (mkCollection false None errs)
      | None => Some (mkCollection true (Some manifest) errs)
      end
    else Some (mkCollection false None errs).

End collect.

(** ** Package [collect] : the calls of one collection *)

Module collectCalls.
Import config collect.

(** The command of [cleanupRemoteFiles(sshClient, remoteScriptPath,
    remoteHomeDir)]. *)
Definition cleanupCommand (remoteScriptPath remoteHomeDir : string) : string :=
  "rm -f " +:+ remoteScriptPath +:+ " && sudo rm -rf " +:+ remoteHomeDir +:+ "/remote_backup"
    +:+ " && rm -f " +:+ remoteHomeDir +:+ "/" +:+ remoteTarFilename.

(** The calls [collectFromServer] makes on the SSH client and on the
    local file system. *)
Inductive call : Type :=
  | CallConnect (hostname : string)                    (* sshutil.Connect *)
  | CallRunCommand (command : string) (sudo : bool)    (* sshClient.RunCommand *)
  | CallCreateTemp                                     (* os.CreateTemp *)
  | CallWriteString (path : string)                    (* localScript.WriteString *)
  | CallCloseFile (path : string)                      (* localScript.Close, tarFile.Close *)
  | CallUploadFile (localPath remotePath : string)     (* sshClient.UploadFile *)
  | CallDownloadFile (remotePath localPath : string)   (* sshClient.DownloadFile *)
  | CallRemoveAll (path : string)                      (* os.RemoveAll *)
  | CallMkdirAll (path : string)                       (* os.MkdirAll *)
  | CallOpen (path : string)                           (* os.Open *)
  | CallExtractTarGz (dest : string)                   (* util.ExtractTarGz *)
  | CallWalkDir (root : string)                        (* filepath.WalkDir *)
  | CallRemove (path : string)                         (* os.Remove *)
  | CallClose (hostname : string).                     (* sshClient.Close *)

#[global] Instance call_eq_dec : EqDecision call.
Proof. solve_decision. Defined.

(** [collectFromServer] again, with the calls it makes in the order it
    makes them and without the manifest. A deferred call runs when the
    function returns, the last deferred first. [CheckSudoAccess] is
    [RunCommand("-n true", true)]; [cleanupRemoteFiles] is one
    [RunCommand]. *)
Definition collectFromServer (h : Host) (server : string) (cfg : Config) (outputDir : string)
    : option error * list call :=
  let creds := SSHConfig cfg in
  match (sshutil.Connect (network h) server (Username creds) (KeyPath creds)
           (KeyPassphrase creds)).1 with
  | inr cause => (Some (ErrConnect cause), [CallConnect server])
  | inl sshClient =>
  let deferred := [CallClose (sshutil.Hostname sshClient)] in
  let calls := [CallConnect server; CallRunCommand "-n true" true; CallCreateTemp] in
  match createTemp h with
  | inr cause => (Some (ErrCreateTemp cause), calls ++ deferred)
  | inl localScriptPath =>
  let deferred := CallRemove localScriptPath :: deferred in
  let calls := calls ++ [CallWriteString localScriptPath; CallCloseFile localScriptPath] in
  match writeString h with
  | Some cause => (Some (ErrWriteTemp cause), calls ++ deferred)
  | None =>
  let remoteHomeDir := "/home/" +:+ Username creds in
  let remoteScript := "/tmp/collect_files_" +:+ timestamp h +:+ ".sh" in
  let cleanup := CallRunCommand (cleanupCommand remoteScript remoteHomeDir) false in
  let calls := calls ++ [CallUploadFile localScriptPath remoteScript] in
  match uploadFile h with
  | Some cause => (Some (ErrUpload remoteScript cause), calls ++ deferred)
  | None =>
  let calls := calls ++ [CallRunCommand ("chmod +x " +:+ remoteScript) false;
                         CallRunCommand remoteScript false] in
  match runScript h with
  | Some cause => (Some (ErrScript cause), calls ++ [cleanup] ++ deferred)
  | None =>
  let remoteTarPath := remoteHomeDir +:+ "/" +:+ remoteTarFilename in
  let localTarPath :=
    filepath.Join [tempDir h;
                   "remote_backup_" +:+ server +:+ "_" +:+ timestamp h +:+ ".tar.gz"] in
  let calls := calls ++ [CallDownloadFile remoteTarPath localTarPath] in
  let deferred := CallRemove localTarPath :: deferred in
  match downloadFile h with
  | Some cause => (Some (ErrDownload remoteTarPath cause), calls ++ [cleanup] ++ deferred)
  | None =>
  let serverOutputDir :=
    filepath.Join [outputDir; CollectedFilesBaseDir; "files-" +:+ server] in
  let calls := calls ++ [CallRemoveAll serverOutputDir; CallMkdirAll serverOutputDir] in
  match mkdirOutput h with
  | Some cause => (Some (ErrCreateOutputDir serverOutputDir cause), calls ++ deferred)
  | None =>
  let calls := calls ++ [CallOpen localTarPath] in
  match openTarball h with
  | Some cause => (Some (ErrOpenTarball localTarPath cause), calls ++ deferred)
  | None =>
  let calls := calls ++ [CallExtractTarGz serverOutputDir; CallCloseFile localTarPath] in
  match extractTarGz h serverOutputDir with
  | Some cause => (Some (ErrExtract localTarPath cause), calls ++ deferred)
  | None => (None, calls ++ [CallWalkDir serverOutputDir; cleanup] ++ deferred)
  end end end end end end end end end.

End collectCalls.

(** ** Package [sshutil] : downloading *)

Module sshutilFiles.
Import osfs.

(** A file opened on the SFTP server: the bytes its reads deliver, and
    the error that ends them if it is not the end of the file. *)
Record RemoteFile : Type := mkRemoteFile {
  delivered : string;
  readError : option string
}.

(** The errors [DownloadFile] returns, by the text it wraps the cause in. *)
Inductive error : Type :=
  | ErrOpenRemote (hostname remotePath cause : string)  (* failed to open remote file *)
  | ErrCreateLocalDir (localDir : string) (cause : errno)
      (* failed to create local directory *)
  | ErrCreateLocalFile (localPath : string) (cause : errno)
      (* failed to create local file *)
  | ErrCopyRemote (hostname remotePath cause : string).
      (* failed to copy data from remote file *)

(** [io.Copy(localFile, remoteFile)] into the open, empty file at
    [localPath]: a write fails once the file system's quota for the path is
    used up; otherwise the bytes delivered are written up to the read
    error. *)
Definition Copy (fs : FS) (localPath : string) (remoteFile : RemoteFile)
    : FS * option string :=
  match quota fs !! localPath with
  | Some n =>
      if Nat.ltb n (String.length (delivered remoteFile))
      then (setNode fs localPath (File (substring 0 n (delivered remoteFile))),
            Some "short write")
      else (setNode fs localPath (File (delivered remoteFile)), readError remoteFile)
  | None => (setNode fs localPath (File (delivered remoteFile)), readError remoteFile)
  end.

(** [func (c *Client) DownloadFile(remotePath, localPath string) error];
    [sftpOpen] is what [c.sftpClient.Open] answers. [os.Create] is
    [os.OpenFile] with [O_RDWR|O_CREATE|O_TRUNC]. *)
Definition DownloadFile (c : sshutil.Client) (sftpOpen : string → RemoteFile + string)
    (fs : FS) (remotePath localPath : string) : FS * option error :=
  match sftpOpen remotePath with
  | inr cause => (fs, Some (ErrOpenRemote (sshutil.Hostname c) remotePath cause))
  | inl remoteFile =>
      let localDir := filepath.Dir localPath in
      match MkdirAll fs localDir with
      | (fs1, Some cause) => (fs1, Some (ErrCreateLocalDir localDir cause))
      | (fs1, None) =>
          match OpenFile fs1 localPath with
          | (fs2, Some cause) => (fs2, Some (ErrCreateLocalFile localPath cause))
          | (fs2, None) =>
              match Copy fs2 localPath remoteFile with
              | (fs3, Some cause) =>
                  (Remove fs3 localPath,
                   Some (ErrCopyRemote (sshutil.Hostname c) remotePath cause))
              | (fs3, None) => (fs3, None)
              end
          end
      end
  end.

End sshutilFiles.

(** ** Package [config] : loading the configuration *)

Module configLoad.
Import config.

Definition ConfigDir : string := "conf".
Definition ConfigFileName : string := "config.json".

(** [getConfigPath] and [getManifestPath] *)
Definition getConfigPath (outputDir : string) : string :=
  filepath.Join [outputDir; ConfigDir; ConfigFileName].

Definition getManifestPath (outputDir : string) : string :=
  filepath.Join [outputDir; CollectedFilesBaseDir; ManifestFileName].

(** [strings.Split(s, sep)] for a one-byte [sep]. *)
Fixpoint Split (s : string) (sep : ascii) : list string :=
  match s with
  | EmptyString => [EmptyString]
  | String c rest =>
      if Ascii.eqb c sep then EmptyString :: Split rest sep
      else match Split rest sep with
           | [] => [String c EmptyString]
           | e :: es => String c e :: es
           end
  end.

(** [strings.TrimRight(s, cutset)] for a one-byte [cutset]. *)
Fixpoint TrimRight (s : string) (cutset : ascii) : string :=
  match s with
  | EmptyString => EmptyString
  | String c rest =>
      match TrimRight rest cutset with
      | EmptyString => if Ascii.eqb c cutset then EmptyString else String c EmptyString
      | String _ _ as r => String c r
      end
  end.

(** The errors of [GetSSHCredentialsFromEnv] and [LoadOrInitializeConfig]. *)
Inductive error : Type :=
  | ErrMissingEnv (names : string)        (* missing required environment variables: names *)
  | ErrHomeDir (cause : string)           (* failed to get user home directory ... *)
  | ErrKeyNotFound (keyPath : string)     (* ssh key file not found at keyPath *)
  | ErrReadConfig (configPath cause : string)  (* failed to read existing config file *)
  | ErrStatConfig (configPath cause : string)  (* failed to stat config file *)
  | ErrNoServers (configPath : string)         (* no servers specified *)
  | ErrNoFilesOrDirs (configPath : string)     (* no files or directories specified *)
  | ErrCreateConfigDir (configDir cause : string)  (* failed to create config directory *)
  | ErrWriteConfig (configPath cause : string).    (* failed to write config file *)

(** What [os.Stat] gives: nil, an error for which [os.IsNotExist] holds,
    or another error. *)
Inductive Stat : Type :=
  | StatOk
  | StatNotExist
  | StatError (cause : string).

(** The fields of [Config] that are read from and written to
    [config.json]; [SSHConfig] is tagged [json:"-"]. *)
Record Stored : Type := mkStored {
  storedServers : list string;
  storedFiles : list string;
  storedDirs : list string
}.

(** The environment and the local machine as the two functions see them. *)
Record Machine : Type := mkMachine {
  getenv : string → string;              (* os.Getenv *)
  userHomeDir : string + string;         (* os.UserHomeDir *)
  stat : string → Stat;                  (* os.Stat *)
  readFile : string → string + string;   (* os.ReadFile *)
  unmarshal : string → option Stored;    (* json.Unmarshal(data, cfg): nil or an error *)
  mkdirAll : string → option string;     (* os.MkdirAll(configDir, 0755) *)
  writeFile : string → option string     (* os.WriteFile(configPath, data, 0644) *)
}.

(** [func GetSSHCredentialsFromEnv() (SSHCredentials, error)] *)
Definition GetSSHCredentialsFromEnv (env : Machine) : SSHCredentials * option error :=
  let creds :=
    mkSSHCredentials (getenv env "SSHUSER") (getenv env "SSHKEYPATH") (getenv env "SSHKEYPIN") in
  let missing :=
    (if String.eqb (Username creds) "" then ["SSHUSER"] else []) ++
    (if String.eqb (KeyPath creds) "" then ["SSHKEYPATH"] else []) in
  if Nat.ltb 0 (length missing) then
    (creds, Some (ErrMissingEnv (strings.Join missing ", ")))
  else
    let expanded :=
      if strings.HasPrefix (KeyPath creds) "~" then
        match userHomeDir env with
        | inr cause => inr cause
        | inl homeDir =>
            inl (mkSSHCredentials (Username creds)
                   (filepath.Join [homeDir;
                                   substring 1 (String.length (KeyPath creds) - 1)
                                             (KeyPath creds)])
                   (KeyPassphrase creds))
        end
      else inl creds in
    match expanded with
    | inr cause => (creds, Some (ErrHomeDir cause))
    | inl creds =>
        match stat env (KeyPath creds) with
        | StatNotExist => (creds, Some (ErrKeyNotFound (KeyPath creds)))
        | StatOk | StatError _ => (creds, None)
        end
    end.

(** [LoadOrInitializeConfig(outputDir, serversStr, filesStr, dirsStr,
    saveConfig)]: the configuration or the error it returns, and what
    it hands to [os.WriteFile] (the path and the configuration
    marshalled), if it gets that far. Marshalling three lists of strings
    cannot fail. *)
Definition LoadOrInitializeConfig (env : Machine) (outputDir serversStr filesStr dirsStr : string)
    (saveConfig : bool) : (Config + error) * option (string * Stored) :=
  let configPath := getConfigPath outputDir in
  let loaded :=
    match stat env configPath with
    | StatOk =>
        match readFile env configPath with
        | inr cause => inr (ErrReadConfig configPath cause)
        | inl data =>
            match unmarshal env data with
            | None => inl (mkStored [] [] [])
            | Some stored => inl stored
            end
        end
    | StatNotExist => inl (mkStored [] [] [])
    | StatError cause => inr (ErrStatConfig configPath cause)
    end in
  match loaded with
  | inr e => (inr e, None)
  | inl stored =>
      let servers :=
        if negb (String.eqb serversStr "") then Split serversStr ","
        else storedServers stored in
      let files :=
        if negb (String.eqb filesStr "") then Split filesStr "," else storedFiles stored in
      let dirs :=
        if negb (String.eqb dirsStr "") then Split dirsStr "," else storedDirs stored in
      if Nat.eqb (length servers) 0 then (inr (ErrNoServers configPath), None)
      else if Nat.eqb (length files) 0 && Nat.eqb (length dirs) 0
      then (inr (ErrNoFilesOrDirs configPath), None)
      else
        let cleanedDirs := map (λ d, TrimRight d "/") dirs in
        match GetSSHCredentialsFromEnv env with
        | (_, Some e) => (inr e, None)
        | (sshConfig, None) =>
            let cfg := mkConfig servers files cleanedDirs sshConfig in
            if saveConfig then
              let configDir := filepath.Dir configPath in
              match mkdirAll env configDir with
              | Some cause => (inr (ErrCreateConfigDir configDir cause), None)
              | None =>
                  let written := Some (configPath, mkStored servers files cleanedDirs) in
                  match writeFile env configPath with
                  | Some cause => (inr (ErrWriteConfig configPath cause), written)
                  | None => (inl cfg, written)
                  end
              end
            else (inl cfg, None)
        end
  end.

End configLoad.

(** ** Vocabulary of the statements *)

(** The number of valid entries (no error text) stored under [p] in a
    list of manifest entries. *)
Definition hits (p : string) (kvs : list (string * config.FileInfo)) : nat :=
  length (filter (λ e : string * config.FileInfo, e.1 = p ∧ config.Error e.2 = "") kvs).

(** The number of positions of [servers] whose server has a record without
    error for [p]. *)
Definition presentCount (manifest : config.Manifest) (servers : list string) (p : string) : nat :=
  length (filter (λ server, analyze.presentOn manifest server p = true) servers).

(** [fileCounts] and [allFiles] agree with the count [c]: a path counted
    zero times is in neither map. *)
Definition counted (c : string → nat) (acc : gmap string nat * gmap string bool) : Prop :=
  ∀ p, acc.1 !! p = (if c p is 0 then None else Some (c p)) ∧
       acc.2 !! p = (if c p is 0 then None else Some true).

(** [within dest path]: the path [path] names the destination directory
    [dest] or something below it: both are rooted or both are not, the
    elements of the cleaned destination start the elements of the path,
    and no element of the path after them is [..]. When the destination
    is the current directory, these are the relative paths without a [..]
    element. *)
Definition within (dest path : string) : bool :=
  let d := filepath.Clean dest in
  let base := if String.eqb d "." then [] else osfs.elements d in
  bool_decide (filepath.isRooted path = filepath.isRooted d ∧
               base `prefix_of` osfs.elements path ∧
               (".." ∉ drop (length base) (osfs.elements path))).

(** The cleaned destination is made of [..] elements only: it names an
    ancestor of the current directory ([..], [../..], ...). *)
Definition climbsOnly (dest : string) : bool :=
  match osfs.elements (filepath.Clean dest) with
  | [] => false
  | es => forallb (String.eqb "..") es
  end.

(** The stack of [Clean]: elements that are not empty and hold no
    separator; the [..] elements lie at its bottom, and there is none
    when the path is rooted. *)
Definition cleanStack (rooted : bool) (out : list string) : Prop :=
  (∀ e, e ∈ out → e ≠ "" ∧ filepath.split e = [e]) ∧
  ∃ names k, out = names ++ replicate k ".." ∧ (".." ∉ names) ∧ (rooted = true → k = 0).

(** The target that [ExtractTarGz] resolves for the entry name [name]
    escapes the destination. *)
Definition escapes (dest name : string) : bool :=
  negb (within dest (filepath.Join [dest; name])).

(** The regular files of [fs'] outside [dest] are those of [fs], with the
    same contents. *)
Definition sameFilesOutside (dest : string) (fs fs' : osfs.FS) : Prop :=
  ∀ path content,
    within dest path = false →
    (osfs.nodes fs' !! path = Some (osfs.File content) ↔
     osfs.nodes fs !! path = Some (osfs.File content)).

(** The regular files of [fs'] are those of [fs], with the same contents,
    and the two behave alike. *)
Definition sameFiles (fs fs' : osfs.FS) : Prop :=
  osfs.refused fs' = osfs.refused fs ∧
  osfs.quota fs' = osfs.quota fs ∧
  ∀ path content,
    osfs.nodes fs' !! path = Some (osfs.File content) ↔
    osfs.nodes fs !! path = Some (osfs.File content).

(** ** Sample inputs *)

Module samples.
Import config.

(** Hosts A and B both hold [etc/f1] (with different contents); only A
    holds [etc/f2]; both hold [etc/hosts] with equal contents. *)
Definition manifest : Manifest :=
  AddFile (AddFile (AddFile (AddFile (AddFile NewManifest
    "A" "etc/f1" "1111" "")
    "B" "etc/f1" "2222" "")
    "A" "etc/f2" "3333" "")
    "A" "etc/hosts" "4444" "")
    "B" "etc/hosts" "4444" "".

Definition servers : list string := ["A"; "B"].

(** Go's map iteration in one particular order. *)
Definition inKeyOrder : ∀ V : Type, gmap string V → list (string * V) :=
  λ V m, map_to_list m.

(** A machine on which every local call succeeds and [diff] finds a
    difference. *)
Definition quietLocal : analyze.Local :=
  analyze.mkLocal (λ _, false) (λ _ _, analyze.DiffExit1 "@@ -1 +1 @@") (λ _, false).

(** An empty file system without restrictions. *)
Definition emptyFS : osfs.FS := osfs.mkFS ∅ ∅ ∅.

Definition regular (name body : string) : tar.Entry :=
  tar.mkEntry (tar.mkHeader name tar.TypeReg "") body None.

Definition directory (name : string) : tar.Entry :=
  tar.mkEntry (tar.mkHeader name tar.TypeDir "") "" None.

(** An archive whose third member climbs out of the destination. *)
Definition hostile : tar.Archive :=
  tar.mkArchive None
    [directory "etc/"; regular "etc/foo.conf" "a=1"; regular "../../etc/passwd" "root"]
    None.

(** What [tar czf remote_backup.tar.gz .] produces: the first member is
    the directory [./] itself. *)
Definition collected : tar.Archive :=
  tar.mkArchive None
    [directory "./"; directory "./etc/"; regular "./etc/foo.conf" "a=1"]
    None.

(** One regular file of five bytes. *)
Definition oneFile : tar.Archive :=
  tar.mkArchive None [regular "etc/foo.conf" "hello"] None.

(** The same member in a stream that breaks after three bytes of its body. *)
Definition truncated : tar.Archive :=
  tar.mkArchive None
    [tar.mkEntry (tar.mkHeader "etc/foo.conf" tar.TypeReg "") "hel" (Some "unexpected EOF")]
    None.

(** A file system that accepts two bytes at [/out/etc/foo.conf] and then
    reports a write error. *)
Definition fullDisk : osfs.FS := osfs.mkFS ∅ ∅ {[ "/out/etc/foo.conf" := 2 ]}.

End samples.



(** A network on which the first attempt cannot dial, the second fails
    the handshake and the third succeeds. *)
Definition flakyNetwork : sshutil.Network :=
  sshutil.mkNetwork (λ _, inl "key") (λ _ _, sshutil.Signer) (λ _, sshutil.Signer)
    (λ n, if Nat.eqb n 1 then Some "connection refused" else None)
    (λ n, if Nat.eqb n 2 then Some "handshake failed" else None)
    None.

(** A network on which no attempt can dial. *)
Definition deadNetwork : sshutil.Network :=
  sshutil.mkNetwork (λ _, inl "key") (λ _ _, sshutil.Signer) (λ _, sshutil.Signer)
    (λ _, Some "i/o timeout") (λ _, None) None.

(** A host on which every step succeeds; one file is found by the walk. *)
Definition healthyHost (net : sshutil.Network) : collect.Host :=
  collect.mkHost net (inl "/tmp/collect_script_1.sh") None "1700000000" None None None None
    None "/tmp" None None (λ _, None)
    [collect.mkVisit "." true None (inr "is a directory");
     collect.mkVisit "etc/foo.conf" false None (inl "e3b0c442")].

Definition twoServers : config.Config :=
  config.mkConfig ["A"; "B"] ["/etc/foo.conf"] [] (config.mkSSHCredentials "ops" "/k" "").

(** The parent of the current directory and its parent, both present, and
    an archive whose only member is the regular file [../passwd]. *)
Definition parentDirs : osfs.FS :=
  osfs.mkFS {[ ".." := osfs.Directory; "../.." := osfs.Directory ]} ∅ ∅.

Definition climbing : tar.Archive :=
  tar.mkArchive None [samples.regular "../passwd" "root"] None.




(** ** Vocabulary of the further statements *)

(** A call [AddFile(server, relativePath, checksum, fileError)]. *)
Record addCall : Type := mkAddCall {
  callServer : string;
  callPath : string;
  callChecksum : string;
  callError : string
}.

(** The manifest after a sequence of [AddFile] calls, in order. *)
Definition applyAdds (m : config.Manifest) (calls : list addCall) : config.Manifest :=
  fold_left (λ m c, config.AddFile m (callServer c) (callPath c) (callChecksum c) (callError c))
            calls m.

(** The last call of the sequence for the given server and path. *)
Fixpoint lastCall (server path : string) (calls : list addCall) : option addCall :=
  match calls with
  | [] => None
  | c :: rest =>
      match lastCall server path rest with
      | Some later => Some later
      | None =>
          if decide (callServer c = server ∧ callPath c = path) then Some c else None
      end
  end.

(** The test of the first loop of [compareSingleFile], negated: the
    manifest has a record for the path on the server, without error text
    and with a checksum. *)
Definition usable (manifest : config.Manifest) (filePath server : string) : bool :=
  let '(info, exists_) := config.GetFileInfo manifest server filePath in
  exists_ && String.eqb (config.Error info) "" && negb (String.eqb (config.Checksum info) "").

(** The checksum recorded for the path on the server. *)
Definition checksumOn (manifest : config.Manifest) (filePath server : string) : string :=
  config.Checksum (config.GetFileInfo manifest server filePath).1.

(** The number of times [diff] was run. *)
Fixpoint diffRuns (trace : list analyze.event) : nat :=
  match trace with
  | [] => 0
  | analyze.ExecDiff _ _ :: rest => S (diffRuns rest)
  | _ :: rest => diffRuns rest
  end.

(** The number of results that report a difference. *)
Definition different (results : list analyze.fileComparisonResult) : nat :=
  length (filter (λ r, analyze.IsDiff r = true) results).

(** A machine on which the manifest of [samples] loads and every call
    succeeds. *)
Definition sampleMachine : analyze.Machine :=
  analyze.mkMachine (λ _, inl samples.manifest) (λ _, analyze.StatOk) (λ _, None)
                    samples.quietLocal.

(** The same machine before anything was collected from host B. *)
Definition missingDirMachine : analyze.Machine :=
  analyze.mkMachine (λ _, inl samples.manifest)
    (λ dir, if String.eqb dir "collected-files/files-B" then analyze.StatNotExist
            else analyze.StatOk)
    (λ _, None) samples.quietLocal.

Definition sampleConfig : config.Config :=
  config.mkConfig samples.servers ["/etc/f1"; "/etc/f2"; "/etc/hosts"] []
                  (config.mkSSHCredentials "ops" "/home/ops/.ssh/id_ed25519" "").

(** Go's map iteration in the opposite order. *)
Definition inReverseKeyOrder : ∀ V : Type, gmap string V → list (string * V) :=
  λ V m, reverse (map_to_list m).

(** Every record of the manifest is filed under its own path and does not
    carry both a checksum and an error text. *)
Definition wellFormed (m : config.Manifest) : Prop :=
  ∀ server path info,
    config.GetFileInfo m server path = (info, true) →
    config.Path info = path ∧ (config.Checksum info = "" ∨ config.Error info = "").

(** The host [h] with another sequence of visits for the walk. *)
Definition withWalked (h : collect.Host) (visits : list collect.Visit) : collect.Host :=
  collect.mkHost (collect.network h) (collect.createTemp h) (collect.writeString h)
    (collect.timestamp h) (collect.uploadFile h) (collect.chmodScript h) (collect.runScript h)
    (collect.downloadFile h) (collect.cleanupRemote h) (collect.tempDir h)
    (collect.mkdirOutput h) (collect.openTarball h) (collect.extractTarGz h) visits.

(** The remote clean-up of a collection: the call of [cleanupRemoteFiles]. *)
Definition remoteCleanup (h : collect.Host) (cfg : config.Config) : collectCalls.call :=
  collectCalls.CallRunCommand
    (collectCalls.cleanupCommand ("/tmp/collect_files_" +:+ collect.timestamp h +:+ ".sh")
       ("/home/" +:+ config.Username (config.SSHConfig cfg)))
    false.

(** A host whose tarball cannot be extracted. *)
Definition brokenTarball (net : sshutil.Network) : collect.Host :=
  collect.mkHost net (inl "/tmp/collect_script_1.sh") None "1700000000" None None None None
    None "/tmp" None None (λ _, Some (ErrGzipReader "unexpected EOF")) [].

(** A host on which the walk cannot enter [etc/ssl]. *)
Definition unreadableDir (net : sshutil.Network) : collect.Host :=
  withWalked (healthyHost net)
    [collect.mkVisit "." true None (inr "is a directory");
     collect.mkVisit "etc/foo.conf" false None (inl "e3b0c442");
     collect.mkVisit "etc/ssl" true (Some "permission denied") (inr "is a directory");
     collect.mkVisit "etc/zz.conf" false None (inl "ffff")].

(** The manifest and the errors of the goroutines, separately. *)
Definition collectStep (hosts : nat → collect.Host) (cfg : config.Config) (outputDir : string)
    (m : config.Manifest) (task : nat * string) : config.Manifest :=
  (collect.collectFromServer (hosts task.1) task.2 cfg outputDir m).1.

Definition taskError (hosts : nat → collect.Host) (cfg : config.Config) (outputDir : string)
    (task : nat * string) : option (string * collect.error) :=
  (λ err, (task.2, err)) <$>
    (collect.collectFromServer (hosts task.1) task.2 cfg outputDir config.NewManifest).2.


(** The error of the [k]-th connection attempt, if it fails: it cannot
    dial, or it dials and the SSH handshake fails. *)
Definition attemptError (net : sshutil.Network) (hostname : string) (k : nat)
    : option sshutil.error :=
  match sshutil.dialTimeout net k with
  | Some cause => Some (sshutil.ErrDial hostname cause)
  | None =>
      match sshutil.newClientConn net k with
      | Some cause => Some (sshutil.ErrHandshake hostname cause)
      | None => None
      end
  end.

(** A network on which the connection is made but the SFTP subsystem
    cannot be started. *)
Definition noSFTP : sshutil.Network :=
  sshutil.mkNetwork (λ _, inl "key") (λ _ _, sshutil.Signer) (λ _, sshutil.Signer)
    (λ _, None) (λ n, if Nat.eqb n 1 then Some "handshake failed" else None)
    (Some "subsystem request failed").

(** An SFTP server that has the tarball, whole or cut short. *)
Definition tarballServer (body : string) (readError : option string)
    : string → sshutilFiles.RemoteFile + string :=
  λ remotePath,
    if String.eqb remotePath "/home/ops/remote_backup.tar.gz"
    then inl (sshutilFiles.mkRemoteFile body readError)
    else inr "file does not exist".

(** The machine [env] with another answer of [json.Unmarshal]. *)
Definition withUnmarshal (env : configLoad.Machine)
    (unmarshal : string → option configLoad.Stored) : configLoad.Machine :=
  configLoad.mkMachine (configLoad.getenv env) (configLoad.userHomeDir env)
    (configLoad.stat env) (configLoad.readFile env) unmarshal
    (configLoad.mkdirAll env) (configLoad.writeFile env).

(** A machine of user [ops], whose key is given with a tilde and exists,
    and on which no configuration was saved yet. *)
Definition freshMachine : configLoad.Machine :=
  configLoad.mkMachine
    (λ name, if String.eqb name "SSHUSER" then "ops"
             else if String.eqb name "SSHKEYPATH" then "~/.ssh/id_ed25519"
             else "")
    (inl "/home/ops")
    (λ path, if String.eqb path "/home/ops/.ssh/id_ed25519" then configLoad.StatOk
             else configLoad.StatNotExist)
    (λ _, inr "no such file or directory")
    (λ _, None) (λ _, None) (λ _, None).

(** What [freshMachine] makes of the arguments [A,B], [/etc/hosts] and
    [/etc/ssl/,/var//]. *)
Definition loadedConfig : config.Config :=
  config.mkConfig ["A"; "B"] ["/etc/hosts"] ["/etc/ssl"; "/var"]
    (config.mkSSHCredentials "ops" "/home/ops/.ssh/id_ed25519" "").

(** The same machine with a configuration file that can be read but is
    not valid JSON. *)
Definition corruptConfigMachine : configLoad.Machine :=
  configLoad.mkMachine (configLoad.getenv freshMachine) (configLoad.userHomeDir freshMachine)
    (λ path, if String.eqb path "conf/config.json" then configLoad.StatOk
             else configLoad.stat freshMachine path)
    (λ _, inl "{ servers: ") (λ _, None) (λ _, None) (λ _, None).

(** * Part II: properties *)

(** ** The manifest *)

Section manifest_facts.
Import config.

Lemma AddFile_lookup_server m server relativePath checksum fileError :
  FilesByServer (AddFile m server relativePath checksum fileError) !! server =
  Some (<[relativePath := mkFileInfo relativePath checksum fileError]>
          (default ∅ (FilesByServer m !! server))).
Proof.
  unfold AddFile; simpl.
  rewrite lookup_insert_eq.
  destruct (FilesByServer m !! server) as [files|] eqn:E.
  - by rewrite E.
  - by rewrite lookup_insert_eq.
Qed.

Lemma AddFile_lookup_other_server m server relativePath checksum fileError server' :
  server ≠ server' →
  FilesByServer (AddFile m server relativePath checksum fileError) !! server' =
  FilesByServer m !! server'.
Proof.
  intros Hne. unfold AddFile; simpl.
  rewrite lookup_insert_ne by done.
  destruct (FilesByServer m !! server); [done|].
  by rewrite lookup_insert_ne.
Qed.

Lemma GetFileInfo_AddFile_same m server relativePath checksum fileError :
  GetFileInfo (AddFile m server relativePath checksum fileError) server relativePath =
  (mkFileInfo relativePath checksum fileError, true).
Proof.
  unfold GetFileInfo. rewrite AddFile_lookup_server.
  by rewrite lookup_insert_eq.
Qed.

Lemma GetFileInfo_AddFile_other m server relativePath checksum fileError server' path' :
  (server', path') ≠ (server, relativePath) →
  GetFileInfo (AddFile m server relativePath checksum fileError) server' path' =
  GetFileInfo m server' path'.
Proof.
  intros Hne. unfold GetFileInfo.
  destruct (decide (server = server')) as [<-|Hs].
  - assert (relativePath ≠ path') by congruence.
    rewrite AddFile_lookup_server, lookup_insert_ne by done.
    destruct (FilesByServer m !! server); simpl; [done|].
    by rewrite lookup_empty.
  - by rewrite AddFile_lookup_other_server.
Qed.

(** C9. After [AddFile(server, relativePath, checksum, errorText)],
    [GetFileInfo(server, relativePath)] returns the record
    [FileInfo{relativePath, checksum, errorText}] with [true], and
    [GetFileInfo] at every other (server, path) pair returns what it
    returned before the call. *)
Theorem C9_AddFile_GetFileInfo m server relativePath checksum errorText :
  GetFileInfo (AddFile m server relativePath checksum errorText) server relativePath
    = (mkFileInfo relativePath checksum errorText, true)
  ∧ ∀ server' path',
      (server', path') ≠ (server, relativePath) →
      GetFileInfo (AddFile m server relativePath checksum errorText) server' path'
        = GetFileInfo m server' path'.
Proof.
  split.
  - apply GetFileInfo_AddFile_same.
  - intros. by apply GetFileInfo_AddFile_other.
Qed.

End manifest_facts.

(** ** The comparison set *)

Section comparison_set.
Import config analyze goroutines.

Context (range : ∀ V : Type, gmap string V → list (string * V)).
Hypothesis range_perm : ∀ (V : Type) (m : gmap string V), range V m ≡ₚ map_to_list m.

Implicit Types (manifest : Manifest) (servers : list string) (p : string).

Lemma counted_ext c c' acc :
  (∀ p, c p = c' p) → counted c acc → counted c' acc.
Proof. intros Heq Hc p. rewrite <- Heq. apply Hc. Qed.

Lemma countFile_counted c acc e :
  counted c acc →
  counted (λ p, c p + hits p [e]) (countFile acc e).
Proof.
  destruct acc as [fileCounts allFiles], e as [filePath info].
  intros Hc p. unfold countFile, hits. rewrite filter_cons, filter_nil. simpl.
  destruct (Hc p) as [Hfc Haf]; simpl in Hfc, Haf.
  destruct (String.eqb_spec (Error info) "") as [Herr|Herr]; simpl.
  - destruct (decide (filePath = p)) as [->|Hne].
    + rewrite decide_True by done. simpl.
      rewrite !lookup_insert_eq, Hfc.
      replace (c p + 1) with (S (c p)) by lia.
      by destruct (c p).
    + rewrite decide_False by (intros [? ?]; done). simpl.
      rewrite !lookup_insert_ne by done.
      by rewrite Nat.add_0_r.
  - rewrite decide_False by (intros [? ?]; done). simpl.
    by rewrite Nat.add_0_r.
Qed.

Lemma hits_cons p e kvs : hits p (e :: kvs) = hits p [e] + hits p kvs.
Proof.
  unfold hits. rewrite !filter_cons, filter_nil.
  by destruct (decide _).
Qed.

Lemma countFile_fold_counted kvs : ∀ c acc,
  counted c acc →
  counted (λ p, c p + hits p kvs) (fold_left countFile kvs acc).
Proof.
  induction kvs as [|e kvs IH]; intros c acc Hc; simpl.
  - eapply counted_ext; [|exact Hc]. intros p. unfold hits. simpl. lia.
  - eapply counted_ext; [|apply IH, countFile_counted, Hc].
    intros p. simpl. rewrite (hits_cons p e kvs). lia.
Qed.

Lemma hits_map_to_list p (serverFiles : gmap string FileInfo) :
  hits p (map_to_list serverFiles) =
  match serverFiles !! p with
  | Some info => if String.eqb (Error info) "" then 1 else 0
  | None => 0
  end.
Proof.
  induction serverFiles as [|q info serverFiles Hq Hfirst IH] using map_first_key_ind.
  - by rewrite map_to_list_empty, lookup_empty.
  - rewrite map_to_list_insert_first_key by done.
    rewrite hits_cons, IH. unfold hits. rewrite filter_cons, filter_nil. simpl.
    destruct (decide (q = p)) as [->|Hne].
    + rewrite lookup_insert_eq, Hq.
      destruct (String.eqb_spec (Error info) "").
      * by rewrite decide_True.
      * by rewrite decide_False by (intros [? ?]; done).
    + rewrite lookup_insert_ne by done.
      by rewrite decide_False by (intros [? ?]; done).
Qed.

Lemma hits_range p (serverFiles : gmap string FileInfo) :
  hits p (range _ serverFiles) = hits p (map_to_list serverFiles).
Proof. unfold hits. by rewrite (range_perm _ serverFiles). Qed.

Lemma countServer_counted manifest c acc server :
  counted c acc →
  counted (λ p, c p + if presentOn manifest server p then 1 else 0)
          (countServer range manifest acc server).
Proof.
  intros Hc. unfold countServer, presentOn.
  destruct (FilesByServer manifest !! server) as [serverFiles|].
  - eapply counted_ext; [|apply countFile_fold_counted, Hc].
    intros p. simpl. rewrite hits_range, hits_map_to_list.
    by destruct (serverFiles !! p).
  - eapply counted_ext; [|exact Hc]. intros p. simpl. lia.
Qed.

Lemma countServer_fold_counted manifest servers : ∀ c acc,
  counted c acc →
  counted (λ p, c p + presentCount manifest servers p)
          (fold_left (countServer range manifest) servers acc).
Proof.
  induction servers as [|server servers IH]; intros c acc Hc; simpl.
  - eapply counted_ext; [|exact Hc]. intros p. unfold presentCount. simpl. lia.
  - eapply counted_ext; [|apply IH, countServer_counted, Hc].
    intros p. simpl. unfold presentCount. rewrite filter_cons.
    destruct (decide (presentOn manifest server p = true)) as [Hp|Hp].
    + rewrite Hp. simpl. lia.
    + apply not_true_is_false in Hp. rewrite Hp. lia.
Qed.

Lemma counted_empty : counted (λ _, 0) (∅, ∅).
Proof. intros p. simpl. by rewrite !lookup_empty. Qed.

Lemma collectCommon_fold fileCounts n entries : ∀ commonFiles,
  fold_left (collectCommon fileCounts n) entries commonFiles =
  commonFiles ++ (filter (λ e : string * bool, fileCounts !! e.1 = Some n) entries).*1.
Proof.
  induction entries as [|e entries IH]; intros commonFiles; cbn [fold_left].
  - by rewrite filter_nil, app_nil_r.
  - rewrite IH, filter_cons. unfold collectCommon.
    destruct (fileCounts !! e.1) as [count|] eqn:Hcount.
    + destruct (Nat.eqb_spec count n) as [->|Hne].
      * rewrite decide_True by done. by rewrite <- app_assoc.
      * rewrite decide_False by congruence. done.
    + by rewrite decide_False.
Qed.

Lemma NoDup_fst_filter {A B : Type} (P : A * B → Prop) `{∀ x, Decision (P x)}
    (l : list (A * B)) :
  NoDup l.*1 → NoDup (filter P l).*1.
Proof.
  induction l as [|e l IH]; [done|].
  rewrite fmap_cons, NoDup_cons. intros [Hnin Hnd].
  rewrite filter_cons. destruct (decide (P e)); [|by apply IH].
  rewrite fmap_cons. apply NoDup_cons. split; [|by apply IH].
  intros Hin. apply Hnin.
  apply list_elem_of_fmap in Hin as (x & Hx & [_ Hxl]%list_elem_of_filter).
  apply list_elem_of_fmap. by exists x.
Qed.

Lemma presentCount_full manifest servers p :
  presentCount manifest servers p = length servers ↔
  ∀ server, server ∈ servers → presentOn manifest server p = true.
Proof.
  unfold presentCount. induction servers as [|s servers IH]; simpl.
  - split; [|done]. intros _ server Hin. by apply elem_of_nil in Hin.
  - rewrite filter_cons. destruct (decide (presentOn manifest s p = true)) as [Hs|Hs]; simpl.
    + split.
      * intros Hlen server [->|Hin]%elem_of_cons; [done|].
        apply IH; [lia|done].
      * intros Hall. f_equal. apply IH. intros server Hin.
        apply Hall. by right.
    + split.
      * intros Hlen. pose proof (length_filter (λ s, presentOn manifest s p = true) servers).
        lia.
      * intros Hall. destruct Hs. apply Hall. by left.
Qed.

(** The unsorted list that the last loop of [getFilesToCompare] builds. *)
Lemma getFilesToCompare_unfold servers manifest :
  servers ≠ [] →
  ∃ fileCounts allFiles,
    counted (presentCount manifest servers) (fileCounts, allFiles) ∧
    getFilesToCompare range servers manifest =
    sort_Strings
      ((filter (λ e : string * bool, fileCounts !! e.1 = Some (length servers))
               (range _ allFiles)).*1).
Proof.
  intros Hne. unfold getFilesToCompare.
  destruct servers as [|s servers]; [done|]. cbn [length Nat.eqb].
  pose proof (countServer_fold_counted manifest (s :: servers) _ _ counted_empty) as Hc.
  destruct (fold_left (countServer range manifest) (s :: servers) (∅, ∅))
    as [fileCounts allFiles] eqn:Hfold.
  exists fileCounts, allFiles. split.
  - eapply counted_ext; [|exact Hc]. done.
  - by rewrite collectCommon_fold.
Qed.

(** A path is selected exactly when every configured server has a record
    without error for it. *)
Lemma elem_of_getFilesToCompare servers manifest p :
  p ∈ getFilesToCompare range servers manifest ↔
  servers ≠ [] ∧ ∀ server, server ∈ servers → presentOn manifest server p = true.
Proof.
  destruct (decide (servers = [])) as [->|Hne].
  { unfold getFilesToCompare. simpl. split; [by intros ?%elem_of_nil|by intros []]. }
  destruct (getFilesToCompare_unfold servers manifest Hne)
    as (fileCounts & allFiles & Hc & ->).
  unfold sort_Strings. rewrite merge_sort_Permutation.
  rewrite list_elem_of_fmap. rewrite <- presentCount_full.
  destruct (Hc p) as [Hfc Haf]; simpl in Hfc, Haf.
  assert (length servers ≠ 0) by (by destruct servers).
  split.
  - intros ([q b] & -> & [Hsome _]%list_elem_of_filter). simpl in *.
    split; [done|]. rewrite Hfc in Hsome.
    destruct (presentCount manifest servers q); congruence.
  - intros [_ Hfull]. exists (p, true). split; [done|].
    apply list_elem_of_filter. simpl. rewrite Hfull in Hfc, Haf.
    destruct (length servers) eqn:Hlen; [done|]. split; [done|].
    rewrite range_perm. by apply elem_of_map_to_list.
Qed.

Lemma getFilesToCompare_NoDup servers manifest :
  NoDup (getFilesToCompare range servers manifest).
Proof.
  destruct (decide (servers = [])) as [->|Hne].
  { unfold getFilesToCompare. simpl. constructor. }
  destruct (getFilesToCompare_unfold servers manifest Hne)
    as (fileCounts & allFiles & _ & ->).
  unfold sort_Strings. rewrite merge_sort_Permutation.
  apply NoDup_fst_filter.
  rewrite range_perm. apply NoDup_fst_map_to_list.
Qed.

Lemma getFilesToCompare_sorted servers manifest :
  StronglySorted String.le (getFilesToCompare range servers manifest).
Proof.
  unfold getFilesToCompare.
  destruct (Nat.eqb (length servers) 0); [constructor|].
  destruct (fold_left _ _ _) as [fileCounts allFiles].
  apply (StronglySorted_merge_sort String.le).
Qed.

(** C10. For every server list and manifest, whatever the order in which
    the maps are visited, [getFilesToCompare] returns a list without
    duplicates, sorted in ascending lexicographic order; for the empty
    server list it returns the empty list. *)
Theorem C10_getFilesToCompare_sorted_nodup servers manifest :
  NoDup (getFilesToCompare range servers manifest) ∧
  StronglySorted String.le (getFilesToCompare range servers manifest) ∧
  getFilesToCompare range [] manifest = [].
Proof.
  split; [apply getFilesToCompare_NoDup|].
  split; [apply getFilesToCompare_sorted|done].
Qed.

(** *** The results of a run *)

Lemma completionOrder_Permutation {A : Type} n : ∀ sched (pending : list A),
  length pending = n → completionOrder n sched pending ≡ₚ pending.
Proof.
  induction n as [|n IH]; intros sched pending Hlen; simpl.
  - by destruct pending.
  - assert (hd 0 sched `mod` length pending < length pending) as Hlt.
    { apply Nat.mod_upper_bound. lia. }
    destruct (lookup_lt_is_Some_2 _ _ Hlt) as [task Htask].
    rewrite Htask. rewrite IH.
    + symmetry. by apply delete_Permutation.
    + rewrite length_delete by eauto. lia.
Qed.

(** Every schedule gives a completion order of the tasks, and every
    order of the tasks is the completion order of some schedule. *)
Lemma scheduled_Permutation {A : Type} sched (tasks : list A) :
  scheduled sched tasks ≡ₚ tasks.
Proof. by apply completionOrder_Permutation. Qed.

Lemma scheduled_complete {A : Type} (order : list A) : ∀ tasks,
  tasks ≡ₚ order → ∃ sched, scheduled sched tasks = order.
Proof.
  unfold scheduled.
  induction order as [|task order IH]; intros tasks Hperm.
  - apply Permutation_nil_r in Hperm as ->. by exists [].
  - assert (task ∈ tasks) as [k Hk]%list_elem_of_lookup by (rewrite Hperm; left).
    pose proof (lookup_lt_Some _ _ _ Hk) as Hlt.
    destruct (IH (delete k tasks)) as [sched Hsched].
    { apply (Permutation_cons_inv (a := task)).
      by rewrite <- Hperm, <- delete_Permutation. }
    exists (k :: sched).
    replace (length tasks) with (S (length (delete k tasks)))
      by (rewrite length_delete by eauto; lia).
    cbn [completionOrder hd tl].
    replace (S (length (delete k tasks))) with (length tasks)
      by (rewrite length_delete by eauto; lia).
    rewrite Nat.mod_small by done. by rewrite Hk, Hsched.
Qed.

Lemma received_tally results : ∀ acc,
  received (fold_left tally results acc) = received acc ++ results.
Proof.
  induction results as [|r results IH]; intros acc; simpl.
  - by rewrite app_nil_r.
  - rewrite IH. unfold tally. destruct (IsDiff r); simpl; by rewrite <- app_assoc.
Qed.

Lemma FilePath_diffPair os filePath saveDiffs diffDir paths server1 server2 st :
  FilePath (diffPair os filePath saveDiffs diffDir paths server1 server2 st).1 = FilePath st.1.
Proof.
  destruct st as [result trace]. unfold diffPair.
  repeat (case_match; simpl; try done).
Qed.

Lemma FilePath_innerLoop os filePath saveDiffs diffDir paths server1 later : ∀ st,
  FilePath (innerLoop os filePath saveDiffs diffDir paths server1 later st).1 = FilePath st.1.
Proof.
  unfold innerLoop. induction later as [|server2 later IH]; intros st; simpl; [done|].
  by rewrite IH, FilePath_diffPair.
Qed.

Lemma FilePath_pairwiseLoop os filePath saveDiffs diffDir paths servers : ∀ st,
  FilePath (pairwiseLoop os filePath saveDiffs diffDir paths servers st).1 = FilePath st.1.
Proof.
  induction servers as [|server1 later IH]; intros st; simpl; [done|].
  by rewrite IH, FilePath_innerLoop.
Qed.

Lemma FilePath_compareSingleFile os filePath servers manifest baseOutputDir saveDiffs diffDir :
  FilePath (compareSingleFile os filePath servers manifest baseOutputDir saveDiffs diffDir).1
  = filePath.
Proof.
  unfold compareSingleFile.
  destruct (negb _); [done|]. destruct (allMatch _); [done|].
  by rewrite FilePath_pairwiseLoop.
Qed.

(** Every result the collector receives is the result of one file of the
    comparison set. *)
Lemma received_in_comparison_set mach sched cfg outputDir diffDir saveDiffs maxConcurrency
    manifest a r :
  loadManifest mach outputDir = inl manifest →
  RunAnalysis range mach sched cfg outputDir diffDir saveDiffs maxConcurrency = Some a →
  r ∈ received a →
  FilePath r ∈ getFilesToCompare range (Servers cfg) manifest.
Proof.
  intros Hload Hrun Hr. unfold RunAnalysis in Hrun. rewrite Hload in Hrun.
  destruct (checkCollectionDirs _ _ _).
  { simplify_eq. by apply elem_of_nil in Hr. }
  destruct (Nat.eqb _ 0).
  { simplify_eq. by apply elem_of_nil in Hr. }
  destruct (if saveDiffs then _ else _).
  { simplify_eq. by apply elem_of_nil in Hr. }
  destruct (maxConcurrency <? 1)%Z; [done|]. simplify_eq.
  rewrite received_tally in Hr. simpl in Hr.
  apply list_elem_of_In, in_map_iff in Hr as (fp & <- & Hfp).
  rewrite FilePath_compareSingleFile.
  apply list_elem_of_In in Hfp. by rewrite scheduled_Permutation in Hfp.
Qed.

(** C7. A relative path that lacks a record without error on one of the
    configured hosts is not in the comparison set of [getFilesToCompare],
    and no result of [RunAnalysis], different or identical, is about it. *)
Theorem C7_partial_path_excluded servers manifest p :
  (∃ server, server ∈ servers ∧ presentOn manifest server p = false) →
  (p ∉ getFilesToCompare range servers manifest) ∧
  (∀ mach sched cfg outputDir diffDir saveDiffs maxConcurrency a,
     Servers cfg = servers →
     loadManifest mach outputDir = inl manifest →
     RunAnalysis range mach sched cfg outputDir diffDir saveDiffs maxConcurrency = Some a →
     ∀ r, r ∈ received a → FilePath r ≠ p).
Proof.
  intros (server & Hin & Habsent).
  assert (p ∉ getFilesToCompare range servers manifest) as Hout.
  { rewrite elem_of_getFilesToCompare. intros [_ Hall].
    specialize (Hall server Hin). congruence. }
  split; [done|].
  intros mach sched cfg outputDir diffDir saveDiffs maxConcurrency a <- Hload Hrun r Hr Heq.
  apply Hout. rewrite <- Heq. eapply received_in_comparison_set; eauto.
Qed.

End comparison_set.

Lemma C10_sorted_nodup_witness :
  NoDup (analyze.getFilesToCompare samples.inKeyOrder samples.servers samples.manifest) ∧
  StronglySorted String.le
    (analyze.getFilesToCompare samples.inKeyOrder samples.servers samples.manifest) ∧
  analyze.getFilesToCompare samples.inKeyOrder [] samples.manifest = [].
Proof.
  apply (C10_getFilesToCompare_sorted_nodup samples.inKeyOrder).
  intros V m. reflexivity.
Defined.

Lemma C7_partial_path_witness :
  ("etc/f2" ∉ analyze.getFilesToCompare samples.inKeyOrder samples.servers samples.manifest) ∧
  (∀ mach sched cfg outputDir diffDir saveDiffs maxConcurrency a,
     config.Servers cfg = samples.servers →
     analyze.loadManifest mach outputDir = inl samples.manifest →
     analyze.RunAnalysis samples.inKeyOrder mach sched cfg outputDir diffDir saveDiffs
       maxConcurrency = Some a →
     ∀ r, r ∈ analyze.received a → analyze.FilePath r ≠ "etc/f2").
Proof.
  apply (C7_partial_path_excluded samples.inKeyOrder).
  - intros V m. reflexivity.
  - exists "B". split; [|vm_compute; reflexivity].
    apply list_elem_of_In. simpl. auto.
Defined.

(** ** Comparing one file *)

Section compare_single_file.
Import config analyze.

Lemma gatherLoop_all_match manifest filePath baseOutputDir checksum servers : ∀ g i,
  checksum ≠ "" →
  (∀ server, server ∈ servers →
     ∃ info, GetFileInfo manifest server filePath = (info, true) ∧
             Error info = "" ∧ Checksum info = checksum) →
  foundOnAll g = true → allMatch g = true →
  (i = 0 ∨ firstChecksum g = checksum) →
  foundOnAll (gatherLoop manifest filePath baseOutputDir g i servers) = true ∧
  allMatch (gatherLoop manifest filePath baseOutputDir g i servers) = true.
Proof.
  induction servers as [|server servers IH]; intros g i Hne Hall Hfound Hmatch Hfirst; simpl.
  - done.
  - destruct (Hall server) as (info & Hget & Herr & Hsum); [by left|].
    assert (∀ s, s ∈ servers → ∃ info, GetFileInfo manifest s filePath = (info, true) ∧
                                   Error info = "" ∧ Checksum info = checksum) as Hrest.
    { intros s Hs. apply Hall. by right. }
    unfold gatherStep. rewrite Hget, Herr, Hsum. simpl.
    destruct (String.eqb_spec checksum "") as [|_]; [done|].
    destruct (Nat.eqb_spec i 0) as [->|Hi].
    + apply IH; simpl; auto.
    + destruct Hfirst as [|Hfirst]; [done|]. rewrite Hfirst, String.eqb_refl. simpl.
      apply IH; simpl; auto.
Qed.

(** C4. When every server of a non-empty list has a manifest record for
    the path with no error and the same non-empty checksum,
    [compareSingleFile] reports [IsDiff = false] and makes no external
    call: [diff] is never run. *)
Theorem C4_equal_checksums_no_diff os filePath servers manifest baseOutputDir saveDiffs
    diffDir checksum :
  servers ≠ [] →
  checksum ≠ "" →
  (∀ server, server ∈ servers →
     ∃ info, GetFileInfo manifest server filePath = (info, true) ∧
             Error info = "" ∧ Checksum info = checksum) →
  IsDiff (compareSingleFile os filePath servers manifest baseOutputDir saveDiffs diffDir).1
    = false ∧
  (compareSingleFile os filePath servers manifest baseOutputDir saveDiffs diffDir).2 = [].
Proof.
  intros _ Hne Hall. unfold compareSingleFile.
  destruct (gatherLoop_all_match manifest filePath baseOutputDir checksum servers
              (mkGathered ∅ ∅ [] true "" true) 0 Hne Hall eq_refl eq_refl (or_introl eq_refl))
    as [-> ->].
  done.
Qed.

End compare_single_file.

Lemma C4_equal_checksums_witness :
  analyze.IsDiff (analyze.compareSingleFile samples.quietLocal "etc/hosts" samples.servers
                    samples.manifest "." true "diff_output").1 = false ∧
  (analyze.compareSingleFile samples.quietLocal "etc/hosts" samples.servers
     samples.manifest "." true "diff_output").2 = [].
Proof.
  apply (C4_equal_checksums_no_diff _ _ _ _ _ _ _ "4444").
  - discriminate.
  - discriminate.
  - intros server Hin. apply list_elem_of_In in Hin. simpl in Hin.
    destruct Hin as [<-|[<-|[]]]; eexists; (split; [vm_compute; reflexivity|split; reflexivity]).
Defined.

(** ** Paths *)

Section path_facts.
Import filepath.

Lemma append_nil_l (s : string) : "" +:+ s = s.
Proof. done. Qed.

Lemma append_cons (c : ascii) (s t : string) : String c s +:+ t = String c (s +:+ t).
Proof. done. Qed.

Lemma append_assoc (s t u : string) : (s +:+ t) +:+ u = s +:+ (t +:+ u).
Proof. induction s as [|c s IH]; [done|]. by rewrite !append_cons, IH. Qed.

Lemma prefix_cons_cons (a b : ascii) (p s : string) :
  String.prefix (String a p) (String b s) =
  if ascii_dec a b then String.prefix p s else false.
Proof. done. Qed.

Lemma prefix_nil (s : string) : String.prefix "" s = true.
Proof. by destruct s. Qed.

Lemma prefix_inv (p s : string) : String.prefix p s = true → ∃ r, s = p +:+ r.
Proof.
  revert s. induction p as [|c p IH]; intros s Hp.
  - by exists s.
  - destruct s as [|c' s]; [done|]. simpl in Hp.
    destruct (ascii_dec c c') as [->|]; [|done].
    destruct (IH s Hp) as [r ->]. by exists r.
Qed.

Lemma prefix_append (p r : string) : String.prefix p (p +:+ r) = true.
Proof.
  induction p as [|c p IH]; [by destruct r|].
  rewrite append_cons. simpl. by destruct (ascii_dec c c).
Qed.

Lemma prefix_self_slash (s : string) : String.prefix (s +:+ "/") s = false.
Proof.
  induction s as [|c s IH]; [done|].
  rewrite append_cons. simpl. by destruct (ascii_dec c c).
Qed.

Lemma split_nonempty (s : string) : split s ≠ [].
Proof. destruct s as [|c s]; simpl; [done|]. by repeat case_match. Qed.

Lemma split_append (a b : string) :
  split (a +:+ String Separator b) = split a ++ split b.
Proof.
  induction a as [|c a IH].
  - done.
  - rewrite append_cons. simpl. rewrite IH.
    destruct (Ascii.eqb c Separator); [done|].
    pose proof (split_nonempty a). by destruct (split a).
Qed.

Lemma elements_append (a b : string) :
  osfs.elements (a +:+ String Separator b) = osfs.elements a ++ osfs.elements b.
Proof. unfold osfs.elements. by rewrite split_append, filter_app. Qed.

Lemma isRooted_append (a b : string) : a ≠ "" → isRooted (a +:+ b) = isRooted a.
Proof.
  destruct a as [|c a]; [done|]. intros _.
  unfold isRooted, strings.HasPrefix. rewrite append_cons.
  change "/" with (String Separator ""). rewrite !prefix_cons_cons.
  destruct (ascii_dec Separator c); [|done]. by rewrite !prefix_nil.
Qed.

Lemma Clean_nonempty (path : string) : Clean path ≠ "".
Proof.
  unfold Clean. destruct (String.eqb path ""); [done|].
  destruct (isRooted path); [done|].
  by destruct (String.eqb_spec (strings.Join (rev (fold_left (cleanStep false) (split path) [])) "/") "").
Qed.

(** *** The shape of a cleaned path *)

(** An element produced by [split] holds no separator. *)
Lemma split_element (path e : string) : e ∈ split path → split e = [e].
Proof.
  revert e. induction path as [|c rest IH]; intros e; simpl.
  - by intros ->%list_elem_of_singleton.
  - destruct (Ascii.eqb c Separator) eqn:Hc.
    + intros [->|Hin]%elem_of_cons; [done|]. by apply IH.
    + pose proof (split_nonempty rest) as Hne.
      destruct (split rest) as [|e0 es] eqn:Hrest; [done|].
      intros [->|Hin]%elem_of_cons.
      * simpl. rewrite Hc. rewrite (IH e0); [done|]. left.
      * apply IH. by right.
Qed.

Lemma cleanStack_nil rooted : cleanStack rooted [].
Proof.
  split; [by intros e ?%elem_of_nil|].
  exists [], 0. split; [done|]. split; [by intros ?%elem_of_nil|done].
Qed.

Lemma cleanStep_cleanStack rooted out e :
  split e = [e] → cleanStack rooted out → cleanStack rooted (cleanStep rooted out e).
Proof.
  intros He [Helems (names & k & -> & Hnames & Hk)]. unfold cleanStep.
  destruct (String.eqb_spec e "") as [|Hempty]; [by split; eauto 6|].
  destruct (String.eqb_spec e ".") as [|Hdot]; [by split; eauto 6|].
  destruct (String.eqb_spec e "..") as [->|Hdotdot].
  - destruct names as [|top names]; [destruct k as [|k]|]; simpl.
    + destruct rooted; [apply cleanStack_nil|].
      split; [by intros e ->%list_elem_of_singleton|].
      exists [], 1. split; [done|]. split; [by intros ?%elem_of_nil|done].
    + split.
      * intros e [->|Hin]%elem_of_cons; [done|]. by apply Helems.
      * exists [], (S (S k)). split; [done|]. split; [by intros ?%elem_of_nil|].
        intros Hr. by specialize (Hk Hr).
    + destruct (String.eqb_spec top "..") as [->|Htop].
      { exfalso. apply Hnames. left. }
      split.
      * intros e Hin. apply Helems. by right.
      * exists names, k. split; [done|]. split; [|done].
        intros Hin. apply Hnames. by right.
  - split.
    + intros e' [->|Hin]%elem_of_cons; [done|]. by apply Helems.
    + exists (e :: names), k. split; [done|]. split; [|done].
      intros [?|Hin]%elem_of_cons; [done|]. by apply Hnames.
Qed.

Lemma cleanStack_fold rooted elems : ∀ out,
  (∀ e, e ∈ elems → split e = [e]) → cleanStack rooted out →
  cleanStack rooted (fold_left (cleanStep rooted) elems out).
Proof.
  induction elems as [|e elems IH]; intros out Helems Hout; simpl; [done|].
  apply IH.
  - intros e' Hin. apply Helems. by right.
  - apply cleanStep_cleanStack; [|done]. apply Helems. left.
Qed.

Lemma elem_of_rev_list (l : list string) (x : string) : x ∈ rev l → x ∈ l.
Proof. rewrite !list_elem_of_In. apply in_rev. Qed.

(** Joining elements and splitting again. *)
Lemma elements_element (e : string) : e ≠ "" → split e = [e] → osfs.elements e = [e].
Proof.
  intros Hne He. unfold osfs.elements. rewrite He, filter_cons, filter_nil.
  by rewrite decide_True.
Qed.

Lemma elements_concat (elems : list string) :
  (∀ e, e ∈ elems → e ≠ "" ∧ split e = [e]) →
  osfs.elements (strings.Join elems "/") = elems.
Proof.
  unfold strings.Join. induction elems as [|e elems IH]; intros Helems; [done|].
  destruct (Helems e) as [Hne He]; [left|].
  destruct elems as [|e' elems]; [by apply elements_element|].
  change (String.concat "/" (e :: e' :: elems))
    with (e +:+ String Separator (String.concat "/" (e' :: elems))).
  rewrite elements_append, elements_element by done.
  rewrite IH; [done|]. intros x Hx. apply Helems. by right.
Qed.

Lemma concat_empty (elems : list string) :
  (∀ e, e ∈ elems → e ≠ "") → strings.Join elems "/" = "" → elems = [].
Proof.
  unfold strings.Join. destruct elems as [|e elems]; [done|]. intros Hne.
  assert (e ≠ "") as He by (apply Hne; left).
  destruct elems as [|e' elems]; simpl; [done|].
  destruct e; [done|]. by rewrite append_cons.
Qed.

Lemma concat_not_rooted (elems : list string) :
  (∀ e, e ∈ elems → e ≠ "" ∧ split e = [e]) →
  isRooted (strings.Join elems "/") = false.
Proof.
  unfold strings.Join. destruct elems as [|e elems]; [done|]. intros Helems.
  destruct (Helems e) as [Hne He]; [left|].
  destruct e as [|c e]; [done|].
  assert (Ascii.eqb c Separator = false) as Hc.
  { destruct (Ascii.eqb c Separator) eqn:Hc; [|done]. simpl in He. by rewrite Hc in He. }
  assert (∀ t, isRooted (String c t) = false) as Hrooted.
  { intros t. unfold isRooted, strings.HasPrefix.
    change "/" with (String Separator ""). rewrite prefix_cons_cons.
    destruct (ascii_dec Separator c) as [<-|]; [|done].
    by rewrite Ascii.eqb_refl in Hc. }
  destruct elems as [|e' elems]; simpl; [apply Hrooted|].
  rewrite append_cons. apply Hrooted.
Qed.

(** The elements of a cleaned path are some [..] elements followed by
    elements that are not [..]; a rooted cleaned path has no [..]. *)
Lemma Clean_shape (path : string) :
  ∃ names k,
    osfs.elements (Clean path) = replicate k ".." ++ names ∧ (".." ∉ names) ∧
    (isRooted (Clean path) = true → k = 0).
Proof.
  assert (∃ names k, ["."] = replicate k ".." ++ names ∧ (".." ∉ names) ∧
                     (isRooted "." = true → k = 0)) as Hdot.
  { exists ["."], 0. split; [done|]. split; [|done].
    by intros ?%list_elem_of_singleton. }
  unfold Clean. destruct (String.eqb path ""); [exact Hdot|].
  destruct (cleanStack_fold (isRooted path) (split path) []) as [Helems Hshape].
  { intros e. apply split_element. }
  { apply cleanStack_nil. }
  set (out := fold_left (cleanStep (isRooted path)) (split path) []) in *.
  assert (∀ e, e ∈ rev out → e ≠ "" ∧ split e = [e]) as Hrev.
  { intros e Hin. apply Helems. by apply elem_of_rev_list. }
  destruct Hshape as (names & k & Hout & Hnames & Hk).
  assert (rev out = replicate k ".." ++ rev names) as Hrevout.
  { rewrite Hout, rev_app_distr. f_equal.
    clear. induction k as [|k IH]; [done|]. simpl. rewrite IH.
    clear. induction k as [|k IH]; [done|]. simpl. by rewrite IH. }
  destruct (isRooted path) eqn:Hrooted.
  - exists (rev names), k. split; [|split].
    + change ("/" +:+ ?s) with ("" +:+ String Separator s).
      rewrite elements_append, elements_concat by done. by rewrite Hrevout.
    + intros Hin. apply Hnames. by apply elem_of_rev_list.
    + intros _. by apply Hk.
  - destruct (String.eqb_spec (strings.Join (rev out) "/") "") as [|Hne]; [exact Hdot|].
    exists (rev names), k. split; [|split].
    + rewrite elements_concat by done. by rewrite Hrevout.
    + intros Hin. apply Hnames. by apply elem_of_rev_list.
    + rewrite concat_not_rooted by done. done.
Qed.

Lemma Join_Clean (elem : list string) : Join elem = "" ∨ ∃ path, Join elem = Clean path.
Proof.
  induction elem as [|e rest IH]; [by left|].
  change (Join (e :: rest))
    with (if String.eqb e "" then Join rest else Clean (strings.Join (e :: rest) "/")).
  destruct (String.eqb e ""); [exact IH|]. right. by eexists.
Qed.

(** A [..] element of the path-shaped list lies among its first [k]. *)
Lemma no_dotdot_after (names : list string) (k n : nat) :
  ".." ∉ names → k ≤ n → ".." ∉ drop n (replicate k ".." ++ names).
Proof.
  intros Hnames Hkn Hin. apply Hnames.
  rewrite drop_app_ge in Hin by (rewrite length_replicate; lia).
  rewrite length_replicate in Hin. by apply (subseteq_drop (n - k) names).
Qed.

(** A target that passes the test of [ExtractTarGz] is within the
    destination, unless the destination is made of [..] elements only. *)
Lemma accepted_within dest elem :
  climbsOnly dest = false →
  strings.HasPrefix (Join elem) (Clean dest +:+ "/") = true →
  within dest (Join elem) = true.
Proof.
  intros Hclimbs Hprefix.
  destruct (Join_Clean elem) as [Hempty|[path Hpath]].
  { rewrite Hempty in Hprefix. unfold strings.HasPrefix in Hprefix.
    pose proof (Clean_nonempty dest). by destruct (Clean dest). }
  destruct (Clean_shape path) as (names & k & Hshape & Hnames & Hk).
  rewrite <- Hpath in Hshape, Hk. revert Hprefix Hshape Hk.
  generalize (Join elem) as target. intros target.
  unfold strings.HasPrefix. intros [r ->]%prefix_inv.
  rewrite append_assoc. change ("/" +:+ r) with (String Separator r).
  rewrite elements_append. intros Hshape Hk.
  assert (isRooted (Clean dest +:+ String Separator r) = isRooted (Clean dest)) as Hrooted.
  { apply isRooted_append, Clean_nonempty. }
  unfold within. apply bool_decide_eq_true.
  split; [done|]. rewrite elements_append.
  destruct (String.eqb_spec (Clean dest) ".") as [Hdot|Hdot].
  - split; [by eexists|].
    rewrite Hdot in Hshape |- *. change (osfs.elements ".") with ["."] in Hshape |- *.
    destruct k as [|k]; [|done]. cbn [replicate app length drop] in Hshape |- *.
    by rewrite Hshape.
  - split; [by apply prefix_app_r|].
    rewrite Hshape. apply no_dotdot_after; [done|].
    unfold climbsOnly in Hclimbs.
    destruct (osfs.elements (Clean dest)) as [|e es] eqn:Hbase.
    + (* the destination is the root *)
      apply Nat.le_0_r, Hk. rewrite Hrooted.
      unfold osfs.elements in Hbase.
      pose proof (Clean_nonempty dest) as Hne.
      destruct (Clean dest) as [|c rest]; [done|].
      unfold isRooted, strings.HasPrefix. change "/" with (String Separator "").
      rewrite prefix_cons_cons, prefix_nil.
      destruct (ascii_dec Separator c) as [|Hc]; [done|]. exfalso.
      simpl in Hbase. destruct (Ascii.eqb_spec c Separator) as [->|_]; [done|].
      pose proof (split_nonempty rest).
      destruct (split rest); [done|]. by rewrite filter_cons in Hbase.
    + (* some element of the destination is not [..] *)
      apply not_true_iff_false in Hclimbs.
      destruct (decide (k ≤ length (e :: es))) as [|Hlong]; [done|]. exfalso.
      apply Hclimbs, forallb_forall. intros x Hx%list_elem_of_In.
      apply list_elem_of_lookup in Hx as [i Hi].
      pose proof (lookup_lt_Some _ _ _ Hi) as Hlt.
      assert ((replicate k ".." ++ names) !! i = Some x) as Hx.
      { rewrite <- Hshape. by apply lookup_app_l_Some. }
      rewrite lookup_app_l in Hx by (rewrite length_replicate; lia).
      apply lookup_replicate in Hx as [-> _]. apply String.eqb_refl.
Qed.

(** An escaping name fails the test. *)
Lemma escapes_rejected dest name :
  climbsOnly dest = false →
  escapes dest name = true →
  strings.HasPrefix (Join [dest; name]) (Clean dest +:+ "/") = false.
Proof.
  unfold escapes. intros Hclimbs Hesc.
  destruct (strings.HasPrefix _ _) eqn:Hp; [|done].
  apply accepted_within in Hp; [|done]. by rewrite Hp in Hesc.
Qed.

End path_facts.

(** ** The file system *)

Section fs_facts.
Import osfs tar.

Lemma sameFiles_refl fs : sameFiles fs fs.
Proof. done. Qed.

Lemma sameFiles_outside dest fs fs' : sameFiles fs fs' → sameFilesOutside dest fs fs'.
Proof. intros (_ & _ & H) path content _. apply H. Qed.

Lemma sameFilesOutside_refl dest fs : sameFilesOutside dest fs fs.
Proof. done. Qed.

Lemma sameFilesOutside_trans dest fs1 fs2 fs3 :
  sameFilesOutside dest fs1 fs2 → sameFilesOutside dest fs2 fs3 →
  sameFilesOutside dest fs1 fs3.
Proof.
  intros H12 H23 path content Hout.
  by rewrite (H23 path content Hout), (H12 path content Hout).
Qed.

(** [os.MkdirAll] creates directories only: no regular file appears,
    disappears or changes. *)
Lemma mkdirAll_sameFiles chain : ∀ fs, sameFiles fs (mkdirAll fs chain).1.
Proof.
  induction chain as [|path parents IH]; intros fs; simpl.
  - apply sameFiles_refl.
  - destruct (nodes fs !! path) as [[content|]|] eqn:Hpath; try apply sameFiles_refl.
    specialize (IH fs). destruct (mkdirAll fs parents) as [fs' [e|]]; [done|].
    unfold Mkdir. destruct (decide (path ∈ refused fs')); [done|].
    destruct IH as (Hrefused & Hquota & Hfiles). simpl in *.
    split; [done|]. split; [done|].
    intros p c. unfold setNode. simpl. destruct (decide (path = p)) as [<-|Hne].
    + rewrite lookup_insert_eq, Hpath. split; intros; simplify_eq.
    + rewrite lookup_insert_ne by done. apply Hfiles.
Qed.

Lemma MkdirAll_sameFiles fs path : sameFiles fs (MkdirAll fs path).1.
Proof. apply mkdirAll_sameFiles. Qed.

Lemma OpenFile_other fs name path :
  path ≠ name → nodes (OpenFile fs name).1 !! path = nodes fs !! path.
Proof.
  intros Hne. unfold OpenFile.
  destruct (decide (name ∈ refused fs)); [done|].
  destruct (nodes fs !! name) as [[content|]|]; simpl;
    try done; by rewrite lookup_insert_ne.
Qed.

Lemma Copy_other fs target e path :
  path ≠ target → nodes (Copy fs target e).1 !! path = nodes fs !! path.
Proof.
  intros Hne. unfold Copy.
  destruct (quota fs !! target) as [n|]; [destruct (Nat.ltb _ _)|]; simpl;
    by rewrite lookup_insert_ne.
Qed.

End fs_facts.

(** ** Extraction (part_002) *)

Section extraction.
Import osfs tar util.

Lemma extractEntry_outside fs dest e :
  climbsOnly dest = false →
  sameFilesOutside dest fs (extractEntry fs dest e).1.
Proof.
  intros Hclimbs. unfold extractEntry.
  destruct (strings.HasPrefix _ _) eqn:Hcheck; simpl; [|apply sameFilesOutside_refl].
  apply accepted_within in Hcheck; [|done].
  set (target := filepath.Join [dest; Name (header e)]) in *.
  destruct (Typeflag (header e)); try apply sameFilesOutside_refl.
  - pose proof (MkdirAll_sameFiles fs (filepath.Dir target)) as Hmk.
    destruct (MkdirAll fs (filepath.Dir target)) as [fs' [cause|]]; simpl in *.
    { by apply sameFiles_outside. }
    eapply sameFilesOutside_trans; [by apply sameFiles_outside|].
    assert (∀ path fs1, within dest path = false →
              nodes (Copy (OpenFile fs1 target).1 target e).1 !! path
              = nodes (OpenFile fs1 target).1 !! path) as Hcopy.
    { intros path fs1 Hout. apply Copy_other. intros ->. congruence. }
    destruct (OpenFile fs' target) as [fs'' [cause|]] eqn:Hopen; simpl.
    + intros path content Hout.
      replace fs'' with (OpenFile fs' target).1 by (by rewrite Hopen).
      rewrite OpenFile_other; [done|]. intros ->. congruence.
    + intros path content Hout.
      replace fs'' with (OpenFile fs' target).1 by (by rewrite Hopen).
      rewrite Hcopy by done.
      rewrite OpenFile_other; [done|]. intros ->. congruence.
  - pose proof (MkdirAll_sameFiles fs target) as Hmk.
    destruct (MkdirAll fs target) as [fs' [cause|]]; by apply sameFiles_outside.
Qed.

Lemma extractLoop_outside dest members ending :
  climbsOnly dest = false →
  ∀ fs, sameFilesOutside dest fs (extractLoop fs dest members ending).1.
Proof.
  intros Hclimbs. induction members as [|e rest IH]; intros fs; simpl.
  - destruct ending; apply sameFilesOutside_refl.
  - pose proof (extractEntry_outside fs dest e Hclimbs) as He.
    destruct (extractEntry fs dest e) as [fs' [err|]]; [done|].
    destruct (readError e); [done|].
    eapply sameFilesOutside_trans; [exact He|apply IH].
Qed.

(** Unless the destination is made of [..] elements only, no run of
    [ExtractTarGz] creates, removes or changes a regular file outside the
    destination. *)
Lemma ExtractTarGz_outside fs gzipStream dest :
  climbsOnly dest = false →
  sameFilesOutside dest fs (ExtractTarGz fs gzipStream dest).1.
Proof.
  intros Hclimbs. unfold ExtractTarGz. destruct (gzipError gzipStream).
  - apply sameFilesOutside_refl.
  - by apply extractLoop_outside.
Qed.

Lemma extractLoop_app dest before after ending : ∀ fs,
  extractLoop fs dest (before ++ after) ending =
  match extractLoop fs dest before None with
  | (fs', None) => extractLoop fs' dest after ending
  | (fs', Some err) => (fs', Some err)
  end.
Proof.
  induction before as [|e before IH]; intros fs; simpl; [done|].
  destruct (extractEntry fs dest e) as [fs' [err|]]; [done|].
  destruct (readError e); [done|]. apply IH.
Qed.

Lemma extractEntry_escaping fs dest e :
  climbsOnly dest = false →
  escapes dest (Name (header e)) = true →
  extractEntry fs dest e = (fs, Some (ErrInvalidPath (Name (header e)))).
Proof.
  intros Hclimbs Hesc. unfold extractEntry.
  by rewrite (escapes_rejected _ _ Hclimbs Hesc).
Qed.

(** Where the test holds: for a destination that is not made of [..]
    elements only, an entry of the archive whose target escapes the
    destination makes [ExtractTarGz] return an error; it is the path
    error naming that entry when the entries before it were extracted
    without error; and no regular file outside the destination is
    created, removed or changed. *)
Theorem escaping_entry_rejected fs gzipStream dest before e after :
  climbsOnly dest = false →
  entries gzipStream = before ++ e :: after →
  escapes dest (Name (header e)) = true →
  (∃ err, (ExtractTarGz fs gzipStream dest).2 = Some err) ∧
  ((ExtractTarGz fs (mkArchive (gzipError gzipStream) before None) dest).2 = None →
   (ExtractTarGz fs gzipStream dest).2 = Some (ErrInvalidPath (Name (header e)))) ∧
  sameFilesOutside dest fs (ExtractTarGz fs gzipStream dest).1.
Proof.
  intros Hclimbs Hentries Hesc.
  split; [|split; [|by apply ExtractTarGz_outside]].
  - unfold ExtractTarGz. destruct (gzipError gzipStream); [by eexists|].
    rewrite Hentries, extractLoop_app.
    destruct (extractLoop fs dest before None) as [fs' [err|]]; [by eexists|].
    simpl. rewrite extractEntry_escaping by done. by eexists.
  - unfold ExtractTarGz. simpl. destruct (gzipError gzipStream); [done|].
    rewrite Hentries, extractLoop_app.
    destruct (extractLoop fs dest before None) as [fs' [err|]]; [done|].
    intros _. simpl. by rewrite extractEntry_escaping.
Qed.


End extraction.

Lemma escaping_entry_rejected_witness :
  (∃ err, (util.ExtractTarGz samples.emptyFS samples.hostile "/out").2 = Some err) ∧
  ((util.ExtractTarGz samples.emptyFS
      (tar.mkArchive None
         [samples.directory "etc/"; samples.regular "etc/foo.conf" "a=1"] None) "/out").2 = None →
   (util.ExtractTarGz samples.emptyFS samples.hostile "/out").2
   = Some (ErrInvalidPath "../../etc/passwd")) ∧
  sameFilesOutside "/out" samples.emptyFS
    (util.ExtractTarGz samples.emptyFS samples.hostile "/out").1.
Proof.
  apply (escaping_entry_rejected samples.emptyFS samples.hostile "/out"
           [samples.directory "etc/"; samples.regular "etc/foo.conf" "a=1"]
           (samples.regular "../../etc/passwd" "root") []).
  - vm_compute. reflexivity.
  - reflexivity.
  - vm_compute. reflexivity.
Defined.

(** ** The root entry and the failed copy *)

Section root_entry.
Import filepath osfs tar.

Lemma Clean_append_root dest name :
  dest ≠ "" → name = "." ∨ name = "./" →
  Clean (dest +:+ "/" +:+ name) = Clean dest.
Proof.
  intros Hne Hname. unfold Clean.
  change ("/" +:+ name) with (String Separator name).
  rewrite isRooted_append by done. rewrite split_append, fold_left_app.
  assert (∀ out, fold_left (cleanStep (isRooted dest)) (split name) out = out) as ->.
  { intros out. by destruct Hname as [->| ->]. }
  destruct dest as [|c dest]; [done|]. by rewrite append_cons.
Qed.

(** The root entry resolves to the destination itself. *)
Lemma Join_root dest name :
  name = "." ∨ name = "./" → Join [dest; name] = Clean dest.
Proof.
  intros Hname. destruct (decide (dest = "")) as [->|Hne].
  - by destruct Hname as [->| ->].
  - unfold Join. destruct (String.eqb_spec dest ""); [done|].
    unfold strings.Join. simpl. by apply Clean_append_root.
Qed.

(** [ExtractTarGz] of part_002 rejects the root entry: the
    destination does not start with itself followed by a separator. *)
Lemma extractEntry_root fs dest e :
  Name (header e) = "." ∨ Name (header e) = "./" →
  util.extractEntry fs dest e = (fs, Some (ErrInvalidPath (Name (header e)))).
Proof.
  intros Hname. unfold util.extractEntry.
  rewrite (Join_root dest _ Hname). unfold strings.HasPrefix.
  by rewrite prefix_self_slash.
Qed.

(** C2 fails on part_002. For the archive that the collection
    script produces, whose first member is [./], [ExtractTarGz] stops at
    that member with the path error and extracts nothing. *)
Theorem C2_root_entry_not_skipped :
  util.ExtractTarGz samples.emptyFS samples.collected "/out"
  = (samples.emptyFS, Some (ErrInvalidPath "./")).
Proof.
  unfold util.ExtractTarGz, samples.collected.
  cbn [gzipError entries ending util.extractLoop].
  rewrite extractEntry_root; [done|]. by right.
Qed.

Lemma fixed_extractLoop_app dest cleanDest before after ending : ∀ fs,
  util_fixed.extractLoop fs dest cleanDest (before ++ after) ending =
  match util_fixed.extractLoop fs dest cleanDest before None with
  | (fs', None) => util_fixed.extractLoop fs' dest cleanDest after ending
  | (fs', Some err) => (fs', Some err)
  end.
Proof.
  induction before as [|e before IH]; intros fs; simpl; [done|].
  destruct (util_fixed.extractEntry fs dest cleanDest e) as [fs' [err|]]; [done|].
  destruct (readError e); [done|]. apply IH.
Qed.

(** X1. The copy of [ExtractTarGz] kept with go.mod skips the root entry:
    with it or without it, the result and the file system are the same. *)
Lemma fixed_root_entry_skipped fs gzipError before root after ending dest :
  Name (header root) = "." ∨ Name (header root) = "./" →
  readError root = None →
  util_fixed.ExtractTarGz fs (mkArchive gzipError (before ++ root :: after) ending) dest =
  util_fixed.ExtractTarGz fs (mkArchive gzipError (before ++ after) ending) dest.
Proof.
  intros Hname Hread. unfold util_fixed.ExtractTarGz. simpl.
  destruct gzipError; [done|].
  destruct (MkdirAll fs dest) as [fs' [cause|]]; [done|].
  rewrite !fixed_extractLoop_app.
  destruct (util_fixed.extractLoop fs' dest (Clean dest) before None) as [fs'' [err|]]; [done|].
  simpl. unfold util_fixed.extractEntry at 1.
  assert (String.eqb (Name (header root)) "." || String.eqb (Name (header root)) "./" = true)
    as ->.
  { by destruct Hname as [->| ->]. }
  by rewrite Hread.
Qed.

End root_entry.

Section failed_copy.
Import filepath osfs tar.

Lemma Copy_target fs target e :
  ∃ written, nodes (Copy fs target e).1 !! target = Some (File written).
Proof.
  unfold Copy. destruct (quota fs !! target) as [n|]; [destruct (Nat.ltb _ _)|];
    simpl; rewrite lookup_insert_eq; by eexists.
Qed.

(** In part_002 a failed copy changes nothing in what the
    entry returns, and what was written stays in place. *)
Lemma extractEntry_failed_copy fs dest e fs1 fs2 cause :
  let target := Join [dest; Name (header e)] in
  Typeflag (header e) = TypeReg →
  strings.HasPrefix target (Clean dest +:+ "/") = true →
  MkdirAll fs (Dir target) = (fs1, None) →
  OpenFile fs1 target = (fs2, None) →
  (Copy fs2 target e).2 = Some cause →
  (util.extractEntry fs dest e).2 = None ∧
  ∃ written, nodes (util.extractEntry fs dest e).1 !! target = Some (File written).
Proof.
  intros target Htype Hcheck Hmkdir Hopen Hcopy. unfold util.extractEntry.
  fold target. rewrite Hcheck, Htype. simpl. rewrite Hmkdir, Hopen. simpl.
  split; [done|]. apply Copy_target.
Qed.

Lemma extractEntry_no_ErrCopy fs dest e target cause :
  (util.extractEntry fs dest e).2 ≠ Some (ErrCopy target cause).
Proof.
  unfold util.extractEntry. repeat (case_match; simpl; try done).
Qed.

(** X5. [ExtractTarGz] of part_002 never returns the error of a
    copy. *)
Lemma ExtractTarGz_no_ErrCopy fs gzipStream dest target cause :
  (util.ExtractTarGz fs gzipStream dest).2 ≠ Some (ErrCopy target cause).
Proof.
  unfold util.ExtractTarGz. destruct (gzipError gzipStream); [done|].
  generalize (ending gzipStream) as ending. revert fs.
  induction (entries gzipStream) as [|e rest IH]; intros fs ending; simpl.
  - by destruct ending.
  - pose proof (extractEntry_no_ErrCopy fs dest e target cause) as He.
    destruct (util.extractEntry fs dest e) as [fs' [err|]]; [done|].
    destruct (readError e); [done|]. apply IH.
Qed.

(** C3 fails on part_002. The write to [/out/etc/foo.conf]
    fails after two of the five bytes: [ExtractTarGz] returns nil and the
    two bytes stay in the file. When the stream breaks inside the body, the
    bytes read stay in the file and the error returned is that of the next
    header, not of the copy. *)
Theorem C3_partial_file_kept :
  (util.ExtractTarGz samples.fullDisk samples.oneFile "/out").2 = None ∧
  nodes (util.ExtractTarGz samples.fullDisk samples.oneFile "/out").1 !! "/out/etc/foo.conf"
    = Some (File "he") ∧
  (util.ExtractTarGz samples.emptyFS samples.truncated "/out").2
    = Some (ErrTarHeader "unexpected EOF") ∧
  nodes (util.ExtractTarGz samples.emptyFS samples.truncated "/out").1 !! "/out/etc/foo.conf"
    = Some (File "hel").
Proof. repeat split; vm_compute; reflexivity. Qed.

(** X2. The copy of [ExtractTarGz] kept with go.mod removes the file and
    returns the error of the copy. *)
Lemma fixed_extractEntry_failed_copy fs dest cleanDest e fs1 fs2 cause :
  let target := Join [cleanDest; Name (header e)] in
  Name (header e) ≠ "." → Name (header e) ≠ "./" →
  Typeflag (header e) = TypeReg →
  strings.HasPrefix target (cleanDest +:+ "/") = true →
  MkdirAll fs (Dir target) = (fs1, None) →
  OpenFile fs1 target = (fs2, None) →
  (Copy fs2 target e).2 = Some cause →
  (util_fixed.extractEntry fs dest cleanDest e).2 = Some (ErrCopy target cause) ∧
  nodes (util_fixed.extractEntry fs dest cleanDest e).1 !! target = None.
Proof.
  intros target Hdot Hdotslash Htype Hcheck Hmkdir Hopen Hcopy.
  unfold util_fixed.extractEntry. fold target.
  destruct (String.eqb_spec (Name (header e)) "."); [done|].
  destruct (String.eqb_spec (Name (header e)) "./"); [done|].
  rewrite Hcheck, Htype. simpl. rewrite Hmkdir, Hopen.
  destruct (Copy fs2 target e) as [fs3 copyErr]. simpl in Hcopy. subst copyErr.
  simpl. split; [done|]. apply lookup_delete_eq.
Qed.

Lemma fixed_failed_copy_sample :
  util_fixed.ExtractTarGz samples.fullDisk samples.oneFile "/out"
  = (mkFS {[ "/out" := Directory; "/out/etc" := Directory ]} ∅ {[ "/out/etc/foo.conf" := 2 ]},
     Some (ErrCopy "/out/etc/foo.conf" "short write")).
Proof. vm_compute. reflexivity. Qed.

End failed_copy.

(** ** Extraction, the copy with the fixes *)

Section extraction_fixed.
Import filepath osfs tar util_fixed.

Lemma within_self dest : within dest (Clean dest) = true.
Proof.
  unfold within. destruct (String.eqb_spec (Clean dest) ".") as [->|Hdot]; [done|].
  apply bool_decide_eq_true. split; [done|]. split; [done|].
  rewrite drop_all. apply not_elem_of_nil.
Qed.

Lemma Remove_other fs name path :
  path ≠ name → nodes (Remove fs name) !! path = nodes fs !! path.
Proof. intros Hne. simpl. by rewrite lookup_delete_ne. Qed.

Lemma fixed_extractEntry_outside fs dest e :
  climbsOnly dest = false →
  sameFilesOutside dest fs (extractEntry fs dest (Clean dest) e).1.
Proof.
  intros Hclimbs. unfold extractEntry.
  destruct (_ || _); [apply sameFilesOutside_refl|].
  set (target := Join [Clean dest; Name (header e)]).
  destruct (negb (strings.HasPrefix target (Clean dest +:+ "/")) &&
            negb (String.eqb target (Clean dest))) eqn:Hcheck;
    [apply sameFilesOutside_refl|].
  assert (within dest target = true) as Hin.
  { apply andb_false_iff in Hcheck as [Hp|Heq].
    - apply accepted_within; [done|]. by apply negb_false_iff.
    - apply negb_false_iff, String.eqb_eq in Heq. rewrite Heq. apply within_self. }
  destruct (Typeflag (header e)); try apply sameFilesOutside_refl.
  - pose proof (MkdirAll_sameFiles fs (Dir target)) as Hmk.
    destruct (MkdirAll fs (Dir target)) as [fs' [cause|]]; simpl in *.
    { by apply sameFiles_outside. }
    eapply sameFilesOutside_trans; [by apply sameFiles_outside|].
    intros path content Hout.
    assert (path ≠ target) as Hne by (intros ->; congruence).
    pose proof (OpenFile_other fs' target path Hne) as Hopen.
    destruct (OpenFile fs' target) as [fs'' [cause|]]; simpl in *; [by rewrite Hopen|].
    pose proof (Copy_other fs'' target e path Hne) as Hcopy.
    destruct (Copy fs'' target e) as [fs3 [copyErr|]]; simpl in *.
    + by rewrite lookup_delete_ne, Hcopy, Hopen.
    + by rewrite Hcopy, Hopen.
  - pose proof (MkdirAll_sameFiles fs target) as Hmk.
    destruct (MkdirAll fs target) as [fs' [cause|]]; by apply sameFiles_outside.
Qed.

Lemma fixed_extractLoop_outside dest members ending :
  climbsOnly dest = false →
  ∀ fs, sameFilesOutside dest fs (extractLoop fs dest (Clean dest) members ending).1.
Proof.
  intros Hclimbs. induction members as [|e rest IH]; intros fs; simpl.
  - destruct ending; apply sameFilesOutside_refl.
  - pose proof (fixed_extractEntry_outside fs dest e Hclimbs) as He.
    destruct (extractEntry fs dest (Clean dest) e) as [fs' [err|]]; [done|].
    destruct (readError e); [done|].
    eapply sameFilesOutside_trans; [exact He|apply IH].
Qed.

Lemma fixed_ExtractTarGz_outside fs gzipStream dest :
  climbsOnly dest = false →
  sameFilesOutside dest fs (ExtractTarGz fs gzipStream dest).1.
Proof.
  intros Hclimbs.
  unfold ExtractTarGz. destruct (gzipError gzipStream); [apply sameFilesOutside_refl|].
  pose proof (MkdirAll_sameFiles fs dest) as Hmk.
  destruct (MkdirAll fs dest) as [fs' [cause|]]; simpl in *.
  - by apply sameFiles_outside.
  - eapply sameFilesOutside_trans; [by apply sameFiles_outside|].
    by apply fixed_extractLoop_outside.
Qed.

(** X3. For a destination that is not made of [..] elements only, the
    copy with the fixes returns an error when an entry (other than the
    root entry) resolves to a target that is not within the destination;
    the error names the entry and the destination when the entries before
    it were extracted; and no regular file outside the destination is
    created, removed or changed. *)
Lemma fixed_escaping_entry_rejected fs gzipStream dest before e after :
  climbsOnly dest = false →
  entries gzipStream = before ++ e :: after →
  Name (header e) ≠ "." → Name (header e) ≠ "./" →
  within dest (Join [Clean dest; Name (header e)]) = false →
  (∃ err, (ExtractTarGz fs gzipStream dest).2 = Some err) ∧
  ((ExtractTarGz fs (mkArchive (gzipError gzipStream) before None) dest).2 = None →
   (ExtractTarGz fs gzipStream dest).2 = Some (ErrEscape (Name (header e)) dest)) ∧
  sameFilesOutside dest fs (ExtractTarGz fs gzipStream dest).1.
Proof.
  intros Hclimbs Hentries Hdot Hdotslash Hesc.
  assert (∀ fs', extractEntry fs' dest (Clean dest) e
                 = (fs', Some (ErrEscape (Name (header e)) dest))) as Hreject.
  { intros fs'. unfold extractEntry.
    destruct (String.eqb_spec (Name (header e)) "."); [done|].
    destruct (String.eqb_spec (Name (header e)) "./"); [done|]. simpl.
    destruct (strings.HasPrefix _ _) eqn:Hp.
    { apply accepted_within in Hp; [|done]. congruence. }
    destruct (String.eqb_spec (Join [Clean dest; Name (header e)]) (Clean dest)) as [Heq|];
      [|done].
    rewrite Heq, within_self in Hesc. done. }
  split; [|split; [|by apply fixed_ExtractTarGz_outside]].
  - unfold ExtractTarGz. destruct (gzipError gzipStream); [by eexists|].
    destruct (MkdirAll fs dest) as [fs' [cause|]]; [by eexists|].
    rewrite Hentries, fixed_extractLoop_app.
    destruct (extractLoop fs' dest (Clean dest) before None) as [fs'' [err|]]; [by eexists|].
    simpl. rewrite Hreject. by eexists.
  - unfold ExtractTarGz. simpl. destruct (gzipError gzipStream); [done|].
    destruct (MkdirAll fs dest) as [fs' [cause|]]; [done|].
    rewrite Hentries, fixed_extractLoop_app.
    destruct (extractLoop fs' dest (Clean dest) before None) as [fs'' [err|]]; [done|].
    intros _. simpl. by rewrite Hreject.
Qed.

(** With a destination made of [..] elements the copy with the fixes
    lets the same entry through as part_002 does. *)
Example fixed_escape_above_parent_accepted :
  ExtractTarGz parentDirs climbing ".." =
  (mkFS {[ ".." := Directory; "../.." := Directory; "../../passwd" := File "root" ]} ∅ ∅,
   None).
Proof. vm_compute. reflexivity. Qed.

End extraction_fixed.

(** ** Connecting *)

Section connect.
Import sshutil.






End connect.


(** ** Collection *)

Section collection.
Import config collect.

(** Whether [collectFromServer] fails does not depend on the manifest it
    is given. *)
Lemma collectFromServer_error h server cfg outputDir manifest manifest' :
  (collectFromServer h server cfg outputDir manifest).2 =
  (collectFromServer h server cfg outputDir manifest').2.
Proof. unfold collectFromServer. repeat (case_match; try done). Qed.

Lemma runTask_errors_nil hosts cfg outputDir tasks : ∀ acc,
  (fold_left (runTask hosts cfg outputDir) tasks acc).2 = [] ↔
  acc.2 = [] ∧
  ∀ task, task ∈ tasks →
    (collectFromServer (hosts task.1) task.2 cfg outputDir NewManifest).2 = None.
Proof.
  induction tasks as [|task tasks IH]; intros acc; simpl.
  - split; [|by intros []]. split; [done|]. by intros ? ?%elem_of_nil.
  - rewrite IH. unfold runTask.
    pose proof (collectFromServer_error (hosts task.1) task.2 cfg outputDir
                  acc.1 NewManifest) as Hindep.
    destruct (collectFromServer (hosts task.1) task.2 cfg outputDir acc.1)
      as [manifest [err|]]; simpl in *.
    + split.
      * intros [Hnil _]. by destruct (acc.2).
      * intros [_ Hall]. specialize (Hall task (list_elem_of_here _ _)). congruence.
    + split.
      * intros [Hnil Hall]. split; [done|].
        intros t [->|Hin]%elem_of_cons; [done|by apply Hall].
      * intros [Hnil Hall]. split; [done|].
        intros t Hin. apply Hall. by right.
Qed.

Lemma elem_of_tasks (servers : list string) i server :
  (i, server) ∈ imap (λ i server, (i, server)) servers ↔ servers !! i = Some server.
Proof.
  rewrite elem_of_lookup_imap. split.
  - intros (j & s & Heq & Hlook). by simplify_eq.
  - intros Hlook. by exists i, server.
Qed.

(** C6. When [RunCollection] returns, it reports success only if the
    collection of every host succeeded; a manifest is saved only in a run
    that reports success; and when the collection of some host fails, the
    run reports failure and no manifest is saved. It does not return only
    when the semaphore has no unit to give to any goroutine. *)
Theorem C6_success_only_if_all_hosts hosts saveManifest sched cfg outputDir maxConcurrency :
  match RunCollection hosts saveManifest sched cfg outputDir maxConcurrency with
  | Some run =>
      (success run = true →
       ∀ i server manifest, Servers cfg !! i = Some server →
         (collectFromServer (hosts i) server cfg outputDir manifest).2 = None) ∧
      (is_Some (saved run) → success run = true) ∧
      (∀ i server manifest err, Servers cfg !! i = Some server →
         (collectFromServer (hosts i) server cfg outputDir manifest).2 = Some err →
         success run = false ∧ saved run = None)
  | None => (maxConcurrency < 1)%Z ∧ Servers cfg ≠ []
  end.
Proof.
  unfold RunCollection.
  destruct ((maxConcurrency <? 1)%Z && negb (Nat.eqb (length (Servers cfg)) 0)) eqn:Hblock.
  { apply andb_true_iff in Hblock as [Hlt%Z.ltb_lt Hlen%negb_true_iff%Nat.eqb_neq].
    split; [done|]. by destruct (Servers cfg). }
  pose proof (runTask_errors_nil hosts cfg outputDir
                (goroutines.scheduled sched (imap (λ i server, (i, server)) (Servers cfg)))
                (NewManifest, [])) as Hnil.
  destruct (fold_left _ _ _) as [manifest errs]. simpl in Hnil.
  assert (errs = [] →
          ∀ i server manifest', Servers cfg !! i = Some server →
            (collectFromServer (hosts i) server cfg outputDir manifest').2 = None) as Hall.
  { intros Herrs i server manifest' Hlook.
    rewrite (collectFromServer_error _ _ _ _ manifest' NewManifest).
    apply proj1 in Hnil. destruct (Hnil Herrs) as [_ Htasks].
    apply (Htasks (i, server)).
    rewrite scheduled_Permutation. by apply elem_of_tasks. }
  assert (errs = [] →
          ∀ i server manifest' err, Servers cfg !! i = Some server →
            (collectFromServer (hosts i) server cfg outputDir manifest').2 = Some err →
            False) as Hnone.
  { intros Herrs i server manifest' err Hlook Herr.
    by rewrite (Hall Herrs i server manifest' Hlook) in Herr. }
  destruct errs as [|e errs]; simpl.
  - destruct (saveManifest manifest); simpl; (split; [|split]).
    + done.
    + by intros [? ?].
    + intros i server manifest' err Hlook Herr. by destruct (Hnone eq_refl _ _ _ _ Hlook Herr).
    + intros _. by apply Hall.
    + done.
    + intros i server manifest' err Hlook Herr. by destruct (Hnone eq_refl _ _ _ _ Hlook Herr).
  - split; [done|]. split; [by intros [? ?]|done].
Qed.

End collection.

(** ** Missing markers *)

Section markers.
Import config collect.

Lemma length_append (s t : string) :
  String.length (s +:+ t) = String.length s + String.length t.
Proof. induction s as [|c s IH]; [done|]. rewrite append_cons. simpl. by rewrite IH. Qed.

Lemma substring_all (s : string) : substring 0 (String.length s) s = s.
Proof. induction s as [|c s IH]; [done|]. simpl. by rewrite IH. Qed.

Lemma substring_append_r (s t : string) :
  substring (String.length s) (String.length t) (s +:+ t) = t.
Proof.
  induction s as [|c s IH]; [apply substring_all|].
  rewrite append_cons. simpl. apply IH.
Qed.

Lemma substring_append_l (s t : string) :
  substring 0 (String.length s) (s +:+ t) = s.
Proof.
  induction s as [|c s IH]; [by destruct t|].
  rewrite append_cons. simpl. by rewrite IH.
Qed.

Lemma HasSuffix_append (s suffix : string) : strings.HasSuffix (s +:+ suffix) suffix = true.
Proof.
  unfold strings.HasSuffix. rewrite length_append.
  replace (String.length s + String.length suffix - String.length suffix)
    with (String.length s) by lia.
  rewrite substring_append_r, String.eqb_refl, andb_true_r.
  apply Nat.leb_le. lia.
Qed.

Lemma TrimSuffix_append (s suffix : string) : strings.TrimSuffix (s +:+ suffix) suffix = s.
Proof.
  unfold strings.TrimSuffix. rewrite HasSuffix_append, length_append.
  replace (String.length s + String.length suffix - String.length suffix)
    with (String.length s) by lia.
  apply substring_append_l.
Qed.

(** A marker of a missing file: the record goes under the path of the
    file, whatever the digest of the marker would be. *)
Lemma walkFn_file_marker server manifest p digest :
  strings.HasSuffix p "DIRECTORY.MISSING" = false →
  walkFn server manifest (mkVisit (p +:+ ".MISSING") false None digest)
  = (AddFile manifest server p "" "Missing on remote", None).
Proof.
  intros Hp. unfold walkFn, filepath.ToSlash. simpl.
  rewrite HasSuffix_append. simpl. rewrite TrimSuffix_append.
  unfold strings.TrimSuffix at 1. by rewrite Hp.
Qed.

Lemma substring_split (n m : nat) : ∀ s : string,
  n + m = String.length s → s = substring 0 n s +:+ substring n m s.
Proof.
  induction n as [|n IH]; intros s Hlen.
  - simpl in Hlen. subst m. rewrite substring_all. by destruct s.
  - destruct s as [|c s]; [done|]. simpl in Hlen.
    cbn [substring]. rewrite append_cons. f_equal. apply IH. lia.
Qed.

Lemma HasSuffix_inv (s suffix : string) :
  strings.HasSuffix s suffix = true → ∃ r, s = r +:+ suffix.
Proof.
  unfold strings.HasSuffix. intros [Hlen%Nat.leb_le Heq%String.eqb_eq]%andb_true_iff.
  exists (substring 0 (String.length s - String.length suffix) s).
  etrans; [apply (substring_split (String.length s - String.length suffix)
                    (String.length suffix)); lia|].
  by rewrite Heq.
Qed.

Lemma list_ascii_of_append (s t : string) :
  list_ascii_of_string (s +:+ t) = list_ascii_of_string s ++ list_ascii_of_string t.
Proof. induction s as [|c s IH]; [done|]. rewrite append_cons. simpl. by rewrite IH. Qed.

(** X6. A marker of a missing directory: only [.MISSING] is stripped, so the
    record goes under the path of the directory followed by [DIRECTORY]. *)
Lemma walkFn_directory_marker server manifest p digest :
  walkFn server manifest (mkVisit (p +:+ "DIRECTORY.MISSING") false None digest)
  = (AddFile manifest server (p +:+ "DIRECTORY") "" "Missing on remote", None).
Proof.
  change "DIRECTORY.MISSING" with ("DIRECTORY" +:+ ".MISSING") at 1.
  rewrite <- append_assoc. apply walkFn_file_marker.
  destruct (strings.HasSuffix _ _) eqn:Hsuffix; [|done].
  apply HasSuffix_inv in Hsuffix as [r Hr].
  apply (f_equal (λ s, last (list_ascii_of_string s))) in Hr.
  rewrite !list_ascii_of_append in Hr.
  change (list_ascii_of_string "DIRECTORY")
    with (list_ascii_of_string "DIRECTOR" ++ ["Y"%char]) in Hr.
  change (list_ascii_of_string "DIRECTORY.MISSING")
    with (list_ascii_of_string "DIRECTORY.MISSIN" ++ ["G"%char]) in Hr.
  rewrite !app_assoc, !last_snoc in Hr. done.
Qed.

(** A path with an error record on a configured server is not compared. *)
Lemma error_record_excluded range servers manifest server p checksum errorText :
  (∀ (V : Type) (m : gmap string V), range V m ≡ₚ map_to_list m) →
  server ∈ servers → errorText ≠ "" →
  p ∉ analyze.getFilesToCompare range servers (AddFile manifest server p checksum errorText).
Proof.
  intros Hrange Hin Herr. rewrite elem_of_getFilesToCompare by done.
  intros [_ Hall]. specialize (Hall server Hin).
  unfold analyze.presentOn in Hall. rewrite AddFile_lookup_server, lookup_insert_eq in Hall.
  simpl in Hall. by apply String.eqb_eq in Hall.
Qed.

(** X4. The marker of a missing file is turned into an error record under the
    path of the file, and that path is then out of the comparison set of
    every server list that holds the server. *)
Lemma file_marker_recorded_and_excluded range servers server manifest p digest :
  (∀ (V : Type) (m : gmap string V), range V m ≡ₚ map_to_list m) →
  strings.HasSuffix p "DIRECTORY.MISSING" = false →
  server ∈ servers →
  walkFn server manifest (mkVisit (p +:+ ".MISSING") false None digest)
    = (AddFile manifest server p "" "Missing on remote", None) ∧
  p ∉ analyze.getFilesToCompare range servers
        (walkFn server manifest (mkVisit (p +:+ ".MISSING") false None digest)).1.
Proof.
  intros Hrange Hp Hin. rewrite walkFn_file_marker by done.
  split; [done|]. by apply error_record_excluded.
Qed.

(** C5 fails on the markers of missing directories. The script marks a
    missing directory [/etc/nginx] with the file
    [/etc/nginxDIRECTORY.MISSING]; for it [walkFn] strips [.MISSING] only
    and records the error under [etc/nginxDIRECTORY], and [etc/nginx] gets
    no record. *)
Theorem C5_directory_marker_keeps_suffix :
  walkFn "A" NewManifest (mkVisit "etc/nginxDIRECTORY.MISSING" false None (inl "e3b0c442"))
  = (AddFile NewManifest "A" "etc/nginxDIRECTORY" "" "Missing on remote", None) ∧
  GetFileInfo
    (walkFn "A" NewManifest
       (mkVisit "etc/nginxDIRECTORY.MISSING" false None (inl "e3b0c442"))).1
    "A" "etc/nginx" = (FileInfo_zero, false).
Proof. split; vm_compute; reflexivity. Qed.

End markers.

Lemma file_marker_witness :
  collect.walkFn "B" samples.manifest
      (collect.mkVisit ("etc/f1" +:+ ".MISSING") false None (inl "e3b0c442"))
    = (config.AddFile samples.manifest "B" "etc/f1" "" "Missing on remote", None) ∧
  "etc/f1" ∉ analyze.getFilesToCompare samples.inKeyOrder samples.servers
        (collect.walkFn "B" samples.manifest
           (collect.mkVisit ("etc/f1" +:+ ".MISSING") false None (inl "e3b0c442"))).1.
Proof.
  apply (file_marker_recorded_and_excluded samples.inKeyOrder samples.servers "B"
           samples.manifest "etc/f1" (inl "e3b0c442")).
  - intros V m. reflexivity.
  - vm_compute. reflexivity.
  - apply list_elem_of_In. simpl. auto.
Defined.

(** ** The properties on sample inputs *)

Section on_samples.
Import filepath osfs tar.

(** A name that climbs out of the destination escapes; an absolute name
    does not: [filepath.Join] resolves it below the destination. *)
Example escapes_dotdot : escapes "/out" "../../etc/passwd" = true.
Proof. vm_compute. reflexivity. Qed.

Example absolute_name_contained :
  Join ["/out"; "/etc/passwd"] = "/out/etc/passwd" ∧ escapes "/out" "/etc/passwd" = false.
Proof. split; vm_compute; reflexivity. Qed.

Lemma fixed_root_entry_skipped_witness :
  util_fixed.ExtractTarGz samples.emptyFS samples.collected "/out" =
  util_fixed.ExtractTarGz samples.emptyFS
    (mkArchive None [samples.directory "./etc/"; samples.regular "./etc/foo.conf" "a=1"] None)
    "/out".
Proof.
  apply (fixed_root_entry_skipped samples.emptyFS None [] (samples.directory "./")).
  - right. reflexivity.
  - reflexivity.
Defined.

(** The archive of the collection script, extracted by the copy with the
    fixes. *)
Example fixed_collected_sample :
  util_fixed.ExtractTarGz samples.emptyFS samples.collected "/out"
  = (mkFS {[ "/out" := Directory; "/out/etc" := Directory;
             "/out/etc/foo.conf" := File "a=1" ]} ∅ ∅,
     None).
Proof. vm_compute. reflexivity. Qed.

Lemma fixed_failed_copy_witness :
  (util_fixed.extractEntry
     (mkFS {[ "/out" := Directory ]} ∅ {[ "/out/foo.conf" := 2 ]})
     "/out" "/out" (samples.regular "foo.conf" "hello")).2
  = Some (ErrCopy "/out/foo.conf" "short write") ∧
  nodes (util_fixed.extractEntry
     (mkFS {[ "/out" := Directory ]} ∅ {[ "/out/foo.conf" := 2 ]})
     "/out" "/out" (samples.regular "foo.conf" "hello")).1 !! "/out/foo.conf" = None.
Proof.
  apply (fixed_extractEntry_failed_copy
           (mkFS {[ "/out" := Directory ]} ∅ {[ "/out/foo.conf" := 2 ]})
           "/out" "/out" (samples.regular "foo.conf" "hello")
           (mkFS {[ "/out" := Directory ]} ∅ {[ "/out/foo.conf" := 2 ]})
           (mkFS {[ "/out" := Directory; "/out/foo.conf" := File "" ]} ∅
                 {[ "/out/foo.conf" := 2 ]})
           "short write").
  - discriminate.
  - discriminate.
  - reflexivity.
  - vm_compute. reflexivity.
  - vm_compute. reflexivity.
  - vm_compute. reflexivity.
  - vm_compute. reflexivity.
Defined.

Lemma fixed_escaping_entry_witness :
  (∃ err, (util_fixed.ExtractTarGz samples.emptyFS samples.hostile "/out").2 = Some err) ∧
  ((util_fixed.ExtractTarGz samples.emptyFS
      (mkArchive None
         [samples.directory "etc/"; samples.regular "etc/foo.conf" "a=1"] None) "/out").2 = None →
   (util_fixed.ExtractTarGz samples.emptyFS samples.hostile "/out").2
   = Some (ErrEscape "../../etc/passwd" "/out")) ∧
  sameFilesOutside "/out" samples.emptyFS
    (util_fixed.ExtractTarGz samples.emptyFS samples.hostile "/out").1.
Proof.
  apply (fixed_escaping_entry_rejected samples.emptyFS samples.hostile "/out"
           [samples.directory "etc/"; samples.regular "etc/foo.conf" "a=1"]
           (samples.regular "../../etc/passwd" "root") []).
  - vm_compute. reflexivity.
  - reflexivity.
  - discriminate.
  - discriminate.
  - vm_compute. reflexivity.
Defined.

(** Three attempts, two pauses of two seconds, then the SFTP client. *)
Example connect_flaky :
  sshutil.Connect flakyNetwork "A" "ops" "/k" "" =
  (inl (sshutil.mkClient "A"),
   [sshutil.DialTCP 1; sshutil.Sleep 2000000000;
    sshutil.DialTCP 2; sshutil.Handshake 2; sshutil.CloseTCP 2; sshutil.Sleep 2000000000;
    sshutil.DialTCP 3; sshutil.Handshake 3; sshutil.OpenSFTP]).
Proof. vm_compute. reflexivity. Qed.

Example connect_dead :
  sshutil.Connect deadNetwork "A" "ops" "/k" "" =
  (inr (sshutil.ErrDial "A" "i/o timeout"),
   [sshutil.DialTCP 1; sshutil.Sleep 2000000000;
    sshutil.DialTCP 2; sshutil.Sleep 2000000000; sshutil.DialTCP 3]).
Proof. vm_compute. reflexivity. Qed.

(** Host A cannot be reached, host B is collected: the run fails and no
    manifest is saved. With both hosts collected the manifest is saved. *)
Example collection_one_host_down :
  collect.RunCollection
    (λ i, if Nat.eqb i 0 then healthyHost deadNetwork else healthyHost flakyNetwork)
    (λ _, None) [] twoServers "." 10
  = Some (collect.mkCollection false None
            [("A", collect.ErrConnect (sshutil.ErrDial "A" "i/o timeout"))]).
Proof. vm_compute. reflexivity. Qed.

Example collection_all_hosts_up :
  collect.RunCollection (λ _, healthyHost flakyNetwork) (λ _, None) [1] twoServers "." 10
  = Some (collect.mkCollection true
            (Some (config.AddFile
                     (config.AddFile config.NewManifest "B" "etc/foo.conf" "e3b0c442" "")
                     "A" "etc/foo.conf" "e3b0c442" ""))
            []).
Proof. vm_compute. reflexivity. Qed.

End on_samples.

(** ** The path functions on the cases of Go's own tests *)

Section path_conformance.
Import filepath.

Example Clean_cases :
  forallb (λ t : string * string, String.eqb (Clean t.1) t.2)
    [("", "."); ("abc", "abc"); ("abc/def", "abc/def"); (".", "."); ("..", "..");
     ("../..", "../.."); ("../../abc", "../../abc"); ("/abc", "/abc"); ("/", "/");
     ("abc/", "abc"); ("abc/def/", "abc/def"); ("./", "."); ("../", ".."); ("/abc/", "/abc");
     ("abc//def//ghi", "abc/def/ghi"); ("//abc", "/abc"); ("//abc//", "/abc"); ("abc//", "abc");
     ("abc/./def", "abc/def"); ("/./abc/def", "/abc/def"); ("abc/.", "abc");
     ("abc/def/ghi/../jkl", "abc/def/jkl"); ("abc/def/../ghi/../jkl", "abc/jkl");
     ("abc/def/..", "abc"); ("abc/def/../..", "."); ("/abc/def/../..", "/");
     ("abc/def/../../..", ".."); ("/abc/def/../../..", "/");
     ("abc/def/../../../ghi/jkl/../../../mno", "../../mno"); ("/../abc", "/abc");
     ("abc/./../def", "def"); ("abc//./../def", "def"); ("abc/../../././../def", "../../def")]
  = true.
Proof. vm_compute. reflexivity. Qed.

Example Join_cases :
  forallb (λ t : list string * string, String.eqb (Join t.1) t.2)
    [([], ""); ([""], ""); (["/"], "/"); (["a"], "a"); (["a"; "b"], "a/b"); (["a"; ""], "a");
     ([""; "b"], "b"); (["/"; "a"], "/a"); (["/"; "a/b"], "/a/b"); (["/"; ""], "/");
     (["/a"; "b"], "/a/b"); (["a"; "/b"], "a/b"); (["/a"; "/b"], "/a/b"); (["a/"; "b"], "a/b");
     (["a/"; ""], "a"); ([""; ""], "")]
  = true.
Proof. vm_compute. reflexivity. Qed.

Example Dir_cases :
  forallb (λ t : string * string, String.eqb (Dir t.1) t.2)
    [("", "."); (".", "."); ("/.", "/"); ("/", "/"); ("/foo", "/"); ("x/", "x"); ("abc", ".");
     ("abc/def", "abc"); ("a/b/.x", "a/b"); ("a/b/c.", "a/b"); ("a/b/c.x", "a/b")]
  = true.
Proof. vm_compute. reflexivity. Qed.

End path_conformance.

(** ** The manifest as a log of calls *)

Section manifest_log.
Import config.

Lemma Manifest_eq (m m' : Manifest) : FilesByServer m = FilesByServer m' → m = m'.
Proof. destruct m, m'. simpl. by intros ->. Qed.

(** X7. Two [AddFile] calls for different (server, path) pairs give the
    same manifest in either order: concurrent collectors that hold the
    lock one at a time cannot make the outcome depend on who goes first. *)
Theorem AddFile_commute m server1 path1 checksum1 error1 server2 path2 checksum2 error2 :
  (server1, path1) ≠ (server2, path2) →
  AddFile (AddFile m server1 path1 checksum1 error1) server2 path2 checksum2 error2 =
  AddFile (AddFile m server2 path2 checksum2 error2) server1 path1 checksum1 error1.
Proof.
  intros Hne. apply Manifest_eq, map_eq. intros server.
  destruct (decide (server1 = server2)) as [<-|Hservers].
  - assert (path1 ≠ path2) by congruence.
    destruct (decide (server = server1)) as [->|Hother].
    + rewrite !AddFile_lookup_server. simpl. f_equal. by apply insert_insert_ne.
    + by rewrite !AddFile_lookup_other_server.
  - destruct (decide (server = server1)) as [->|Hother1].
    + rewrite AddFile_lookup_other_server, !AddFile_lookup_server by done.
      by rewrite AddFile_lookup_other_server.
    + destruct (decide (server = server2)) as [->|Hother2].
      * rewrite AddFile_lookup_server, !AddFile_lookup_other_server by done.
        by rewrite AddFile_lookup_server.
      * by rewrite !AddFile_lookup_other_server.
Qed.

(** X8. After any sequence of [AddFile] calls, [GetFileInfo] returns the
    record of the last call made for that server and path, with its path
    field equal to the path asked for, and what it returned before the
    calls when none was made for them. *)
Theorem GetFileInfo_after_calls calls : ∀ m server path,
  GetFileInfo (applyAdds m calls) server path =
  match lastCall server path calls with
  | Some c => (mkFileInfo path (callChecksum c) (callError c), true)
  | None => GetFileInfo m server path
  end.
Proof.
  induction calls as [|c calls IH]; intros m server path; [done|].
  cbn [applyAdds fold_left lastCall]. fold (applyAdds (AddFile m (callServer c) (callPath c)
    (callChecksum c) (callError c)) calls). rewrite IH.
  destruct (lastCall server path calls); [done|].
  destruct (decide _) as [[<- <-]|Hne].
  - apply GetFileInfo_AddFile_same.
  - apply GetFileInfo_AddFile_other. intros [= -> ->]. by apply Hne.
Qed.

End manifest_log.

Lemma AddFile_commute_witness :
  config.AddFile (config.AddFile config.NewManifest "A" "etc/hosts" "4444" "")
                 "B" "etc/hosts" "" "Missing on remote" =
  config.AddFile (config.AddFile config.NewManifest "B" "etc/hosts" "" "Missing on remote")
                 "A" "etc/hosts" "4444" "".
Proof. apply AddFile_commute. discriminate. Defined.

(** ** More on the comparison set *)

Section comparison_set_more.
Import config analyze goroutines.

Context (range : ∀ V : Type, gmap string V → list (string * V)).
Hypothesis range_perm : ∀ (V : Type) (m : gmap string V), range V m ≡ₚ map_to_list m.

Lemma presentOn_GetFileInfo manifest server p :
  presentOn manifest server p = true ↔
  ∃ info, GetFileInfo manifest server p = (info, true) ∧ Error info = "".
Proof.
  unfold presentOn, GetFileInfo.
  destruct (FilesByServer manifest !! server) as [serverData|]; simpl.
  - destruct (serverData !! p) as [info|]; simpl.
    + rewrite String.eqb_eq. split; [by exists info|]. by intros (? & [= <-] & ?).
    + split; [done|]. by intros (? & [=] & _).
  - split; [done|]. by intros (? & [=] & _).
Qed.

Lemma sorted_strings_ext (l1 l2 : list string) :
  StronglySorted String.le l1 → StronglySorted String.le l2 →
  NoDup l1 → NoDup l2 → (∀ x, x ∈ l1 ↔ x ∈ l2) → l1 = l2.
Proof.
  intros Hs1 Hs2 Hn1 Hn2 Hext.
  apply (StronglySorted_unique String.le); [done..|].
  by apply NoDup_Permutation.
Qed.

(** X9. A path is in the comparison set exactly when the server list is
    not empty and [GetFileInfo] finds, on every server of the list, a
    record for it whose error text is empty (an empty checksum does not
    exclude it). *)
Theorem getFilesToCompare_exactly servers manifest p :
  p ∈ getFilesToCompare range servers manifest ↔
  servers ≠ [] ∧
  ∀ server, server ∈ servers →
    ∃ info, GetFileInfo manifest server p = (info, true) ∧ Error info = "".
Proof.
  rewrite (elem_of_getFilesToCompare range range_perm).
  by setoid_rewrite presentOn_GetFileInfo.
Qed.

(** X10. The comparison set depends on the servers listed, not on their
    order in the list nor on how often each is listed. *)
Theorem getFilesToCompare_server_order servers1 servers2 manifest :
  (∀ server, server ∈ servers1 ↔ server ∈ servers2) →
  getFilesToCompare range servers1 manifest = getFilesToCompare range servers2 manifest.
Proof.
  intros Hsame.
  apply sorted_strings_ext;
    try apply (getFilesToCompare_sorted range);
    try apply (getFilesToCompare_NoDup range range_perm).
  intros p. rewrite !(elem_of_getFilesToCompare range range_perm).
  assert (servers1 = [] ↔ servers2 = []) as Hnil.
  { destruct servers1 as [|s1 ?], servers2 as [|s2 ?]; try done.
    - exfalso. eapply elem_of_nil, Hsame. left.
    - exfalso. eapply elem_of_nil, Hsame. left. }
  rewrite Hnil. by setoid_rewrite Hsame.
Qed.

End comparison_set_more.

(** X11. The comparison set does not depend on the order in which Go
    visits the entries of the maps. *)
Theorem getFilesToCompare_any_map_order
    (range1 range2 : ∀ V : Type, gmap string V → list (string * V)) servers manifest :
  (∀ (V : Type) (m : gmap string V), range1 V m ≡ₚ map_to_list m) →
  (∀ (V : Type) (m : gmap string V), range2 V m ≡ₚ map_to_list m) →
  analyze.getFilesToCompare range1 servers manifest =
  analyze.getFilesToCompare range2 servers manifest.
Proof.
  intros Hrange1 Hrange2.
  apply sorted_strings_ext;
    try apply getFilesToCompare_sorted; try by apply getFilesToCompare_NoDup.
  intros p. by rewrite !elem_of_getFilesToCompare.
Qed.

Lemma getFilesToCompare_exactly_witness :
  "etc/f1" ∈ analyze.getFilesToCompare samples.inKeyOrder samples.servers samples.manifest ↔
  samples.servers ≠ [] ∧
  ∀ server, server ∈ samples.servers →
    ∃ info, config.GetFileInfo samples.manifest server "etc/f1" = (info, true) ∧
            config.Error info = "".
Proof.
  apply (getFilesToCompare_exactly samples.inKeyOrder).
  intros V m. reflexivity.
Defined.

Lemma getFilesToCompare_server_order_witness :
  analyze.getFilesToCompare samples.inKeyOrder ["A"; "B"] samples.manifest =
  analyze.getFilesToCompare samples.inKeyOrder ["B"; "A"; "B"] samples.manifest.
Proof.
  apply (getFilesToCompare_server_order samples.inKeyOrder).
  - intros V m. reflexivity.
  - intros server. rewrite !elem_of_cons, !elem_of_nil. tauto.
Defined.

Lemma getFilesToCompare_any_map_order_witness :
  analyze.getFilesToCompare samples.inKeyOrder samples.servers samples.manifest =
  analyze.getFilesToCompare inReverseKeyOrder samples.servers samples.manifest.
Proof.
  apply getFilesToCompare_any_map_order.
  - intros V m. reflexivity.
  - intros V m. apply reverse_Permutation.
Defined.

(** ** More on comparing one file *)

Section compare_single_file_more.
Import config analyze.

Implicit Types (manifest : Manifest) (g : gathered) (servers : list string).

Lemma usable_GetFileInfo manifest filePath server :
  usable manifest filePath server = true ↔
  ∃ info, GetFileInfo manifest server filePath = (info, true) ∧
          Error info = "" ∧ Checksum info ≠ "".
Proof.
  unfold usable. destruct (GetFileInfo manifest server filePath) as [info exists_].
  rewrite !andb_true_iff, negb_true_iff, String.eqb_eq, String.eqb_neq.
  split.
  - intros [[-> ?] ?]. by exists info.
  - by intros (? & [= <- <-] & ? & ?).
Qed.

Lemma gatherStep_unusable manifest filePath baseOutputDir g i server :
  usable manifest filePath server = false →
  ∃ msg, gatherStep manifest filePath baseOutputDir g i server =
         mkGathered (checksums g) (filePaths g) (errorsFound g ++ [msg]) false
                    (firstChecksum g) (allMatch g).
Proof.
  unfold usable, gatherStep.
  destruct (GetFileInfo manifest server filePath) as [info exists_].
  destruct exists_, (String.eqb (Error info) ""), (String.eqb (Checksum info) "");
    simpl; try done; intros _; eauto.
Qed.

Lemma gatherStep_usable manifest filePath baseOutputDir g i server :
  usable manifest filePath server = true →
  foundOnAll (gatherStep manifest filePath baseOutputDir g i server) = foundOnAll g ∧
  errorsFound (gatherStep manifest filePath baseOutputDir g i server) = errorsFound g ∧
  firstChecksum (gatherStep manifest filePath baseOutputDir g i server) =
    (if Nat.eqb i 0 then checksumOn manifest filePath server else firstChecksum g) ∧
  allMatch (gatherStep manifest filePath baseOutputDir g i server) =
    (if Nat.eqb i 0 then allMatch g
     else allMatch g && String.eqb (checksumOn manifest filePath server) (firstChecksum g)).
Proof.
  unfold usable, gatherStep, checksumOn.
  destruct (GetFileInfo manifest server filePath) as [info exists_]. simpl.
  destruct exists_, (String.eqb (Error info) ""), (String.eqb (Checksum info) "");
    simpl; try done; intros _.
  destruct (Nat.eqb i 0); [done|].
  destruct (String.eqb (Checksum info) (firstChecksum g)); simpl;
    by rewrite ?andb_true_r, ?andb_false_r.
Qed.

Lemma gatherLoop_foundOnAll manifest filePath baseOutputDir servers : ∀ g i,
  foundOnAll (gatherLoop manifest filePath baseOutputDir g i servers) =
  foundOnAll g && forallb (usable manifest filePath) servers.
Proof.
  induction servers as [|server servers IH]; intros g i; simpl.
  - by rewrite andb_true_r.
  - rewrite IH. destruct (usable manifest filePath server) eqn:Huse.
    + by destruct (gatherStep_usable manifest filePath baseOutputDir g i server Huse) as [-> _].
    + destruct (gatherStep_unusable manifest filePath baseOutputDir g i server Huse)
        as [msg ->]. simpl. by rewrite andb_false_r.
Qed.

Lemma gatherLoop_errorsFound manifest filePath baseOutputDir servers : ∀ g i,
  length (errorsFound (gatherLoop manifest filePath baseOutputDir g i servers)) =
  length (errorsFound g) +
  length (filter (λ server, usable manifest filePath server = false) servers).
Proof.
  induction servers as [|server servers IH]; intros g i; cbn [gatherLoop].
  - rewrite filter_nil. simpl. lia.
  - rewrite IH, filter_cons. destruct (usable manifest filePath server) eqn:Huse.
    + destruct (gatherStep_usable manifest filePath baseOutputDir g i server Huse)
        as (_ & -> & _).
      done.
    + destruct (gatherStep_unusable manifest filePath baseOutputDir g i server Huse)
        as [msg ->]. simpl.
      rewrite length_app. simpl. lia.
Qed.

Lemma gatherLoop_allMatch manifest filePath baseOutputDir servers : ∀ g i,
  forallb (usable manifest filePath) servers = true →
  allMatch (gatherLoop manifest filePath baseOutputDir g i servers) =
  allMatch g &&
  forallb (λ server, String.eqb (checksumOn manifest filePath server)
                       (if Nat.eqb i 0 then checksumOn manifest filePath (hd "" servers)
                        else firstChecksum g)) servers.
Proof.
  induction servers as [|server servers IH]; intros g i Hall; simpl.
  - by rewrite andb_true_r.
  - simpl in Hall. apply andb_true_iff in Hall as [Huse Hall].
    destruct (gatherStep_usable manifest filePath baseOutputDir g i server Huse)
      as (_ & _ & Hfirst & Hmatch).
    rewrite IH by done. simpl. rewrite Hfirst, Hmatch.
    destruct (Nat.eqb i 0).
    + by rewrite String.eqb_refl.
    + by rewrite andb_assoc.
Qed.

Lemma IsDiff_diffPair os filePath saveDiffs diffDir paths server1 server2 st :
  IsDiff (diffPair os filePath saveDiffs diffDir paths server1 server2 st).1 = IsDiff st.1.
Proof.
  destruct st as [result trace]. unfold diffPair.
  repeat (case_match; simpl; try done).
Qed.

Lemma IsDiff_innerLoop os filePath saveDiffs diffDir paths server1 later : ∀ st,
  IsDiff (innerLoop os filePath saveDiffs diffDir paths server1 later st).1 = IsDiff st.1.
Proof.
  unfold innerLoop. induction later as [|server2 later IH]; intros st; simpl; [done|].
  by rewrite IH, IsDiff_diffPair.
Qed.

Lemma IsDiff_pairwiseLoop os filePath saveDiffs diffDir paths servers : ∀ st,
  IsDiff (pairwiseLoop os filePath saveDiffs diffDir paths servers st).1 = IsDiff st.1.
Proof.
  induction servers as [|server1 later IH]; intros st; simpl; [done|].
  by rewrite IH, IsDiff_innerLoop.
Qed.

(** X12. [compareSingleFile] reports a file as identical exactly when
    every server of the list has a usable record for it (present, no
    error text, a non-empty checksum) and every checksum equals that of
    the first server; in every other case it reports a difference. *)
Theorem compareSingleFile_identical_iff os filePath servers manifest baseOutputDir saveDiffs
    diffDir :
  IsDiff (compareSingleFile os filePath servers manifest baseOutputDir saveDiffs diffDir).1
    = false ↔
  ∀ server, server ∈ servers →
    usable manifest filePath server = true ∧
    checksumOn manifest filePath server = checksumOn manifest filePath (hd "" servers).
Proof.
  unfold compareSingleFile.
  rewrite gatherLoop_foundOnAll. simpl.
  destruct (forallb (usable manifest filePath) servers) eqn:Huse; simpl.
  - rewrite gatherLoop_allMatch by done. simpl.
    destruct (forallb (λ server, String.eqb _ _) servers) eqn:Hsums; simpl.
    + split; [intros _|done]. intros server Hin.
      rewrite forallb_forall in Huse, Hsums.
      apply list_elem_of_In in Hin. split; [by apply Huse|].
      by apply String.eqb_eq, Hsums.
    + rewrite IsDiff_pairwiseLoop. simpl. split; [done|]. intros Hall.
      assert (forallb (λ server, String.eqb (checksumOn manifest filePath server)
                (checksumOn manifest filePath (hd "" servers))) servers = true) as Hyes.
      { apply forallb_forall. intros server Hin%list_elem_of_In.
        apply String.eqb_eq. by apply Hall. }
      congruence.
  - split; [done|]. intros Hall.
    assert (forallb (usable manifest filePath) servers = true) as Hyes.
    { apply forallb_forall. intros server Hin%list_elem_of_In. by apply Hall. }
    congruence.
Qed.

(** X13. When some server of the list has no usable record for the file
    (none, one with an error text, or one with an empty checksum),
    [compareSingleFile] reports a difference without running [diff] or
    writing anything, with no diff text and one error message for each
    such position of the list. *)
Theorem compareSingleFile_unusable_record os filePath servers manifest baseOutputDir
    saveDiffs diffDir :
  (∃ server, server ∈ servers ∧ usable manifest filePath server = false) →
  let run := compareSingleFile os filePath servers manifest baseOutputDir saveDiffs diffDir in
  IsDiff run.1 = true ∧ Diffs run.1 = ∅ ∧ run.2 = [] ∧
  length (Errors run.1) =
  length (filter (λ server, usable manifest filePath server = false) servers).
Proof.
  intros (server & Hin & Hbad). simpl. unfold compareSingleFile.
  rewrite gatherLoop_foundOnAll. simpl.
  destruct (forallb (usable manifest filePath) servers) eqn:Huse; simpl.
  - rewrite forallb_forall in Huse. apply list_elem_of_In in Hin.
    specialize (Huse server Hin). congruence.
  - by rewrite gatherLoop_errorsFound.
Qed.

Lemma diffRuns_app trace1 trace2 : diffRuns (trace1 ++ trace2) = diffRuns trace1 + diffRuns trace2.
Proof.
  induction trace1 as [|[] trace1 IH]; simpl; [done|by rewrite IH..].
Qed.

Lemma diffPair_runs os filePath saveDiffs diffDir paths server1 server2 st :
  diffRuns (diffPair os filePath saveDiffs diffDir paths server1 server2 st).2
  ≤ S (diffRuns st.2).
Proof.
  destruct st as [result trace]. unfold diffPair.
  repeat (case_match; simpl; rewrite ?diffRuns_app; simpl; try lia).
Qed.

Lemma innerLoop_runs os filePath saveDiffs diffDir paths server1 later : ∀ st,
  diffRuns (innerLoop os filePath saveDiffs diffDir paths server1 later st).2
  ≤ length later + diffRuns st.2.
Proof.
  unfold innerLoop. induction later as [|server2 later IH]; intros st; simpl; [done|].
  etrans; [apply IH|].
  pose proof (diffPair_runs os filePath saveDiffs diffDir paths server1 server2 st). lia.
Qed.

Lemma pairwiseLoop_runs os filePath saveDiffs diffDir paths servers : ∀ st,
  2 * diffRuns (pairwiseLoop os filePath saveDiffs diffDir paths servers st).2
  ≤ length servers * (length servers - 1) + 2 * diffRuns st.2.
Proof.
  induction servers as [|server1 later IH]; intros st; simpl; [lia|].
  etrans; [apply IH|].
  pose proof (innerLoop_runs os filePath saveDiffs diffDir paths server1 later st).
  rewrite Nat.sub_0_r. nia.
Qed.

(** For a list of [n] servers [compareSingleFile] runs [diff] at
    most [n (n - 1) / 2] times: at most once for each pair of positions. *)
Theorem compareSingleFile_diff_runs os filePath servers manifest baseOutputDir saveDiffs
    diffDir :
  2 * diffRuns (compareSingleFile os filePath servers manifest baseOutputDir saveDiffs
                  diffDir).2
  ≤ length servers * (length servers - 1).
Proof.
  unfold compareSingleFile.
  destruct (negb _); [simpl; lia|]. destruct (allMatch _); [simpl; lia|].
  etrans; [apply pairwiseLoop_runs|]. simpl. lia.
Qed.

Lemma diffPair_no_write os filePath saveDiffs diffDir paths server1 server2 st :
  saveDiffs = false ∨ diffDir = "" →
  ∃ runs, (diffPair os filePath saveDiffs diffDir paths server1 server2 st).2 = st.2 ++ runs ∧
          ∀ e, e ∈ runs → ∃ path1 path2, e = ExecDiff path1 path2.
Proof.
  intros Hoff. destruct st as [result trace]. unfold diffPair.
  assert (saveDiffs && negb (String.eqb diffDir "") = false) as ->.
  { destruct Hoff as [->| ->]; [done|]. by rewrite andb_false_r. }
  repeat (case_match; simpl);
    first [ exists []; split; [by rewrite app_nil_r|]; by intros ? ?%elem_of_nil
          | eexists [_]; split; [done|]; intros ? ->%list_elem_of_singleton; eauto ].
Qed.

Lemma innerLoop_no_write os filePath saveDiffs diffDir paths server1 later : ∀ st,
  saveDiffs = false ∨ diffDir = "" →
  (∀ e, e ∈ st.2 → ∃ path1 path2, e = ExecDiff path1 path2) →
  ∀ e, e ∈ (innerLoop os filePath saveDiffs diffDir paths server1 later st).2 →
       ∃ path1 path2, e = ExecDiff path1 path2.
Proof.
  unfold innerLoop. induction later as [|server2 later IH]; intros st Hoff Hst; simpl; [done|].
  apply IH; [done|]. intros e.
  destruct (diffPair_no_write os filePath saveDiffs diffDir paths server1 server2 st Hoff)
    as (runs & -> & Hruns).
  rewrite elem_of_app. intros [?|?]; auto.
Qed.

Lemma pairwiseLoop_no_write os filePath saveDiffs diffDir paths servers : ∀ st,
  saveDiffs = false ∨ diffDir = "" →
  (∀ e, e ∈ st.2 → ∃ path1 path2, e = ExecDiff path1 path2) →
  ∀ e, e ∈ (pairwiseLoop os filePath saveDiffs diffDir paths servers st).2 →
       ∃ path1 path2, e = ExecDiff path1 path2.
Proof.
  induction servers as [|server1 later IH]; intros st Hoff Hst; simpl; [done|].
  apply IH; [done|]. by apply innerLoop_no_write.
Qed.

(** X14. Without [saveDiffs], or with an empty [diffDir],
    [compareSingleFile] creates no directory and writes no file: running
    [diff] is the only thing it does outside the process. *)
Theorem compareSingleFile_no_write os filePath servers manifest baseOutputDir saveDiffs
    diffDir e :
  saveDiffs = false ∨ diffDir = "" →
  e ∈ (compareSingleFile os filePath servers manifest baseOutputDir saveDiffs diffDir).2 →
  ∃ path1 path2, e = ExecDiff path1 path2.
Proof.
  intros Hoff. unfold compareSingleFile.
  destruct (negb _); [by intros ?%elem_of_nil|].
  destruct (allMatch _); [by intros ?%elem_of_nil|].
  apply pairwiseLoop_no_write; [done|]. by intros ? ?%elem_of_nil.
Qed.

End compare_single_file_more.

Lemma compareSingleFile_unusable_witness :
  let run := analyze.compareSingleFile samples.quietLocal "etc/f2" samples.servers
               samples.manifest "." true "diff_output" in
  analyze.IsDiff run.1 = true ∧ analyze.Diffs run.1 = ∅ ∧ run.2 = [] ∧
  length (analyze.Errors run.1) =
  length (filter (λ server, usable samples.manifest "etc/f2" server = false) samples.servers).
Proof.
  apply compareSingleFile_unusable_record.
  exists "B". split; [|vm_compute; reflexivity].
  apply list_elem_of_In. simpl. auto.
Defined.

Lemma compareSingleFile_no_write_witness :
  ∃ path1 path2,
    analyze.ExecDiff "collected-files/files-A/etc/f1" "collected-files/files-B/etc/f1" =
    analyze.ExecDiff path1 path2.
Proof.
  apply (compareSingleFile_no_write samples.quietLocal "etc/f1" samples.servers
           samples.manifest "." false "diff_output").
  - by left.
  - vm_compute. left.
Defined.

(** ** More on [RunAnalysis] *)

Section run_analysis_more.
Import config analyze goroutines.

Context (range : ∀ V : Type, gmap string V → list (string * V)).

Lemma different_app results1 results2 :
  different (results1 ++ results2) = different results1 + different results2.
Proof. unfold different. by rewrite filter_app, length_app. Qed.

Lemma different_cons r results :
  different (r :: results) = (if IsDiff r then 1 else 0) + different results.
Proof.
  unfold different. rewrite filter_cons. destruct (IsDiff r); simpl; done.
Qed.

Lemma different_le results : different results ≤ length results.
Proof. apply length_filter. Qed.

Lemma different_Permutation results1 results2 :
  results1 ≡ₚ results2 → different results1 = different results2.
Proof. unfold different. by intros ->. Qed.

(** What the collector loop has counted once the channel is drained. *)
Lemma tally_fold results : ∀ acc,
  anyDiffFound (fold_left tally results acc) =
    anyDiffFound acc || negb (Nat.eqb (different results) 0) ∧
  analysisError (fold_left tally results acc) = analysisError acc ∧
  totalCompared (fold_left tally results acc) = totalCompared acc + length results ∧
  totalDifferent (fold_left tally results acc) = totalDifferent acc + different results ∧
  totalIdentical (fold_left tally results acc) =
    totalIdentical acc + (length results - different results).
Proof.
  induction results as [|r results IH]; intros acc.
  - simpl. rewrite orb_false_r. unfold different. rewrite filter_nil. simpl.
    repeat split; lia.
  - cbn [fold_left]. destruct (IH (tally acc r)) as (-> & -> & -> & -> & ->).
    pose proof (different_le results). rewrite different_cons.
    unfold tally. destruct (IsDiff r) eqn:Hr; simpl.
    + rewrite orb_true_r. repeat split; lia.
    + repeat split; lia.
Qed.

(** X15. Whatever [RunAnalysis] returns, its counters agree with the
    results its collector received: [totalCompared] is their number,
    [totalDifferent] the number of those with [IsDiff],
    [totalIdentical] the rest, and the verdict [anyDiffFound] is true
    exactly when [totalDifferent] is positive. *)
Theorem RunAnalysis_counters mach sched cfg outputDir diffDir saveDiffs maxConcurrency a :
  RunAnalysis range mach sched cfg outputDir diffDir saveDiffs maxConcurrency = Some a →
  totalCompared a = length (received a) ∧
  totalDifferent a = different (received a) ∧
  totalCompared a = totalDifferent a + totalIdentical a ∧
  (anyDiffFound a = true ↔ 0 < totalDifferent a).
Proof.
  unfold RunAnalysis. intros Hrun.
  assert (a = mkAnalysis false (analysisError a) [] 0 0 0 ∨
          ∃ results, a = fold_left tally results (mkAnalysis false None [] 0 0 0))
    as [->|[results ->]].
  { repeat case_match; simplify_eq; eauto. }
  - simpl. unfold different. rewrite filter_nil. simpl. repeat split; try lia; done.
  - destruct (tally_fold results (mkAnalysis false None [] 0 0 0)) as (-> & _ & -> & -> & ->).
    rewrite received_tally. simpl. pose proof (different_le results).
    repeat split; try lia.
    + by destruct (Nat.eqb_spec (different results) 0); [|lia].
    + by destruct (Nat.eqb_spec (different results) 0); [lia|].
Qed.

(** X16. A run that ends without error has received exactly one result
    for each file of the comparison set, in whatever order the workers
    finished. *)
Theorem RunAnalysis_each_file_once mach sched cfg outputDir diffDir saveDiffs maxConcurrency
    manifest a :
  loadManifest mach outputDir = inl manifest →
  RunAnalysis range mach sched cfg outputDir diffDir saveDiffs maxConcurrency = Some a →
  analysisError a = None →
  FilePath <$> received a ≡ₚ getFilesToCompare range (Servers cfg) manifest.
Proof.
  intros Hload Hrun Hok. unfold RunAnalysis in Hrun. rewrite Hload in Hrun.
  destruct (checkCollectionDirs _ _ _); [by simplify_eq|].
  destruct (Nat.eqb_spec (length (getFilesToCompare range (Servers cfg) manifest)) 0)
    as [Hnone|_].
  { simplify_eq. simpl. by destruct (getFilesToCompare range (Servers cfg) manifest). }
  destruct (if saveDiffs then _ else _); [by simplify_eq|].
  destruct (maxConcurrency <? 1)%Z; [done|]. simplify_eq.
  rewrite received_tally. simpl.
  rewrite <- (scheduled_Permutation sched (getFilesToCompare range (Servers cfg) manifest))
    at 2.
  apply reflexive_eq. clear Hok.
  induction (scheduled sched (getFilesToCompare range (Servers cfg) manifest))
    as [|fp fps IH]; [done|].
  cbn [map]. rewrite fmap_cons, FilePath_compareSingleFile. by f_equal.
Qed.

(** X17. The order in which the workers finish changes nothing but the
    order of the results: two runs on the same inputs under different
    schedules return the same verdict, the same error and the same
    counters, and receive the same results. *)
Theorem RunAnalysis_any_schedule mach sched1 sched2 cfg outputDir diffDir saveDiffs
    maxConcurrency a1 a2 :
  RunAnalysis range mach sched1 cfg outputDir diffDir saveDiffs maxConcurrency = Some a1 →
  RunAnalysis range mach sched2 cfg outputDir diffDir saveDiffs maxConcurrency = Some a2 →
  anyDiffFound a1 = anyDiffFound a2 ∧ analysisError a1 = analysisError a2 ∧
  received a1 ≡ₚ received a2 ∧
  totalCompared a1 = totalCompared a2 ∧ totalDifferent a1 = totalDifferent a2 ∧
  totalIdentical a1 = totalIdentical a2.
Proof.
  unfold RunAnalysis. intros Hrun1 Hrun2.
  destruct (loadManifest mach outputDir) as [manifest|]; [|by simplify_eq].
  destruct (checkCollectionDirs _ _ _); [by simplify_eq|].
  destruct (Nat.eqb _ 0); [by simplify_eq|].
  destruct (if saveDiffs then _ else _); [by simplify_eq|].
  destruct (maxConcurrency <? 1)%Z; [done|]. simplify_eq.
  set (compare := λ fp, (compareSingleFile (local mach) fp (Servers cfg) manifest outputDir
                           saveDiffs diffDir).1).
  set (files := getFilesToCompare range (Servers cfg) manifest).
  assert (compare <$> scheduled sched1 files ≡ₚ compare <$> scheduled sched2 files) as Hperm.
  { by rewrite !scheduled_Permutation. }
  change (map ?f ?l) with (f <$> l).
  destruct (tally_fold (compare <$> scheduled sched1 files) (mkAnalysis false None [] 0 0 0))
    as (-> & -> & -> & -> & ->).
  destruct (tally_fold (compare <$> scheduled sched2 files) (mkAnalysis false None [] 0 0 0))
    as (-> & -> & -> & -> & ->).
  rewrite !received_tally. simpl.
  rewrite (different_Permutation _ _ Hperm), (Permutation_length Hperm).
  by rewrite Hperm.
Qed.

Lemma checkCollectionDirs_missing mach outputDir servers server :
  server ∈ servers →
  statDir mach (filepath.Join [outputDir; CollectedFilesBaseDir; "files-" +:+ server])
    ≠ StatOk →
  checkCollectionDirs mach outputDir servers ≠ None.
Proof.
  intros Hin Hstat. induction servers as [|s servers IH]; [by apply elem_of_nil in Hin|].
  cbn [checkCollectionDirs].
  destruct (statDir mach (filepath.Join [outputDir; CollectedFilesBaseDir; "files-" +:+ s]))
    eqn:Hs; [|done..].
  apply IH. apply elem_of_cons in Hin as [->|Hin]; [congruence|done].
Qed.

(** When the manifest loads but the collection directory of some
    configured server cannot be inspected, [RunAnalysis] returns an error
    before any file is compared, whatever [maxConcurrency] is, and its
    verdict is that no difference was found. *)
Theorem RunAnalysis_missing_collection_dir mach sched cfg outputDir diffDir saveDiffs
    maxConcurrency manifest server :
  loadManifest mach outputDir = inl manifest →
  server ∈ Servers cfg →
  statDir mach (filepath.Join [outputDir; CollectedFilesBaseDir; "files-" +:+ server])
    ≠ StatOk →
  ∃ e serverDir,
    RunAnalysis range mach sched cfg outputDir diffDir saveDiffs maxConcurrency =
      Some (mkAnalysis false (Some e) [] 0 0 0) ∧
    ((e = ErrCollectionDirNotFound serverDir ∧ statDir mach serverDir = StatNotExist) ∨
     (∃ cause, e = ErrStatCollectionDir serverDir cause ∧
               statDir mach serverDir = StatError cause)).
Proof.
  intros Hload Hin Hstat. unfold RunAnalysis. rewrite Hload.
  pose proof (checkCollectionDirs_missing mach outputDir (Servers cfg) server Hin Hstat)
    as Hcheck.
  destruct (checkCollectionDirs mach outputDir (Servers cfg)) as [e|] eqn:He; [|done].
  exists e. clear Hcheck Hin Hstat. induction (Servers cfg) as [|s servers IH]; [done|].
  cbn [checkCollectionDirs] in He.
  destruct (statDir mach (filepath.Join [outputDir; CollectedFilesBaseDir; "files-" +:+ s]))
    eqn:Hs; simplify_eq; eauto 10.
Qed.

End run_analysis_more.

Lemma RunAnalysis_counters_witness :
  ∃ a, analyze.RunAnalysis samples.inKeyOrder sampleMachine [1; 0] sampleConfig "."
         "diff_output" true 4 = Some a ∧
       analyze.totalCompared a = length (analyze.received a) ∧
       analyze.totalDifferent a = different (analyze.received a) ∧
       analyze.totalCompared a = analyze.totalDifferent a + analyze.totalIdentical a ∧
       (analyze.anyDiffFound a = true ↔ 0 < analyze.totalDifferent a).
Proof.
  eexists. split; [vm_compute; reflexivity|].
  apply (RunAnalysis_counters samples.inKeyOrder sampleMachine [1; 0] sampleConfig "."
           "diff_output" true 4).
  vm_compute. reflexivity.
Defined.

Lemma RunAnalysis_each_file_once_witness :
  ∃ a, analyze.RunAnalysis samples.inKeyOrder sampleMachine [1; 0] sampleConfig "."
         "diff_output" true 4 = Some a ∧
       analyze.FilePath <$> analyze.received a ≡ₚ
       analyze.getFilesToCompare samples.inKeyOrder (config.Servers sampleConfig)
         samples.manifest.
Proof.
  eexists. split; [vm_compute; reflexivity|].
  apply (RunAnalysis_each_file_once samples.inKeyOrder sampleMachine [1; 0] sampleConfig "."
           "diff_output" true 4).
  - reflexivity.
  - vm_compute. reflexivity.
  - reflexivity.
Defined.

Lemma RunAnalysis_any_schedule_witness :
  ∃ a1 a2,
    analyze.RunAnalysis samples.inKeyOrder sampleMachine [1; 0] sampleConfig "."
      "diff_output" true 4 = Some a1 ∧
    analyze.RunAnalysis samples.inKeyOrder sampleMachine [0; 0] sampleConfig "."
      "diff_output" true 4 = Some a2 ∧
    analyze.received a1 ≠ analyze.received a2 ∧
    analyze.anyDiffFound a1 = analyze.anyDiffFound a2 ∧
    analyze.analysisError a1 = analyze.analysisError a2 ∧
    analyze.received a1 ≡ₚ analyze.received a2 ∧
    analyze.totalCompared a1 = analyze.totalCompared a2 ∧
    analyze.totalDifferent a1 = analyze.totalDifferent a2 ∧
    analyze.totalIdentical a1 = analyze.totalIdentical a2.
Proof.
  eexists _, _. split; [vm_compute; reflexivity|]. split; [vm_compute; reflexivity|].
  split; [discriminate|].
  apply (RunAnalysis_any_schedule samples.inKeyOrder sampleMachine [1; 0] [0; 0] sampleConfig
           "." "diff_output" true 4); vm_compute; reflexivity.
Defined.

Lemma RunAnalysis_missing_collection_dir_witness :
  ∃ e serverDir,
    analyze.RunAnalysis samples.inKeyOrder missingDirMachine [] sampleConfig "."
      "diff_output" true 0 = Some (analyze.mkAnalysis false (Some e) [] 0 0 0) ∧
    ((e = analyze.ErrCollectionDirNotFound serverDir ∧
      analyze.statDir missingDirMachine serverDir = analyze.StatNotExist) ∨
     (∃ cause, e = analyze.ErrStatCollectionDir serverDir cause ∧
               analyze.statDir missingDirMachine serverDir = analyze.StatError cause)).
Proof.
  apply (RunAnalysis_missing_collection_dir samples.inKeyOrder _ [] sampleConfig "."
           "diff_output" true 0 samples.manifest "B").
  - reflexivity.
  - apply list_elem_of_In. simpl. auto.
  - vm_compute. discriminate.
Defined.

(** ** More on the collection *)

Section collection_more.
Import config collect.

Implicit Types (m manifest : Manifest) (h : Host) (v : Visit) (server : string).

(** *** What a walk writes *)

(** One visit leaves the manifest alone or makes one [AddFile] call,
    whose arguments do not depend on the manifest. *)
Lemma walkFn_cases server v :
  (∃ err, ∀ m, walkFn server m v = (m, err)) ∨
  (∃ path checksum fileError,
     (checksum = "" ∨ fileError = "") ∧
     ∀ m, walkFn server m v = (AddFile m server path checksum fileError, None)).
Proof.
  unfold walkFn.
  destruct (accessError v); [by left; eexists|].
  destruct (isDir v); [by left; eexists|].
  destruct (_ || _); [right; eexists _, _, _; eauto|].
  destruct (sha256 v); right; eexists _, _, _; eauto.
Qed.

Lemma walkFn_other_server server m v server' :
  server ≠ server' →
  FilesByServer (walkFn server m v).1 !! server' = FilesByServer m !! server'.
Proof.
  intros Hne.
  destruct (walkFn_cases server v) as [[err ->]|(path & checksum & fileError & _ & ->)];
    [done|].
  by apply AddFile_lookup_other_server.
Qed.

Lemma WalkDir_other_server server visits server' : ∀ m,
  server ≠ server' →
  FilesByServer (WalkDir server m visits).1 !! server' = FilesByServer m !! server'.
Proof.
  induction visits as [|v visits IH]; intros m Hne; simpl; [done|].
  pose proof (walkFn_other_server server m v server' Hne) as Hstep.
  destruct (walkFn server m v) as [m' [err|]]; simpl in *; [done|].
  by rewrite IH.
Qed.

Lemma walkFn_local server m1 m2 v :
  FilesByServer m1 !! server = FilesByServer m2 !! server →
  FilesByServer (walkFn server m1 v).1 !! server =
    FilesByServer (walkFn server m2 v).1 !! server ∧
  (walkFn server m1 v).2 = (walkFn server m2 v).2.
Proof.
  intros Heq.
  destruct (walkFn_cases server v) as [[err Hv]|(path & checksum & fileError & _ & Hv)];
    rewrite !Hv; [done|].
  cbn [fst snd]. by rewrite !AddFile_lookup_server, Heq.
Qed.

Lemma WalkDir_local server visits : ∀ m1 m2,
  FilesByServer m1 !! server = FilesByServer m2 !! server →
  FilesByServer (WalkDir server m1 visits).1 !! server =
  FilesByServer (WalkDir server m2 visits).1 !! server.
Proof.
  induction visits as [|v visits IH]; intros m1 m2 Heq; simpl; [done|].
  destruct (walkFn_local server m1 m2 v Heq) as [Hmap Herr].
  destruct (walkFn server m1 v) as [m1' [err1|]], (walkFn server m2 v) as [m2' [err2|]];
    simpl in *; try done.
  by apply IH.
Qed.

Lemma collectFromServer_other_server h server cfg outputDir m server' :
  server ≠ server' →
  FilesByServer (collectFromServer h server cfg outputDir m).1 !! server' =
  FilesByServer m !! server'.
Proof.
  intros Hne. unfold collectFromServer.
  repeat (case_match; try done). by apply WalkDir_other_server.
Qed.

Lemma collectFromServer_local h server cfg outputDir m1 m2 :
  FilesByServer m1 !! server = FilesByServer m2 !! server →
  FilesByServer (collectFromServer h server cfg outputDir m1).1 !! server =
  FilesByServer (collectFromServer h server cfg outputDir m2).1 !! server.
Proof.
  intros Heq. unfold collectFromServer.
  repeat (case_match; try done). by apply WalkDir_local.
Qed.

(** *** The shape of the records *)

Lemma wellFormed_NewManifest : wellFormed NewManifest.
Proof.
  intros server path info. unfold GetFileInfo, NewManifest. simpl.
  rewrite lookup_empty. by intros [=].
Qed.

Lemma wellFormed_AddFile m server path checksum fileError :
  checksum = "" ∨ fileError = "" →
  wellFormed m → wellFormed (AddFile m server path checksum fileError).
Proof.
  intros Hone Hm server' path' info.
  destruct (decide ((server', path') = (server, path))) as [[= -> ->]|Hne].
  - rewrite GetFileInfo_AddFile_same. by intros [= <-].
  - rewrite GetFileInfo_AddFile_other by done. apply Hm.
Qed.

Lemma wellFormed_walkFn server m v : wellFormed m → wellFormed (walkFn server m v).1.
Proof.
  intros Hm.
  destruct (walkFn_cases server v) as [[err ->]|(path & checksum & fileError & Hone & ->)];
    [done|].
  by apply wellFormed_AddFile.
Qed.

Lemma wellFormed_WalkDir server visits : ∀ m,
  wellFormed m → wellFormed (WalkDir server m visits).1.
Proof.
  induction visits as [|v visits IH]; intros m Hm; simpl; [done|].
  pose proof (wellFormed_walkFn server m v Hm) as Hstep.
  destruct (walkFn server m v) as [m' [err|]]; simpl in *; [done|].
  by apply IH.
Qed.

Lemma wellFormed_collectFromServer h server cfg outputDir m :
  wellFormed m → wellFormed (collectFromServer h server cfg outputDir m).1.
Proof.
  intros Hm. unfold collectFromServer.
  repeat (case_match; try done). by apply wellFormed_WalkDir.
Qed.

Lemma runTask_fold hosts cfg outputDir tasks : ∀ acc,
  fold_left (runTask hosts cfg outputDir) tasks acc =
  (fold_left (collectStep hosts cfg outputDir) tasks acc.1,
   acc.2 ++ omap (taskError hosts cfg outputDir) tasks).
Proof.
  induction tasks as [|task tasks IH]; intros [m errs]; simpl.
  - by rewrite app_nil_r.
  - rewrite IH. unfold runTask, collectStep, taskError. simpl.
    pose proof (collectFromServer_error (hosts task.1) task.2 cfg outputDir m NewManifest)
      as Hindep.
    destruct (collectFromServer (hosts task.1) task.2 cfg outputDir m) as [m' [err|]];
      simpl in *; rewrite <- Hindep; simpl; [|done].
    by rewrite <- app_assoc.
Qed.

Lemma collectStep_commute hosts cfg outputDir m task1 task2 :
  task1.2 ≠ task2.2 →
  collectStep hosts cfg outputDir (collectStep hosts cfg outputDir m task1) task2 =
  collectStep hosts cfg outputDir (collectStep hosts cfg outputDir m task2) task1.
Proof.
  intros Hne. apply Manifest_eq, map_eq. intros server. unfold collectStep.
  destruct (decide (server = task1.2)) as [->|Hne1];
    [|destruct (decide (server = task2.2)) as [->|Hne2]].
  - rewrite collectFromServer_other_server by done.
    apply collectFromServer_local. by rewrite collectFromServer_other_server.
  - rewrite (collectFromServer_other_server _ task1.2) by done.
    apply collectFromServer_local. by rewrite collectFromServer_other_server.
  - by rewrite !collectFromServer_other_server.
Qed.

Lemma collectStep_Permutation hosts cfg outputDir tasks1 tasks2 :
  tasks1 ≡ₚ tasks2 → NoDup (tasks1.*2) →
  ∀ m, fold_left (collectStep hosts cfg outputDir) tasks1 m =
       fold_left (collectStep hosts cfg outputDir) tasks2 m.
Proof.
  induction 1 as [|task tasks1 tasks2 Hperm IH|task1 task2 tasks|tasks1 tasks2 tasks3 Hp1 IH1 Hp2 IH2];
    intros Hnodup m; simpl.
  - done.
  - apply IH. by apply NoDup_cons in Hnodup as [_ ?].
  - rewrite collectStep_commute; [done|].
    rewrite !fmap_cons in Hnodup. apply NoDup_cons in Hnodup as [Hnotin _].
    intros Heq. apply Hnotin. rewrite Heq. left.
  - rewrite IH1 by done. apply IH2. by rewrite <- Hp1.
Qed.

Lemma tasks_servers (servers : list string) :
  (imap (λ i server, (i, server)) servers).*2 = servers.
Proof.
  apply list_eq. intros i. rewrite list_lookup_fmap, list_lookup_imap.
  by destruct (servers !! i).
Qed.

(** X18. With server names that are all different, the outcome of
    [RunCollection] does not depend on the order in which the goroutines
    run: the same success flag, the same saved manifest, the same errors
    up to their order. *)
Theorem RunCollection_any_schedule hosts saveManifest sched1 sched2 cfg outputDir
    maxConcurrency run1 run2 :
  NoDup (Servers cfg) →
  RunCollection hosts saveManifest sched1 cfg outputDir maxConcurrency = Some run1 →
  RunCollection hosts saveManifest sched2 cfg outputDir maxConcurrency = Some run2 →
  success run1 = success run2 ∧ saved run1 = saved run2 ∧ errors run1 ≡ₚ errors run2.
Proof.
  intros Hnodup. unfold RunCollection.
  destruct (_ && _); [done|].
  set (tasks := imap (λ i server, (i, server)) (Servers cfg)).
  rewrite !runTask_fold. simpl.
  assert (goroutines.scheduled sched1 tasks ≡ₚ goroutines.scheduled sched2 tasks) as Hperm.
  { by rewrite !scheduled_Permutation. }
  rewrite (collectStep_Permutation hosts cfg outputDir _ _ Hperm).
  2:{ rewrite scheduled_Permutation. unfold tasks. by rewrite tasks_servers. }
  assert (omap (taskError hosts cfg outputDir) (goroutines.scheduled sched1 tasks) ≡ₚ
          omap (taskError hosts cfg outputDir) (goroutines.scheduled sched2 tasks)) as Herrs.
  { by rewrite Hperm. }
  rewrite (Permutation_length Herrs).
  destruct (Nat.eqb _ 0); [destruct (saveManifest _)|]; intros; by simplify_eq.
Qed.

Lemma collectStep_fold_invariant hosts cfg outputDir tasks : ∀ m,
  (∀ task, task ∈ tasks → task.2 ∈ Servers cfg) →
  wellFormed m ∧ (∀ server, is_Some (FilesByServer m !! server) → server ∈ Servers cfg) →
  wellFormed (fold_left (collectStep hosts cfg outputDir) tasks m) ∧
  (∀ server, is_Some (FilesByServer (fold_left (collectStep hosts cfg outputDir) tasks m)
                        !! server) → server ∈ Servers cfg).
Proof.
  induction tasks as [|task tasks IH]; intros m Htasks [Hwf Hdom]; simpl; [done|].
  apply IH.
  - intros t Ht. apply Htasks. by right.
  - split; [by apply wellFormed_collectFromServer|].
    intros server. unfold collectStep.
    destruct (decide (task.2 = server)) as [<-|Hne].
    + intros _. apply Htasks. left.
    + rewrite collectFromServer_other_server by done. apply Hdom.
Qed.

(** X19. A manifest that [RunCollection] saves has records for
    configured servers only; each record is filed under the path it
    names, and none carries both a checksum and an error text. *)
Theorem RunCollection_saved_manifest hosts saveManifest sched cfg outputDir maxConcurrency
    run m :
  RunCollection hosts saveManifest sched cfg outputDir maxConcurrency = Some run →
  saved run = Some m →
  (∀ server, is_Some (FilesByServer m !! server) → server ∈ Servers cfg) ∧
  (∀ server path info,
     GetFileInfo m server path = (info, true) →
     Path info = path ∧ (Checksum info = "" ∨ Error info = "")).
Proof.
  unfold RunCollection. destruct (_ && _); [done|].
  rewrite runTask_fold. simpl.
  destruct (collectStep_fold_invariant hosts cfg outputDir
              (goroutines.scheduled sched (imap (λ i server, (i, server)) (Servers cfg)))
              NewManifest) as [Hwf Hdom].
  { intros [i server]. rewrite scheduled_Permutation, elem_of_tasks. simpl.
    apply list_elem_of_lookup_2. }
  { split; [apply wellFormed_NewManifest|].
    intros server. unfold NewManifest. simpl. rewrite lookup_empty. by intros [? ?]. }
  destruct (Nat.eqb _ 0); [destruct (saveManifest _)|]; intros; simplify_eq/=;
    split; [exact Hdom|exact Hwf].
Qed.

(** A collection that fails leaves the manifest as it was: every
    failure of [collectFromServer] comes before the first record is
    written. *)
Theorem collectFromServer_failure_adds_nothing h server cfg outputDir m err :
  (collectFromServer h server cfg outputDir m).2 = Some err →
  (collectFromServer h server cfg outputDir m).1 = m.
Proof.
  unfold collectFromServer. repeat (case_match; simpl; try done).
Qed.

Lemma WalkDir_app_error server before v after err : ∀ m,
  (∀ u, u ∈ before → accessError u = None) →
  accessError v = Some err →
  WalkDir server m (before ++ v :: after) = ((WalkDir server m before).1, Some err).
Proof.
  induction before as [|u before IH]; intros m Hbefore Hv; simpl.
  - unfold walkFn. by rewrite Hv.
  - assert (accessError u = None) as Hu by (apply Hbefore; left).
    assert ((walkFn server m u).2 = None) as Hnone.
    { unfold walkFn. rewrite Hu. repeat (case_match; simpl; try done). }
    destruct (walkFn server m u) as [m' [e|]]; simpl in *; [done|].
    apply IH; [|done]. intros w Hw. apply Hbefore. by right.
Qed.

Lemma WalkDir_no_error server visits : ∀ m,
  (∀ u, u ∈ visits → accessError u = None) →
  (WalkDir server m visits).2 = None.
Proof.
  induction visits as [|u visits IH]; intros m Hall; simpl; [done|].
  assert (accessError u = None) as Hu by (apply Hall; left).
  assert ((walkFn server m u).2 = None) as Hnone.
  { unfold walkFn. rewrite Hu. repeat (case_match; simpl; try done). }
  destruct (walkFn server m u) as [m' [e|]]; simpl in *; [done|].
  apply IH. intros w Hw. apply Hall. by right.
Qed.

(** X20. An error of reaching a path stops the walk and is then dropped:
    [collectFromServer] returns what it would return had the walk ended
    just before that path, success included, so the files after it get no
    record on this server. *)
Theorem collectFromServer_walk_error h server cfg outputDir m before v after err :
  walked h = before ++ v :: after →
  (∀ u, u ∈ before → accessError u = None) →
  accessError v = Some err →
  collectFromServer h server cfg outputDir m =
  collectFromServer (withWalked h before) server cfg outputDir m.
Proof.
  intros Hwalk Hbefore Hv. unfold collectFromServer, withWalked. simpl.
  repeat (case_match; simpl; try done).
  by rewrite Hwalk, (WalkDir_app_error server before v after err).
Qed.

End collection_more.

Section collection_calls.
Import config collect collectCalls.

(** The two descriptions of [collectFromServer] return the same error. *)
Lemma collectFromServer_calls_error h server cfg outputDir m :
  (collectCalls.collectFromServer h server cfg outputDir).1 =
  (collect.collectFromServer h server cfg outputDir m).2.
Proof.
  unfold collectCalls.collectFromServer, collect.collectFromServer.
  repeat (case_match; simpl; try done).
Qed.

Lemma Connect_Hostname net hostname username keyPath keyPassphrase client :
  (sshutil.Connect net hostname username keyPath keyPassphrase).1 = inl client →
  sshutil.Hostname client = hostname.
Proof.
  unfold sshutil.Connect. repeat (case_match; simpl; try done); by intros [= <-].
Qed.

Lemma cleanupCommand_not_chmod remoteScriptPath remoteHomeDir remoteScript :
  cleanupCommand remoteScriptPath remoteHomeDir ≠ "chmod +x " +:+ remoteScript.
Proof. unfold cleanupCommand. rewrite !append_cons. discriminate. Qed.

Lemma cleanupCommand_not_script remoteScriptPath remoteHomeDir rest :
  cleanupCommand remoteScriptPath remoteHomeDir ≠ "/tmp/collect_files_" +:+ rest.
Proof. unfold cleanupCommand. rewrite !append_cons. discriminate. Qed.

(** Membership of a call in an explicit list of calls. *)
Ltac no_call :=
  rewrite ?elem_of_cons, elem_of_nil;
  repeat (let H := fresh in intros [H|H]; [simplify_eq|revert H]);
  try done.

Ltac one_call := repeat first [by left | right].

(** X21. A run of [collectFromServer] that does not get a connection
    makes no other call. A run that gets one closes it as its very last
    call, whatever happens in between, and only once; it removes the
    temporary script it created, and the local tarball of every download
    it started. *)
Theorem collectFromServer_releases h server cfg outputDir :
  match (sshutil.Connect (network h) server (Username (SSHConfig cfg))
           (KeyPath (SSHConfig cfg)) (KeyPassphrase (SSHConfig cfg))).1 with
  | inr _ => (collectCalls.collectFromServer h server cfg outputDir).2 = [CallConnect server]
  | inl _ =>
      ∃ body,
        (collectCalls.collectFromServer h server cfg outputDir).2 =
          CallConnect server :: body ++ [CallClose server] ∧
        (CallClose server ∉ body) ∧
        (∀ path, createTemp h = inl path → CallRemove path ∈ body) ∧
        (∀ remotePath localPath,
           CallDownloadFile remotePath localPath ∈ body → CallRemove localPath ∈ body)
  end.
Proof.
  unfold collectCalls.collectFromServer.
  destruct (sshutil.Connect _ _ _ _ _).1 as [client|cause] eqn:Hconnect; [|done].
  rewrite (Connect_Hostname _ _ _ _ _ _ Hconnect).
  repeat case_match; cbn [snd app];
    match goal with
    | |- ∃ body, CallConnect server :: ?calls = _ ∧ _ => exists (removelast calls)
    end;
    cbn [removelast app]; (split; [reflexivity|]); (split; [|split]);
    first [ by no_call
          | by (intros ? [=]; simplify_eq; one_call)
          | intros ? ?; no_call; intros; simplify_eq; one_call ].
Qed.

(** X22. The remote clean-up runs when the collection succeeded, when
    the script failed and when the download failed, and in no other
    case: a failure to create the output directory, to open the tarball
    or to extract it leaves the script, the staging directory and the
    tarball on the remote host. *)
Theorem collectFromServer_remote_cleanup h server cfg outputDir :
  remoteCleanup h cfg ∈ (collectCalls.collectFromServer h server cfg outputDir).2 ↔
  (collectCalls.collectFromServer h server cfg outputDir).1 = None ∨
  (∃ cause, (collectCalls.collectFromServer h server cfg outputDir).1 =
            Some (ErrScript cause)) ∨
  (∃ remoteTarPath cause, (collectCalls.collectFromServer h server cfg outputDir).1 =
                          Some (ErrDownload remoteTarPath cause)).
Proof.
  unfold collectCalls.collectFromServer, remoteCleanup.
  repeat case_match; cbn [fst snd app];
    (split;
     [ first [ by intros _; eauto
             | no_call;
               try (by intros [=Heq]; first [apply cleanupCommand_not_chmod in Heq
                                            |apply cleanupCommand_not_script in Heq]) ]
     | first [ by intros _; one_call
             | by intros [|[[? ?]|[? [? ?]]]] ] ]).
Qed.

End collection_calls.

Lemma RunCollection_any_schedule_witness :
  ∃ run1 run2,
    collect.RunCollection (λ _, healthyHost flakyNetwork) (λ _, None) [1] twoServers "." 10
      = Some run1 ∧
    collect.RunCollection (λ _, healthyHost flakyNetwork) (λ _, None) [0] twoServers "." 10
      = Some run2 ∧
    collect.success run1 = collect.success run2 ∧ collect.saved run1 = collect.saved run2 ∧
    collect.errors run1 ≡ₚ collect.errors run2.
Proof.
  eexists _, _. split; [vm_compute; reflexivity|]. split; [vm_compute; reflexivity|].
  apply (RunCollection_any_schedule (λ _, healthyHost flakyNetwork) (λ _, None) [1] [0]
           twoServers "." 10).
  - apply (bool_decide_unpack _). vm_compute. reflexivity.
  - vm_compute. reflexivity.
  - vm_compute. reflexivity.
Defined.

Lemma RunCollection_saved_manifest_witness :
  ∃ m,
    (∀ server, is_Some (config.FilesByServer m !! server) →
               server ∈ config.Servers twoServers) ∧
    (∀ server path info,
       config.GetFileInfo m server path = (info, true) →
       config.Path info = path ∧ (config.Checksum info = "" ∨ config.Error info = "")).
Proof.
  eexists.
  eapply (RunCollection_saved_manifest (λ _, healthyHost flakyNetwork) (λ _, None) [1]
            twoServers "." 10).
  - vm_compute. reflexivity.
  - reflexivity.
Defined.

Lemma collectFromServer_failure_witness :
  (collect.collectFromServer (brokenTarball flakyNetwork) "A" twoServers "."
     samples.manifest).1 = samples.manifest.
Proof.
  eapply collectFromServer_failure_adds_nothing.
  vm_compute. reflexivity.
Defined.

Lemma collectFromServer_walk_error_witness :
  collect.collectFromServer (unreadableDir flakyNetwork) "A" twoServers "." config.NewManifest =
  collect.collectFromServer
    (withWalked (unreadableDir flakyNetwork)
       [collect.mkVisit "." true None (inr "is a directory");
        collect.mkVisit "etc/foo.conf" false None (inl "e3b0c442")])
    "A" twoServers "." config.NewManifest.
Proof.
  apply (collectFromServer_walk_error _ _ _ _ _ _
           (collect.mkVisit "etc/ssl" true (Some "permission denied") (inr "is a directory"))
           [collect.mkVisit "etc/zz.conf" false None (inl "ffff")] "permission denied").
  - reflexivity.
  - intros u Hu. apply list_elem_of_In in Hu. simpl in Hu.
    destruct Hu as [<-|[<-|[]]]; reflexivity.
  - reflexivity.
Defined.

(** ** More on connecting *)

Section connect_more.
Import sshutil.

(** The result of [Connect], attempt by attempt. *)
Lemma Connect_outcome net hostname username keyPath keyPassphrase :
  (Connect net hostname username keyPath keyPassphrase).1 =
  match loadSigner net keyPath keyPassphrase with
  | Some e => inr e
  | None =>
      let sftp := match newSFTPClient net with
                  | Some cause => inr (ErrSFTP cause)
                  | None => inl (mkClient hostname)
                  end in
      match attemptError net hostname 1 with
      | None => sftp
      | Some _ =>
          match attemptError net hostname 2 with
          | None => sftp
          | Some _ =>
              match attemptError net hostname 3 with
              | None => sftp
              | Some e => inr e
              end
          end
      end
  end.
Proof.
  unfold Connect, attemptError, maxRetries.
  destruct (loadSigner net keyPath keyPassphrase); [done|].
  cbn [connectLoop Nat.ltb Nat.leb].
  destruct (dialTimeout net 1), (newClientConn net 1), (dialTimeout net 2),
    (newClientConn net 2), (dialTimeout net 3), (newClientConn net 3),
    (newSFTPClient net); reflexivity.
Qed.

Lemma attemptError_None net hostname k :
  attemptError net hostname k = None ↔
  dialTimeout net k = None ∧ newClientConn net k = None.
Proof.
  unfold attemptError.
  destruct (dialTimeout net k), (newClientConn net k); split; try done; by intros [? ?].
Qed.

(** X23. [Connect] returns a client exactly when the key loads, one of
    the three attempts dials and completes the handshake, and the SFTP
    client can be created; the client then carries the host name asked
    for. *)
Theorem Connect_succeeds_iff net hostname username keyPath keyPassphrase client :
  (Connect net hostname username keyPath keyPassphrase).1 = inl client ↔
  client = mkClient hostname ∧
  loadSigner net keyPath keyPassphrase = None ∧
  (∃ k, 1 ≤ k ≤ 3 ∧ dialTimeout net k = None ∧ newClientConn net k = None) ∧
  newSFTPClient net = None.
Proof.
  rewrite Connect_outcome.
  destruct (loadSigner net keyPath keyPassphrase); [by split; [|intros (_ & ? & _)]|].
  assert (∀ k, 1 ≤ k ≤ 3 → k = 1 ∨ k = 2 ∨ k = 3) as Hcases by lia.
  pose proof (attemptError_None net hostname 1) as H1.
  pose proof (attemptError_None net hostname 2) as H2.
  pose proof (attemptError_None net hostname 3) as H3.
  destruct (attemptError net hostname 1), (attemptError net hostname 2),
    (attemptError net hostname 3), (newSFTPClient net) eqn:Hs; cbn zeta;
    (split;
     [ intros Heq; try discriminate; injection Heq as <-;
       (split; [done|]); (split; [done|]); (split; [|done]);
       first [ exists 1; split; [lia|]; by apply H1
             | exists 2; split; [lia|]; by apply H2
             | exists 3; split; [lia|]; by apply H3 ]
     | intros (-> & _ & (k & Hk & Hd & Hc) & Hsftp); try done;
       destruct (Hcases k Hk) as [->|[->| ->]];
       first [ by pose proof (proj2 H1 (conj Hd Hc))
             | by pose proof (proj2 H2 (conj Hd Hc))
             | by pose proof (proj2 H3 (conj Hd Hc)) ] ]).
Qed.

(** X24. The error of [Connect] is never the one that says the
    connection failed after so many attempts: the test after the retry
    loop cannot succeed, because the last attempt returns its own error
    from inside the loop. *)
Theorem Connect_never_after_attempts net hostname username keyPath keyPassphrase
    host attempts connErr :
  (Connect net hostname username keyPath keyPassphrase).1 ≠
  inr (ErrAfterAttempts host attempts connErr).
Proof.
  rewrite Connect_outcome. unfold loadSigner, attemptError.
  intros Heq. repeat case_match; simplify_eq.
Qed.

(** Membership of an event in an explicit trace. *)
Ltac in_events :=
  repeat match goal with
         | H : _ ∈ _ :: _ |- _ => apply elem_of_cons in H as [H|H]
         | H : _ ∈ [] |- _ => by apply elem_of_nil in H
         end;
  simplify_eq.

(** X25. When [Connect] fails, no connection it opened stays open: every
    attempt that went as far as the handshake was closed after the
    handshake failed, or, when it was the SFTP client that could not be
    created, the SSH client was closed. *)
Theorem Connect_failure_closes net hostname username keyPath keyPassphrase e k :
  (Connect net hostname username keyPath keyPassphrase).1 = inr e →
  Handshake k ∈ (Connect net hostname username keyPath keyPassphrase).2 →
  CloseTCP k ∈ (Connect net hostname username keyPath keyPassphrase).2 ∨
  (newClientConn net k = None ∧
   CloseSSH ∈ (Connect net hostname username keyPath keyPassphrase).2).
Proof.
  unfold Connect, maxRetries.
  destruct (loadSigner net keyPath keyPassphrase); [by intros _ ?%elem_of_nil|].
  cbn [connectLoop Nat.ltb Nat.leb maxRetries].
  destruct (dialTimeout net 1) eqn:Hd1, (newClientConn net 1) eqn:Hc1,
    (dialTimeout net 2) eqn:Hd2, (newClientConn net 2) eqn:Hc2,
    (dialTimeout net 3) eqn:Hd3, (newClientConn net 3) eqn:Hc3,
    (newSFTPClient net) eqn:Hs; cbn [fst snd app]; intros Herr Hin;
    try discriminate; in_events;
    first [ by (left; repeat first [by left | right])
          | by (right; split; [done|]; repeat first [by left | right]) ].
Qed.

End connect_more.

Lemma Connect_failure_closes_witness :
  sshutil.CloseTCP 2 ∈ (sshutil.Connect noSFTP "A" "ops" "/k" "").2 ∨
  (sshutil.newClientConn noSFTP 2 = None ∧
   sshutil.CloseSSH ∈ (sshutil.Connect noSFTP "A" "ops" "/k" "").2).
Proof.
  apply (Connect_failure_closes noSFTP "A" "ops" "/k" ""
           (sshutil.ErrSFTP "subsystem request failed")).
  - vm_compute. reflexivity.
  - vm_compute. do 5 right. left.
Defined.

(** ** Downloading *)

Section download.
Import osfs sshutilFiles.

Lemma download_Copy_other fs localPath remoteFile path :
  path ≠ localPath → nodes (Copy fs localPath remoteFile).1 !! path = nodes fs !! path.
Proof.
  intros Hne. unfold Copy.
  destruct (quota fs !! localPath) as [n|]; [destruct (Nat.ltb _ _)|]; simpl;
    by rewrite lookup_insert_ne.
Qed.

Lemma download_Copy_done fs localPath remoteFile :
  (Copy fs localPath remoteFile).2 = None →
  readError remoteFile = None ∧
  nodes (Copy fs localPath remoteFile).1 !! localPath = Some (File (delivered remoteFile)).
Proof.
  unfold Copy.
  destruct (quota fs !! localPath) as [n|]; [destruct (Nat.ltb _ _)|]; simpl;
    try done; intros ->; by rewrite lookup_insert_eq.
Qed.

(** X26. [DownloadFile] returns nil only when the remote file was read to
    its end, and the local file then holds exactly the bytes read; when
    the copy fails, no file is left at the local path; and whatever
    happens, no other regular file is created, changed or removed. *)
Theorem DownloadFile_contract c sftpOpen fs remotePath localPath :
  match (DownloadFile c sftpOpen fs remotePath localPath).2 with
  | None =>
      ∃ remoteFile,
        sftpOpen remotePath = inl remoteFile ∧ readError remoteFile = None ∧
        nodes (DownloadFile c sftpOpen fs remotePath localPath).1 !! localPath =
          Some (File (delivered remoteFile))
  | Some (ErrCopyRemote _ _ _) =>
      nodes (DownloadFile c sftpOpen fs remotePath localPath).1 !! localPath = None
  | Some _ => True
  end ∧
  ∀ path content,
    path ≠ localPath →
    (nodes (DownloadFile c sftpOpen fs remotePath localPath).1 !! path = Some (File content) ↔
     nodes fs !! path = Some (File content)).
Proof.
  unfold DownloadFile.
  destruct (sftpOpen remotePath) as [remoteFile|cause]; [|done].
  pose proof (MkdirAll_sameFiles fs (filepath.Dir localPath)) as (_ & _ & Hmk).
  destruct (MkdirAll fs (filepath.Dir localPath)) as [fs1 [cause|]]; simpl in Hmk; [done|].
  pose proof (OpenFile_other fs1 localPath) as Hopen.
  destruct (OpenFile fs1 localPath) as [fs2 [cause|]]; simpl in Hopen.
  { split; [done|]. intros path content Hne. by rewrite Hopen. }
  pose proof (download_Copy_other fs2 localPath remoteFile) as Hcopy.
  pose proof (download_Copy_done fs2 localPath remoteFile) as Hdone.
  destruct (Copy fs2 localPath remoteFile) as [fs3 [cause|]]; simpl in *.
  - split; [by rewrite lookup_delete_eq|].
    intros path content Hne. by rewrite lookup_delete_ne, Hcopy, Hopen.
  - destruct Hdone as [Hread Hnode]; [done|]. split; [by exists remoteFile|].
    intros path content Hne. by rewrite Hcopy, Hopen.
Qed.

End download.

(** A download that the connection cuts after three bytes: the directory
    of the local path stays, the file does not. *)
Example download_cut_short :
  sshutilFiles.DownloadFile (sshutil.mkClient "A")
    (tarballServer "abc" (Some "connection lost")) samples.emptyFS
    "/home/ops/remote_backup.tar.gz" "/tmp/remote_backup_A_1700000000.tar.gz"
  = (osfs.mkFS {[ "/tmp" := osfs.Directory ]} ∅ ∅,
     Some (sshutilFiles.ErrCopyRemote "A" "/home/ops/remote_backup.tar.gz" "connection lost")).
Proof. vm_compute. reflexivity. Qed.

(** ** Loading the configuration *)

Section config_load.
Import config configLoad.

Lemma append_not_empty (r : string) (c : ascii) : r +:+ String c "" ≠ "".
Proof. by destruct r. Qed.

(** What [strings.TrimRight] returns does not end in the byte trimmed. *)
Lemma TrimRight_no_suffix (c : ascii) (s : string) :
  ∀ r, TrimRight s c ≠ r +:+ String c "".
Proof.
  induction s as [|a rest IH]; intros r Heq; cbn [TrimRight] in Heq.
  - by apply (append_not_empty r c).
  - destruct (TrimRight rest c) as [|x y] eqn:Hrest.
    + destruct (Ascii.eqb_spec a c) as [->|Hne].
      * by apply (append_not_empty r c).
      * destruct r as [|b r]; rewrite ?append_nil_l, ?append_cons in Heq.
        -- by injection Heq.
        -- injection Heq as _ Heq. by apply (append_not_empty r c).
    + destruct r as [|b r]; rewrite ?append_nil_l, ?append_cons in Heq.
      * by injection Heq.
      * injection Heq as _ Heq. by apply (IH r).
Qed.

Lemma TrimRight_HasSuffix (s : string) :
  strings.HasSuffix (TrimRight s "/") "/" = false.
Proof.
  destruct (strings.HasSuffix (TrimRight s "/") "/") eqn:Hsuffix; [|done].
  apply HasSuffix_inv in Hsuffix as [r Hr]. by apply TrimRight_no_suffix in Hr.
Qed.

Lemma GetSSHCredentialsFromEnv_ok env creds :
  GetSSHCredentialsFromEnv env = (creds, None) →
  Username creds = getenv env "SSHUSER" ∧ Username creds ≠ "" ∧
  getenv env "SSHKEYPATH" ≠ "" ∧
  KeyPassphrase creds = getenv env "SSHKEYPIN" ∧
  stat env (KeyPath creds) ≠ StatNotExist.
Proof.
  unfold GetSSHCredentialsFromEnv. cbn [Username KeyPath KeyPassphrase].
  destruct (String.eqb_spec (getenv env "SSHUSER") "") as [|Huser]; [done|].
  destruct (String.eqb_spec (getenv env "SSHKEYPATH") "") as [|Hkey]; [done|].
  cbn [app length Nat.ltb Nat.leb].
  destruct (strings.HasPrefix _ _); [destruct (userHomeDir env); [|done]|];
    cbn [KeyPath];
    match goal with |- context [stat env ?p] => destruct (stat env p) eqn:Hstat end;
    intros [= <-]; cbn [Username KeyPath KeyPassphrase]; rewrite ?Hstat; done.
Qed.

(** X27. A configuration that [LoadOrInitializeConfig] returns names at
    least one server and at least one file or directory; none of its
    directories ends in a slash; its user name is the non-empty value of
    [SSHUSER] and its key path does not name a missing file; and it is
    what was written to [config.json], which happens exactly when
    [saveConfig] is set. *)
Theorem LoadOrInitializeConfig_postconditions env outputDir serversStr filesStr dirsStr
    saveConfig cfg written :
  LoadOrInitializeConfig env outputDir serversStr filesStr dirsStr saveConfig
    = (inl cfg, written) →
  Servers cfg ≠ [] ∧ (Files cfg ≠ [] ∨ Dirs cfg ≠ []) ∧
  (∀ d, d ∈ Dirs cfg → strings.HasSuffix d "/" = false) ∧
  Username (SSHConfig cfg) = getenv env "SSHUSER" ∧ Username (SSHConfig cfg) ≠ "" ∧
  stat env (KeyPath (SSHConfig cfg)) ≠ StatNotExist ∧
  written = (if saveConfig
             then Some (getConfigPath outputDir,
                        mkStored (Servers cfg) (Files cfg) (Dirs cfg))
             else None).
Proof.
  unfold LoadOrInitializeConfig.
  set (loaded := match stat env (getConfigPath outputDir) with
                 | StatOk => _ | StatNotExist => _ | StatError cause => _ end).
  destruct loaded as [stored|e]; [|done].
  set (servers := if negb (String.eqb serversStr "") then _ else _).
  set (files := if negb (String.eqb filesStr "") then _ else _).
  set (dirs := if negb (String.eqb dirsStr "") then _ else _).
  destruct (Nat.eqb_spec (length servers) 0) as [|Hservers]; [done|].
  destruct (Nat.eqb_spec (length files) 0) as [Hfiles|Hfiles];
    [destruct (Nat.eqb_spec (length dirs) 0) as [|Hdirs]; [done|]|]; cbn [andb];
    (pose proof (GetSSHCredentialsFromEnv_ok env) as Hcreds;
     destruct (GetSSHCredentialsFromEnv env) as [sshConfig [e|]]; [done|];
     destruct (Hcreds sshConfig eq_refl) as (Huser & Hnonempty & _ & _ & Hstat);
     assert (∀ d, d ∈ map (λ d, TrimRight d "/") dirs → strings.HasSuffix d "/" = false)
       as Htrim
       by (intros d (d' & Heq & _)%list_elem_of_In%in_map_iff; subst d;
           apply TrimRight_HasSuffix);
     destruct saveConfig;
     [destruct (mkdirAll env _); [done|]; destruct (writeFile env _); [done|]|];
     intros [= <- <-]; cbn [Servers Files Dirs SSHConfig];
     (split; [by destruct servers|]);
     (split; [first [by left; destruct files | by right; destruct dirs]|]);
     done).
Qed.

(** X28. With all three of [serversStr], [filesStr] and [dirsStr] given,
    what the configuration file holds does not matter, readable as JSON
    or not: the result is the same for every answer of [json.Unmarshal]. *)
Theorem LoadOrInitializeConfig_arguments_win env unmarshal' outputDir serversStr filesStr
    dirsStr saveConfig :
  serversStr ≠ "" → filesStr ≠ "" → dirsStr ≠ "" →
  LoadOrInitializeConfig (withUnmarshal env unmarshal') outputDir serversStr filesStr dirsStr
    saveConfig =
  LoadOrInitializeConfig env outputDir serversStr filesStr dirsStr saveConfig.
Proof.
  intros Hservers%String.eqb_neq Hfiles%String.eqb_neq Hdirs%String.eqb_neq.
  unfold LoadOrInitializeConfig, GetSSHCredentialsFromEnv, withUnmarshal.
  cbn [getenv userHomeDir stat readFile unmarshal mkdirAll writeFile].
  rewrite Hservers, Hfiles, Hdirs. cbn [negb].
  destruct (stat env (getConfigPath outputDir)); [|done..].
  destruct (readFile env (getConfigPath outputDir)) as [data|]; [|done].
  by destruct (unmarshal' data), (unmarshal env data).
Qed.

End config_load.

Lemma LoadOrInitializeConfig_postconditions_witness :
  config.Servers loadedConfig ≠ [] ∧
  (config.Files loadedConfig ≠ [] ∨ config.Dirs loadedConfig ≠ []) ∧
  (∀ d, d ∈ config.Dirs loadedConfig → strings.HasSuffix d "/" = false) ∧
  config.Username (config.SSHConfig loadedConfig) = configLoad.getenv freshMachine "SSHUSER" ∧
  config.Username (config.SSHConfig loadedConfig) ≠ "" ∧
  configLoad.stat freshMachine (config.KeyPath (config.SSHConfig loadedConfig))
    ≠ configLoad.StatNotExist ∧
  Some ("conf/config.json",
        configLoad.mkStored ["A"; "B"] ["/etc/hosts"] ["/etc/ssl"; "/var"]) =
  (if true
   then Some (configLoad.getConfigPath ".",
              configLoad.mkStored (config.Servers loadedConfig) (config.Files loadedConfig)
                (config.Dirs loadedConfig))
   else None).
Proof.
  apply (LoadOrInitializeConfig_postconditions freshMachine "." "A,B" "/etc/hosts"
           "/etc/ssl/,/var//" true).
  vm_compute. reflexivity.
Defined.

Lemma LoadOrInitializeConfig_arguments_win_witness :
  configLoad.LoadOrInitializeConfig
    (withUnmarshal corruptConfigMachine
       (λ _, Some (configLoad.mkStored ["C"] ["/etc/passwd"] [])))
    "." "A,B" "/etc/hosts" "/etc/ssl/" false =
  configLoad.LoadOrInitializeConfig corruptConfigMachine "." "A,B" "/etc/hosts" "/etc/ssl/"
    false.
Proof.
  apply LoadOrInitializeConfig_arguments_win; discriminate.
Defined.

(** ** What the copy with the fixes extracts *)

Section extraction_contents.
Import filepath osfs tar util_fixed.

Lemma Copy_done fs target e :
  (Copy fs target e).2 = None →
  nodes (Copy fs target e).1 !! target = Some (File (data e)).
Proof.
  unfold Copy.
  destruct (quota fs !! target) as [n|]; [destruct (Nat.ltb _ _)|]; simpl;
    try done; intros _; by rewrite lookup_insert_eq.
Qed.

(** An entry leaves the regular files at paths other than its target as
    they are. *)
Lemma fixed_extractEntry_other fs dest cleanDest e path content :
  path ≠ Join [cleanDest; Name (header e)] →
  nodes (extractEntry fs dest cleanDest e).1 !! path = Some (File content) ↔
  nodes fs !! path = Some (File content).
Proof.
  intros Hne. unfold extractEntry.
  destruct (_ || _); [done|].
  set (target := Join [cleanDest; Name (header e)]) in *.
  destruct (_ && _); [done|].
  destruct (Typeflag (header e)); try done.
  - pose proof (MkdirAll_sameFiles fs (Dir target)) as (_ & _ & Hmk).
    destruct (MkdirAll fs (Dir target)) as [fs' [cause|]]; simpl in *; [done|].
    rewrite <- Hmk.
    pose proof (OpenFile_other fs' target path Hne) as Hopen.
    destruct (OpenFile fs' target) as [fs'' [cause|]]; simpl in *; [by rewrite Hopen|].
    pose proof (Copy_other fs'' target e path Hne) as Hcopy.
    destruct (Copy fs'' target e) as [fs3 [copyErr|]]; simpl in *.
    + by rewrite lookup_delete_ne, Hcopy, Hopen.
    + by rewrite Hcopy, Hopen.
  - pose proof (MkdirAll_sameFiles fs target) as (_ & _ & Hmk).
    by destruct (MkdirAll fs target) as [fs' [cause|]].
Qed.

Lemma fixed_extractLoop_other dest cleanDest members ending path content : ∀ fs,
  (∀ e, e ∈ members → Join [cleanDest; Name (header e)] ≠ path) →
  nodes (extractLoop fs dest cleanDest members ending).1 !! path = Some (File content) ↔
  nodes fs !! path = Some (File content).
Proof.
  induction members as [|e rest IH]; intros fs Hothers; simpl.
  - by destruct ending.
  - assert (path ≠ Join [cleanDest; Name (header e)]) as Hne.
    { intros ->. by apply (Hothers e); [left|]. }
    pose proof (fixed_extractEntry_other fs dest cleanDest e path content Hne) as He.
    destruct (extractEntry fs dest cleanDest e) as [fs' [err|]]; [done|].
    destruct (readError e); [done|]. simpl in He.
    rewrite IH; [done|]. intros e' Hin. apply Hothers. by right.
Qed.

(** A regular entry that is extracted without error leaves its bytes at
    its target. *)
Lemma fixed_extractEntry_regular fs dest cleanDest e :
  Typeflag (header e) = TypeReg →
  Name (header e) ≠ "." → Name (header e) ≠ "./" →
  (extractEntry fs dest cleanDest e).2 = None →
  nodes (extractEntry fs dest cleanDest e).1 !! Join [cleanDest; Name (header e)] =
  Some (File (data e)).
Proof.
  intros Hreg Hdot Hdotslash. unfold extractEntry.
  destruct (String.eqb_spec (Name (header e)) "."); [done|].
  destruct (String.eqb_spec (Name (header e)) "./"); [done|]. cbn [orb].
  set (target := Join [cleanDest; Name (header e)]).
  destruct (_ && _); [done|]. rewrite Hreg.
  destruct (MkdirAll fs (Dir target)) as [fs' [cause|]]; [done|].
  destruct (OpenFile fs' target) as [fs'' [cause|]]; [done|].
  pose proof (Copy_done fs'' target e) as Hcopy.
  destruct (Copy fs'' target e) as [fs3 [copyErr|]]; [done|].
  intros _. by apply Hcopy.
Qed.

(** X29. When the copy with the fixes returns nil, every regular entry
    of the archive whose target no later entry names again is a file
    under the destination holding exactly the bytes of the entry. *)
Theorem fixed_ExtractTarGz_contents fs gzipStream dest before e after :
  (ExtractTarGz fs gzipStream dest).2 = None →
  entries gzipStream = before ++ e :: after →
  Typeflag (header e) = TypeReg →
  Name (header e) ≠ "." → Name (header e) ≠ "./" →
  (∀ e', e' ∈ after →
     Join [Clean dest; Name (header e')] ≠ Join [Clean dest; Name (header e)]) →
  nodes (ExtractTarGz fs gzipStream dest).1 !! Join [Clean dest; Name (header e)] =
  Some (File (data e)).
Proof.
  unfold ExtractTarGz. intros Hok Hentries Hreg Hdot Hdotslash Hlater.
  destruct (gzipError gzipStream); [done|].
  destruct (MkdirAll fs dest) as [fs0 [cause|]]; [done|].
  rewrite Hentries, fixed_extractLoop_app in Hok |- *.
  destruct (extractLoop fs0 dest (Clean dest) before None) as [fs1 [err|]]; [done|].
  cbn [extractLoop] in Hok |- *.
  pose proof (fixed_extractEntry_regular fs1 dest (Clean dest) e Hreg Hdot Hdotslash)
    as Hhere.
  destruct (extractEntry fs1 dest (Clean dest) e) as [fs2 [err|]]; [done|].
  destruct (readError e); [done|].
  rewrite fixed_extractLoop_other by done. by apply Hhere.
Qed.

End extraction_contents.

Section links.
Import osfs tar util.

(** X30. [ExtractTarGz] never creates a link, and an entry of a type
    other than regular file and directory never creates anything: an
    archive made of such entries leaves the file system as it was. *)
Theorem ExtractTarGz_links_skipped fs gzipStream dest :
  (∀ e, e ∈ entries gzipStream →
        Typeflag (header e) ≠ TypeReg ∧ Typeflag (header e) ≠ TypeDir) →
  (ExtractTarGz fs gzipStream dest).1 = fs.
Proof.
  unfold ExtractTarGz. intros Hlinks. destruct (gzipError gzipStream); [done|].
  generalize (ending gzipStream) as ending.
  induction (entries gzipStream) as [|e rest IH]; intros ending; simpl.
  - by destruct ending.
  - destruct (Hlinks e) as [Hreg Hdir]; [left|].
    assert ((extractEntry fs dest e).1 = fs) as Hsame.
    { unfold extractEntry. destruct (negb _); [done|].
      by destruct (Typeflag (header e)). }
    destruct (extractEntry fs dest e) as [fs' [err|]]; simpl in Hsame; subst fs'; [done|].
    destruct (readError e); [done|].
    apply IH. intros e' Hin. apply Hlinks. by right.
Qed.

End links.

Lemma fixed_ExtractTarGz_contents_witness :
  osfs.nodes (util_fixed.ExtractTarGz samples.emptyFS samples.collected "/out").1
    !! filepath.Join [filepath.Clean "/out"; "./etc/foo.conf"] = Some (osfs.File "a=1").
Proof.
  apply (fixed_ExtractTarGz_contents samples.emptyFS samples.collected "/out"
           [samples.directory "./"; samples.directory "./etc/"]
           (samples.regular "./etc/foo.conf" "a=1") []).
  - vm_compute. reflexivity.
  - reflexivity.
  - reflexivity.
  - discriminate.
  - discriminate.
  - intros e' Hin. by apply elem_of_nil in Hin.
Defined.

Lemma ExtractTarGz_links_skipped_witness :
  (util.ExtractTarGz samples.fullDisk
     (tar.mkArchive None
        [tar.mkEntry (tar.mkHeader "etc/localtime" tar.TypeSymlink "/usr/share/zoneinfo/UTC")
           "" None;
         tar.mkEntry (tar.mkHeader "etc/mtab" tar.TypeLink "etc/fstab") "" None]
        None)
     "/out").1 = samples.fullDisk.
Proof.
  apply ExtractTarGz_links_skipped.
  intros e Hin. apply list_elem_of_In in Hin. simpl in Hin.
  destruct Hin as [<-|[<-|[]]]; split; discriminate.
Defined.
